(** * Blaze Intelligence Monte Carlo engine (src/monte_carlo.py)

    A shallow embedding of the simulation core of [monte_carlo.py]:
    the parameter set, the three samplers, the stream simulators, the
    market adjustment, the aggregator ([run_simulation]) and the
    summarizer ([generate_statistics], [sensitivity_analysis]).

    The program computes on NumPy [float64] and [int64] arrays.  The
    embedding is written once over an arithmetic carrier [F] and read
    at two instances:
    - [float] (Rocq's primitive binary64 numbers): the arithmetic the
      program runs on, with rounding, signed zeros, infinities and NaN;
    - [R]: the real-number reading of the same formulas, used for the
      order properties that hold "within floating tolerance".

    NumPy's random generator ([np.random], a process-wide Mersenne
    Twister) is not part of the repository; it is an abstract
    [Generator] that hands out raw variates, and the wrappers
    [np_random_uniform], [np_random_normal], [np_random_randint]
    follow NumPy's legacy [RandomState] code paths, argument checks
    included.  Pandas' reductions are modelled from their documented
    semantics ([skipna=True]: NaN is dropped, infinities are kept). *)

From Stdlib Require Import ZArith List String Ascii Bool Lia Floats Reals Lra
  Permutation Sorted.
Import ListNotations.

Set Implicit Arguments.
Set Warnings "-inexact-float".

(** ** Arithmetic carrier *)

Class Num (F : Type) := {
  fadd : F -> F -> F;
  fsub : F -> F -> F;
  fmul : F -> F -> F;
  fdiv : F -> F -> F;
  fsqrt : F -> F;
  fabs : F -> F;
  (** conversion of a Python / NumPy integer to a float *)
  of_int : Z -> F;
  (** the not-a-number value ([np.nan]) *)
  fnan : F;
  feqb : F -> F -> bool;
  fltb : F -> F -> bool;
  fleb : F -> F -> bool;
  isnan : F -> bool;
  isfinite : F -> bool;
  signbit : F -> bool;
  (** [np.floor] followed by conversion to an index *)
  ffloor : F -> Z
}.

Declare Scope num_scope.
Delimit Scope num_scope with num.
Infix "+" := fadd : num_scope.
Infix "-" := fsub : num_scope.
Infix "*" := fmul : num_scope.
Infix "/" := fdiv : num_scope.
Infix "=?" := feqb : num_scope.
Infix "<?" := fltb : num_scope.
Infix "<=?" := fleb : num_scope.

(** A decimal literal [n/d] of the source ([0.35] is [lit 35 100]):
    the quotient of two exactly representable integers, hence the
    double nearest to the decimal, which is what Python reads. *)
Definition lit {F} `{Num F} (n : Z) (d : positive) : F :=
  (of_int n / of_int (Zpos d))%num.

(** *** binary64 *)

Definition float_of_Z (z : Z) : float :=
  SF2Prim (binary_normalize prec emax z 0 false).

Definition float_signbit (x : float) : bool :=
  match Prim2SF x with
  | S754_zero s | S754_infinity s | S754_finite s _ _ => s
  | S754_nan => false
  end.

Definition float_floor (x : float) : Z :=
  match Prim2SF x with
  | S754_finite s m e => Z.shiftl (cond_Zopp s (Zpos m)) e
  | _ => 0
  end.

#[export] Instance float_Num : Num float := {
  fadd := PrimFloat.add;
  fsub := PrimFloat.sub;
  fmul := PrimFloat.mul;
  fdiv := PrimFloat.div;
  fsqrt := PrimFloat.sqrt;
  fabs := PrimFloat.abs;
  of_int := float_of_Z;
  fnan := PrimFloat.nan;
  feqb := PrimFloat.eqb;
  fltb := PrimFloat.ltb;
  fleb := PrimFloat.leb;
  isnan := PrimFloat.is_nan;
  isfinite := PrimFloat.is_finite;
  signbit := float_signbit;
  ffloor := float_floor
}.

(** *** real numbers *)

Definition Reqb (x y : R) : bool := if Req_dec_T x y then true else false.
Definition Rltb (x y : R) : bool := if Rlt_dec x y then true else false.
Definition Rleb (x y : R) : bool := if Rle_dec x y then true else false.

#[export] Instance R_Num : Num R := {
  fadd := Rplus;
  fsub := Rminus;
  fmul := Rmult;
  fdiv := Rdiv;
  fsqrt := R_sqrt.sqrt;
  fabs := Rabs;
  of_int := IZR;
  fnan := 0%R;
  feqb := Reqb;
  fltb := Rltb;
  fleb := Rleb;
  isnan := fun _ => false;
  isfinite := fun _ => true;
  signbit := fun x => Rltb x 0;
  ffloor := fun x => (up x - 1)%Z
}.

(** ** Exceptions *)

Inductive exn : Type :=
| ValueError (msg : string)
| OverflowError (msg : string).

(** The spec's [EngineStateError]: the code raises it as
    [ValueError("Must run simulation first")]. *)
Definition EngineStateError : exn := ValueError "Must run simulation first".

(** ** NumPy's generator *)

(** The raw variates of NumPy's legacy generator: [next_double] is
    [legacy_double] (uniform on [0,1)), [next_gauss] is [legacy_gauss]
    (standard normal), [next_interval mx] is [random_interval] (uniform
    on the integers [0..mx]).  [seed] is [np.random.seed]. *)
Class Generator (F : Type) := {
  rng : Type;
  seed : Z -> rng;
  next_double : rng -> F * rng;
  next_gauss : rng -> F * rng;
  next_interval : Z -> rng -> Z * rng
}.

Section Draws.
Context {A St : Type}.
Variable next : St -> A * St.

(** [n] draws in sequence, as NumPy fills an array of size [n]. *)
Fixpoint draws (n : nat) (g : St) : list A * St :=
  match n with
  | O => ([], g)
  | S k =>
      let (x, g1) := next g in
      let (xs, g2) := draws k g1 in
      (x :: xs, g2)
  end.

End Draws.

(** ** Arrays *)

(** Element-wise binary operation on two arrays of one length. *)
Fixpoint vmap2 {A B C : Type} (f : A -> B -> C) (xs : list A) (ys : list B)
  : list C :=
  match xs, ys with
  | x :: xs', y :: ys' => f x y :: vmap2 f xs' ys'
  | _, _ => []
  end.

(** [int64] arithmetic wraps around silently in NumPy. *)
Definition wrap_int64 (z : Z) : Z :=
  ((z + 2 ^ 63) mod 2 ^ 64 - 2 ^ 63)%Z.

Definition int64_min : Z := (- 2 ^ 63)%Z.
Definition int64_max : Z := (2 ^ 63 - 1)%Z.

(** ** BLAS

    [np.corrcoef] multiplies the centred data with its transpose
    through BLAS, which does not fix the order in which the products
    are added up: the dot product of two vectors is a parameter of
    the model. *)
Class Blas (F : Type) := {
  dot : list F -> list F -> F
}.

Section Engine.
Context {F : Type} {NF : Num F} {G : Generator F} {BL : Blas F}.
Local Open Scope num_scope.

(** Array-with-array and array-with-scalar arithmetic. *)
Definition vadd (a b : list F) : list F := vmap2 fadd a b.
Definition vsub (a b : list F) : list F := vmap2 fsub a b.
Definition vmul (a b : list F) : list F := vmap2 fmul a b.
Definition vdiv (a b : list F) : list F := vmap2 fdiv a b.
Definition vscale (a : list F) (c : F) : list F := map (fun x => x * c) a.
Definition vdivs (a : list F) (c : F) : list F := map (fun x => x / c) a.
(** [c - a] for a scalar [c] *)
Definition vrsub (c : F) (a : list F) : list F := map (fun x => c - x) a.
(** [int64] array added to an [int64] array *)
Definition viadd (a b : list Z) : list Z :=
  vmap2 (fun x y => wrap_int64 (x + y)%Z) a b.
(** [int64] array times [float64] array: the integers are converted *)
Definition vimul (a : list Z) (b : list F) : list F :=
  vmap2 (fun k x => of_int k * x) a b.

(** [np.clip(x, lo, hi)] on one element, for scalar bounds (the
    ufunc's loop for constant [min] and [max]): a NaN bound makes the
    result NaN; otherwise a value below [lo] is replaced by [lo], then
    a value above [hi] by [hi].  Both comparisons are false on NaN, so
    a NaN value is returned as it is, and a value equal to a bound is
    returned itself. *)
Definition np_clip1 (x lo hi : F) : F :=
  if isnan lo then lo
  else if isnan hi then hi
  else
    let x := if x <? lo then lo else x in
    if hi <? x then hi else x.
Definition np_clip (xs : list F) (lo hi : F) : list F :=
  map (fun x => np_clip1 x lo hi) xs.

(** ** Parameter set *)

Record SimulationParameters : Type := {
  basic_price : F * F;
  pro_price : F * F;
  enterprise_price : F * F;
  basic_subscribers : Z * Z;
  pro_subscribers : Z * Z;
  enterprise_subscribers : Z * Z;
  api_monthly_base : F * F;
  api_per_call_revenue : F * F;
  monthly_api_calls : Z * Z;
  projects_per_month : Z * Z;
  project_value : F * F;
  annual_licensing_deals : Z * Z;
  licensing_value : F * F;
  infrastructure_monthly : F * F;
  data_acquisition : F * F;
  personnel_allocation : F * F;
  marketing_monthly : F * F;
  seasonality_factor : F * F;
  market_growth_rate : F * F;
  churn_rate : F * F;
  automation_savings : F * F;
  platform_efficiency : F * F;
  baseball_impact : F * F;
  football_impact : F * F;
  basketball_impact : F * F;
  track_field_impact : F * F
}.

(** [SimulationParameters()]: the dataclass defaults. *)
Definition default_parameters : SimulationParameters := {|
  basic_price := (of_int 29, of_int 49);
  pro_price := (of_int 99, of_int 149);
  enterprise_price := (of_int 499, of_int 999);
  basic_subscribers := (50, 300)%Z;
  pro_subscribers := (20, 100)%Z;
  enterprise_subscribers := (5, 25)%Z;
  api_monthly_base := (of_int 500, of_int 2000);
  api_per_call_revenue := (lit 1 1000, lit 1 100);
  monthly_api_calls := (100000, 1000000)%Z;
  projects_per_month := (1, 5)%Z;
  project_value := (of_int 2000, of_int 15000);
  annual_licensing_deals := (2, 8)%Z;
  licensing_value := (of_int 10000, of_int 50000);
  infrastructure_monthly := (of_int 500, of_int 1500);
  data_acquisition := (of_int 1000, of_int 3000);
  personnel_allocation := (of_int 2000, of_int 5000);
  marketing_monthly := (of_int 500, of_int 2000);
  seasonality_factor := (lit 7 10, lit 13 10);
  market_growth_rate := (lit 98 100, lit 115 100);
  churn_rate := (lit 2 100, lit 8 100);
  automation_savings := (lit 1 10, lit 3 10);
  platform_efficiency := (of_int 1, lit 15 10);
  baseball_impact := (lit 9 10, lit 14 10);
  football_impact := (lit 8 10, lit 13 10);
  basketball_impact := (lit 7 10, lit 12 10);
  track_field_impact := (lit 5 10, lit 9 10)
|}.

(** ** Trial table *)

(** The [DataFrame] built by [run_simulation]: twenty columns, one
    row per trial.  [api_calls] and [project_count] are [int64]. *)
Record DataFrame : Type := {
  subscription_revenue : list F;
  api_revenue : list F;
  project_revenue : list F;
  licensing_revenue : list F;
  total_costs : list F;
  infrastructure_cost : list F;
  data_cost : list F;
  personnel_cost : list F;
  marketing_cost : list F;
  gross_revenue : list F;
  adjusted_revenue : list F;
  gross_profit : list F;
  profit_margin : list F;
  roi_percent : list F;
  monthly_value : list F;
  hours_saved : list F;
  total_subscribers : list F;
  api_calls : list Z;
  project_count : list Z;
  automation_savings_col : list F
}.

(** ** Engine object and process state *)

Record BlazeIntelMonteCarlo : Type := {
  params : SimulationParameters;
  n_simulations : Z;
  results : option DataFrame
}.

(** [BlazeIntelMonteCarlo.__init__] *)
Definition __init__ (p : SimulationParameters) (n : Z) : BlazeIntelMonteCarlo :=
  {| params := p; n_simulations := n; results := None |}.

(** The state a method call can read and write: NumPy's process-wide
    generator and the engine object [self]. *)
Record World : Type := {
  np_random : rng;
  self : BlazeIntelMonteCarlo
}.

Definition set_rng (w : World) (g : rng) : World :=
  {| np_random := g; self := self w |}.
Definition set_results (w : World) (t : DataFrame) : World :=
  {| np_random := np_random w;
     self := {| params := params (self w);
                n_simulations := n_simulations (self w);
                results := Some t |} |}.

(** [np.random.seed(s)] *)
Definition np_random_seed (s : Z) (w : World) : World := set_rng w (seed s).

(** Methods: state passing with exceptions. *)
Definition M (A : Type) : Type := World -> (exn + A) * World.
Definition ret {A} (x : A) : M A := fun w => (inr x, w).
Definition raise {A} (e : exn) : M A := fun w => (inl e, w).
Definition bind {A B} (m : M A) (k : A -> M B) : M B :=
  fun w => match m w with
           | (inr x, w1) => k x w1
           | (inl e, w1) => (inl e, w1)
           end.
(** Reads of [self.params], [self.n_simulations] and [self.results]. *)
Definition get_params : M SimulationParameters := fun w => (inr (params (self w)), w).
Definition get_n : M Z := fun w => (inr (n_simulations (self w)), w).
Definition get_results : M (option DataFrame) := fun w => (inr (results (self w)), w).

Notation "x <- m ;; k" := (bind m (fun x => k))
  (at level 61, m at next level, right associativity).

(** ** NumPy's sampling functions ([RandomState], legacy code paths) *)

(** Allocation of the output array: a negative [size] is refused. *)
Definition check_size {A} (n : Z) (k : nat -> M A) : M A :=
  if (n <? 0)%Z then raise (ValueError "negative dimensions are not allowed")
  else k (Z.to_nat n).

Definition draw {A} (next : rng -> A * rng) (n : nat) : M (list A) :=
  fun w => let (xs, g) := draws next n (np_random w) in (inr xs, set_rng w g).

(** [np.random.uniform(low, high, size)]: [low + (high - low) * u]. *)
Definition np_random_uniform (low high : F) (size : Z) : M (list F) :=
  let fscale := high - low in
  if negb (isfinite fscale) then raise (OverflowError "Range exceeds valid bounds")
  else check_size size (fun n =>
    us <- draw next_double n ;;
    ret (map (fun u => low + fscale * u) us)).

(** [np.random.normal(loc, scale, size)]: [loc + scale * z]. *)
Definition np_random_normal (loc scale : F) (size : Z) : M (list F) :=
  if negb (isnan scale) && signbit scale then raise (ValueError "scale < 0")
  else check_size size (fun n =>
    zs <- draw next_gauss n ;;
    ret (map (fun z => loc + scale * z) zs)).

(** [np.random.randint(low, high, size)], [high] exclusive, [int64].
    A request for no value at all is answered with the empty array
    before the bounds are looked at. *)
Definition np_random_randint (low high : Z) (size : Z) : M (list Z) :=
  let high' := (high - 1)%Z in
  if (size =? 0)%Z then ret []
  else if (low <? int64_min)%Z then raise (ValueError "low is out of bounds for int64")
  else if (int64_max <? high')%Z then raise (ValueError "high is out of bounds for int64")
  else if (high' <? low)%Z then raise (ValueError "low >= high")
  else check_size size (fun n =>
    ks <- draw (next_interval (high' - low)%Z) n ;;
    ret (map (fun k => wrap_int64 (low + k)%Z) ks)).

(** ** Sampler *)

Definition _sample_uniform (param_range : F * F) : M (list F) :=
  n <- get_n ;;
  np_random_uniform (fst param_range) (snd param_range) n.

(** The arithmetic of [_sample_normal_bounded] after the draw: the
    skew transform and the clamp. *)
Definition skew_and_clip (param_range : F * F) (skew mean std : F)
  (samples : list F) : list F :=
  let samples :=
    if negb (skew =? of_int 0) then
      map (fun x => x + skew * ((x - mean) * (x - mean)) / std) samples
    else samples in
  np_clip samples (fst param_range) (snd param_range).

Definition _sample_normal_bounded (param_range : F * F) (skew : F) : M (list F) :=
  n <- get_n ;;
  let mean := (fst param_range + snd param_range) / of_int 2 in
  let std := (snd param_range - fst param_range) / of_int 4 in
  samples <- np_random_normal mean std n ;;
  ret (skew_and_clip param_range skew mean std samples).

Definition _sample_integer (param_range : Z * Z) : M (list Z) :=
  n <- get_n ;;
  np_random_randint (fst param_range) (snd param_range + 1)%Z n.

(** *** What the samplers return

    The values of a successful draw, as functions of the generator's
    raw variates, and the argument checks NumPy makes before drawing. *)

Definition uniform_values (r : F * F) (us : list F) : list F :=
  map (fun u => fst r + (snd r - fst r) * u) us.
Definition normal_values (r : F * F) (skew : F) (zs : list F) : list F :=
  let mean := (fst r + snd r) / of_int 2 in
  let std := (snd r - fst r) / of_int 4 in
  skew_and_clip r skew mean std (map (fun z => mean + std * z) zs).
Definition integer_values (r : Z * Z) (ks : list Z) : list Z :=
  map (fun k => wrap_int64 (fst r + k)%Z) ks.

Definition uniform_ok (r : F * F) : bool := isfinite (snd r - fst r).
Definition normal_ok (r : F * F) : bool :=
  let std := (snd r - fst r) / of_int 4 in
  negb (negb (isnan std) && signbit std).
Definition integer_ok (r : Z * Z) : bool :=
  ((int64_min <=? fst r) && (snd r <=? int64_max) && (fst r <=? snd r))%Z.
(** The integer bounds are checked only when values are asked for. *)
Definition randint_ok (size : Z) (r : Z * Z) : bool :=
  (size =? 0)%Z || integer_ok r.

(** [xs] is a population of [N] values drawn for the range [r]. *)
Definition uniform_sample (r : F * F) (N : nat) (xs : list F) : Prop :=
  exists g, xs = uniform_values r (fst (draws next_double N g)).
Definition normal_sample (r : F * F) (skew : F) (N : nat) (xs : list F) : Prop :=
  exists g, xs = normal_values r skew (fst (draws next_gauss N g)).
Definition integer_sample (r : Z * Z) (N : nat) (ks : list Z) : Prop :=
  exists g, ks = integer_values r
                   (fst (draws (next_interval (snd r - fst r)%Z) N g)).

(** ** Stream simulators

    Each simulator draws its populations in source order and then
    applies closed-form array arithmetic; the arithmetic is written
    as a function of the drawn arrays. *)

Record SubscriptionStreams : Type := {
  basic : list F;
  pro : list F;
  enterprise : list F;
  total_subscription : list F;
  sub_total_subscribers : list F
}.

Definition subscription_streams (basic_subs pro_subs enterprise_subs : list Z)
  (basic_price pro_price enterprise_price churn : list F) : SubscriptionStreams :=
  let retention := vrsub (of_int 1) churn in
  let basic_revenue := vmul (vimul basic_subs basic_price) retention in
  let pro_revenue := vmul (vimul pro_subs pro_price) retention in
  let enterprise_revenue := vmul (vimul enterprise_subs enterprise_price) retention in
  {| basic := basic_revenue;
     pro := pro_revenue;
     enterprise := enterprise_revenue;
     total_subscription := vadd (vadd basic_revenue pro_revenue) enterprise_revenue;
     sub_total_subscribers :=
       vimul (viadd (viadd basic_subs pro_subs) enterprise_subs) retention |}.

Definition simulate_subscription_revenue : M SubscriptionStreams :=
  p <- get_params ;;
  basic_subs <- _sample_integer (basic_subscribers p) ;;
  pro_subs <- _sample_integer (pro_subscribers p) ;;
  enterprise_subs <- _sample_integer (enterprise_subscribers p) ;;
  basic_price <- _sample_uniform (basic_price p) ;;
  pro_price <- _sample_uniform (pro_price p) ;;
  enterprise_price <- _sample_uniform (enterprise_price p) ;;
  churn <- _sample_uniform (churn_rate p) ;;
  ret (subscription_streams basic_subs pro_subs enterprise_subs
         basic_price pro_price enterprise_price churn).

Record ApiStreams : Type := {
  api_base : list F;
  api_usage : list F;
  total_api : list F;
  api_calls_arr : list Z
}.

Definition api_streams (base_revenue per_call_revenue : list F)
  (monthly_calls : list Z) : ApiStreams :=
  let usage_revenue := vimul monthly_calls per_call_revenue in
  let total_api := vadd base_revenue usage_revenue in
  {| api_base := base_revenue;
     api_usage := usage_revenue;
     total_api := total_api;
     api_calls_arr := monthly_calls |}.

Definition simulate_api_revenue : M ApiStreams :=
  p <- get_params ;;
  base_revenue <- _sample_uniform (api_monthly_base p) ;;
  per_call_revenue <- _sample_uniform (api_per_call_revenue p) ;;
  monthly_calls <- _sample_integer (monthly_api_calls p) ;;
  ret (api_streams base_revenue per_call_revenue monthly_calls).

Record ProjectStreams : Type := {
  project_count_arr : list Z;
  avg_project_value : list F;
  total_projects : list F
}.

Definition project_streams (num_projects : list Z) (project_values : list F)
  : ProjectStreams :=
  let total_project_revenue := vimul num_projects project_values in
  {| project_count_arr := num_projects;
     avg_project_value := project_values;
     total_projects := total_project_revenue |}.

Definition simulate_project_revenue : M ProjectStreams :=
  p <- get_params ;;
  num_projects <- _sample_integer (projects_per_month p) ;;
  project_values <- _sample_normal_bounded (project_value p) (lit 2 10) ;;
  ret (project_streams num_projects project_values).

Record LicensingStreams : Type := {
  annual_deals : list Z;
  deal_value : list F;
  monthly_licensing : list F
}.

Definition licensing_streams (annual_deals : list Z) (deal_values : list F)
  : LicensingStreams :=
  let monthly_licensing := vdivs (vimul annual_deals deal_values) (of_int 12) in
  {| annual_deals := annual_deals;
     deal_value := deal_values;
     monthly_licensing := monthly_licensing |}.

Definition simulate_licensing_revenue : M LicensingStreams :=
  p <- get_params ;;
  annual_deals <- _sample_integer (annual_licensing_deals p) ;;
  deal_values <- _sample_normal_bounded (licensing_value p) (of_int 0) ;;
  ret (licensing_streams annual_deals deal_values).

Record CostStreams : Type := {
  infrastructure : list F;
  data_acquisition_arr : list F;
  personnel : list F;
  marketing : list F;
  cost_total_costs : list F;
  cost_automation_savings : list F
}.

Definition cost_streams (infrastructure data_acq personnel marketing
  automation : list F) : CostStreams :=
  let infrastructure :=
    vmul infrastructure (vrsub (of_int 1) (vscale automation (lit 5 10))) in
  let data_acq := vmul data_acq (vrsub (of_int 1) (vscale automation (lit 3 10))) in
  let personnel := vmul personnel (vrsub (of_int 1) (vscale automation (lit 2 10))) in
  let total_costs := vadd (vadd (vadd infrastructure data_acq) personnel) marketing in
  {| infrastructure := infrastructure;
     data_acquisition_arr := data_acq;
     personnel := personnel;
     marketing := marketing;
     cost_total_costs := total_costs;
     cost_automation_savings := automation |}.

Definition simulate_costs : M CostStreams :=
  p <- get_params ;;
  infrastructure <- _sample_uniform (infrastructure_monthly p) ;;
  data_acq <- _sample_normal_bounded (data_acquisition p) (of_int 0) ;;
  personnel <- _sample_normal_bounded (personnel_allocation p) (of_int 0) ;;
  marketing <- _sample_uniform (marketing_monthly p) ;;
  automation <- _sample_uniform (automation_savings p) ;;
  ret (cost_streams infrastructure data_acq personnel marketing automation).

(** ** Market adjustment *)

(** The four sport weights, as the literals of [apply_market_factors]. *)
Definition w_baseball : F := lit 35 100.
Definition w_football : F := lit 30 100.
Definition w_basketball : F := lit 25 100.
Definition w_track : F := lit 10 100.

Definition sports_composite (baseball0 football0 basketball0 track0 : list F)
  : list F :=
  let baseball := vscale baseball0 w_baseball in
  let football := vscale football0 w_football in
  let basketball := vscale basketball0 w_basketball in
  let track := vscale track0 w_track in
  vadd (vadd (vadd baseball football) basketball) track.

Definition market_adjust (base_revenue seasonality growth efficiency
  sports_factor : list F) : list F :=
  vmul (vmul (vmul (vmul base_revenue seasonality) growth) efficiency) sports_factor.

Definition apply_market_factors (base_revenue : list F) : M (list F) :=
  p <- get_params ;;
  seasonality <- _sample_uniform (seasonality_factor p) ;;
  growth <- _sample_uniform (market_growth_rate p) ;;
  efficiency <- _sample_uniform (platform_efficiency p) ;;
  baseball0 <- _sample_uniform (baseball_impact p) ;;
  football0 <- _sample_uniform (football_impact p) ;;
  basketball0 <- _sample_uniform (basketball_impact p) ;;
  track0 <- _sample_uniform (track_field_impact p) ;;
  let sports_factor := sports_composite baseball0 football0 basketball0 track0 in
  ret (market_adjust base_revenue seasonality growth efficiency sports_factor).

(** ** Aggregator *)

(** The sum of the four stream totals (pre-adjustment gross revenue). *)
Definition total_revenue_of (subscription : SubscriptionStreams) (api : ApiStreams)
  (projects : ProjectStreams) (licensing : LicensingStreams) : list F :=
  vadd (vadd (vadd (total_subscription subscription) (total_api api))
             (total_projects projects))
       (monthly_licensing licensing).

(** The outcome columns and the [results_data] table. *)
Definition aggregate (subscription : SubscriptionStreams) (api : ApiStreams)
  (projects : ProjectStreams) (licensing : LicensingStreams)
  (total_revenue adjusted_revenue : list F) (costs : CostStreams) : DataFrame :=
  let gross_profit := vsub adjusted_revenue (cost_total_costs costs) in
  let profit_margin := vdiv gross_profit adjusted_revenue in
  let roi := vscale (vdiv gross_profit (cost_total_costs costs)) (of_int 100) in
  let hours_saved := vdivs gross_profit (of_int 55) in
  {| subscription_revenue := total_subscription subscription;
     api_revenue := total_api api;
     project_revenue := total_projects projects;
     licensing_revenue := monthly_licensing licensing;
     total_costs := cost_total_costs costs;
     infrastructure_cost := infrastructure costs;
     data_cost := data_acquisition_arr costs;
     personnel_cost := personnel costs;
     marketing_cost := marketing costs;
     gross_revenue := total_revenue;
     adjusted_revenue := adjusted_revenue;
     gross_profit := gross_profit;
     profit_margin := profit_margin;
     roi_percent := roi;
     monthly_value := gross_profit;
     hours_saved := hours_saved;
     total_subscribers := sub_total_subscribers subscription;
     api_calls := api_calls_arr api;
     project_count := project_count_arr projects;
     automation_savings_col := cost_automation_savings costs |}.

(** [self.results = pd.DataFrame(results_data)] *)
Definition store_results (t : DataFrame) : M DataFrame :=
  fun w => (inr t, set_results w t).

(** [run_simulation]: the console output of the method is not modelled. *)
Definition run_simulation : M DataFrame :=
  subscription <- simulate_subscription_revenue ;;
  api <- simulate_api_revenue ;;
  projects <- simulate_project_revenue ;;
  licensing <- simulate_licensing_revenue ;;
  let total_revenue := total_revenue_of subscription api projects licensing in
  adjusted_revenue <- apply_market_factors total_revenue ;;
  costs <- simulate_costs ;;
  store_results (aggregate subscription api projects licensing total_revenue
                   adjusted_revenue costs).

(** *** The tables a run can produce

    [table_of p N t]: [t] is assembled, as [run_simulation] does, from
    populations of [N] values drawn for the ranges of [p]. *)

Definition subscription_of (p : SimulationParameters) (N : nat)
  (s : SubscriptionStreams) : Prop :=
  exists bs ps es bp pp ep churn,
    integer_sample (basic_subscribers p) N bs /\
    integer_sample (pro_subscribers p) N ps /\
    integer_sample (enterprise_subscribers p) N es /\
    uniform_sample (basic_price p) N bp /\
    uniform_sample (pro_price p) N pp /\
    uniform_sample (enterprise_price p) N ep /\
    uniform_sample (churn_rate p) N churn /\
    s = subscription_streams bs ps es bp pp ep churn.

Definition api_of (p : SimulationParameters) (N : nat) (a : ApiStreams) : Prop :=
  exists base per_call calls,
    uniform_sample (api_monthly_base p) N base /\
    uniform_sample (api_per_call_revenue p) N per_call /\
    integer_sample (monthly_api_calls p) N calls /\
    a = api_streams base per_call calls.

Definition project_of (p : SimulationParameters) (N : nat) (pr : ProjectStreams)
  : Prop :=
  exists num vals,
    integer_sample (projects_per_month p) N num /\
    normal_sample (project_value p) (lit 2 10) N vals /\
    pr = project_streams num vals.

Definition licensing_of (p : SimulationParameters) (N : nat)
  (l : LicensingStreams) : Prop :=
  exists deals vals,
    integer_sample (annual_licensing_deals p) N deals /\
    normal_sample (licensing_value p) (of_int 0) N vals /\
    l = licensing_streams deals vals.

Definition market_of (p : SimulationParameters) (N : nat)
  (base adjusted : list F) : Prop :=
  exists seasonality growth efficiency baseball football basketball track,
    uniform_sample (seasonality_factor p) N seasonality /\
    uniform_sample (market_growth_rate p) N growth /\
    uniform_sample (platform_efficiency p) N efficiency /\
    uniform_sample (baseball_impact p) N baseball /\
    uniform_sample (football_impact p) N football /\
    uniform_sample (basketball_impact p) N basketball /\
    uniform_sample (track_field_impact p) N track /\
    adjusted = market_adjust base seasonality growth efficiency
                 (sports_composite baseball football basketball track).

Definition costs_of (p : SimulationParameters) (N : nat) (c : CostStreams) : Prop :=
  exists infra data pers mkt automation,
    uniform_sample (infrastructure_monthly p) N infra /\
    normal_sample (data_acquisition p) (of_int 0) N data /\
    normal_sample (personnel_allocation p) (of_int 0) N pers /\
    uniform_sample (marketing_monthly p) N mkt /\
    uniform_sample (automation_savings p) N automation /\
    c = cost_streams infra data pers mkt automation.

Definition table_of (p : SimulationParameters) (N : nat) (t : DataFrame) : Prop :=
  exists s a pr l adj c,
    subscription_of p N s /\ api_of p N a /\ project_of p N pr /\
    licensing_of p N l /\ market_of p N (total_revenue_of s a pr l) adj /\
    costs_of p N c /\
    t = aggregate s a pr l (total_revenue_of s a pr l) adj c.

(** The argument checks of each simulator, and of a whole run. *)
Definition subscription_ok (p : SimulationParameters) (n : Z) : bool :=
  randint_ok n (basic_subscribers p) && randint_ok n (pro_subscribers p) &&
  randint_ok n (enterprise_subscribers p) &&
  uniform_ok (basic_price p) && uniform_ok (pro_price p) &&
  uniform_ok (enterprise_price p) && uniform_ok (churn_rate p).
Definition api_ok (p : SimulationParameters) (n : Z) : bool :=
  uniform_ok (api_monthly_base p) && uniform_ok (api_per_call_revenue p) &&
  randint_ok n (monthly_api_calls p).
Definition project_ok (p : SimulationParameters) (n : Z) : bool :=
  randint_ok n (projects_per_month p) && normal_ok (project_value p).
Definition licensing_ok (p : SimulationParameters) (n : Z) : bool :=
  randint_ok n (annual_licensing_deals p) && normal_ok (licensing_value p).
Definition market_ok (p : SimulationParameters) : bool :=
  uniform_ok (seasonality_factor p) && uniform_ok (market_growth_rate p) &&
  uniform_ok (platform_efficiency p) && uniform_ok (baseball_impact p) &&
  uniform_ok (football_impact p) && uniform_ok (basketball_impact p) &&
  uniform_ok (track_field_impact p).
Definition costs_ok (p : SimulationParameters) : bool :=
  uniform_ok (infrastructure_monthly p) && normal_ok (data_acquisition p) &&
  normal_ok (personnel_allocation p) && uniform_ok (marketing_monthly p) &&
  uniform_ok (automation_savings p).
Definition runnable (p : SimulationParameters) (n : Z) : bool :=
  (0 <=? n)%Z && subscription_ok p n && api_ok p n && project_ok p n &&
  licensing_ok p n && market_ok p && costs_ok p.

(** The table has [N] rows: every column holds [N] values. *)
Definition rows (N : nat) (t : DataFrame) : Prop :=
  List.length (subscription_revenue t) = N /\ List.length (api_revenue t) = N /\
  List.length (project_revenue t) = N /\ List.length (licensing_revenue t) = N /\
  List.length (total_costs t) = N /\ List.length (infrastructure_cost t) = N /\
  List.length (data_cost t) = N /\ List.length (personnel_cost t) = N /\
  List.length (marketing_cost t) = N /\ List.length (gross_revenue t) = N /\
  List.length (adjusted_revenue t) = N /\ List.length (gross_profit t) = N /\
  List.length (profit_margin t) = N /\ List.length (roi_percent t) = N /\
  List.length (monthly_value t) = N /\ List.length (hours_saved t) = N /\
  List.length (total_subscribers t) = N /\ List.length (api_calls t) = N /\
  List.length (project_count t) = N /\ List.length (automation_savings_col t) = N.

(** Value of trial [i] in a column. *)
Definition at_ (col : list F) (i : nat) : F := nth i col fnan.

(** ** Summarizer: pandas reductions on one column *)

(** [skipna=True]: a value is missing when it is NaN; infinities are
    ordinary values.  The reductions are those of pandas' [nanops]
    (the optional bottleneck library is not used). *)
Definition notna (x : F) : bool := negb (isnan x).
Definition dropna (l : list F) : list F := filter notna l.
(** [Series.count()] *)
Definition series_count (l : list F) : nat := List.length (dropna l).
(** [np.putmask(values, mask, v)]: every NaN replaced by [v]. *)
Definition fillna (v : F) (l : list F) : list F :=
  map (fun x => if isnan x then v else x) l.

(** *** [ndarray.sum]: NumPy's pairwise summation

    A contiguous array is summed by one call of the [add] loop.
    Fewer than eight values are added up from left to right; the
    accumulator starts from [-0.0], the neutral element of the
    addition, so that the first value is taken as it is.  Up to 128
    values are added into eight accumulators, which are then combined
    as a balanced tree, and the values left over after the last group
    of eight are added one by one.  A longer array is cut in two at
    a multiple of eight, and the sums of the halves are added.  The
    sum of no value is 0. *)
Definition seq_sum (l : list F) : F :=
  match l with
  | [] => of_int 0
  | x :: l' => fold_left fadd l' x
  end.

Fixpoint pairwise_unrolled (r0 r1 r2 r3 r4 r5 r6 r7 : F) (l : list F) : F :=
  match l with
  | a0 :: a1 :: a2 :: a3 :: a4 :: a5 :: a6 :: a7 :: l' =>
      pairwise_unrolled (r0 + a0) (r1 + a1) (r2 + a2) (r3 + a3)
                        (r4 + a4) (r5 + a5) (r6 + a6) (r7 + a7) l'
  | _ =>
      fold_left fadd l (((r0 + r1) + (r2 + r3)) + ((r4 + r5) + (r6 + r7)))
  end.

Definition pairwise_block (l : list F) : F :=
  match l with
  | a0 :: a1 :: a2 :: a3 :: a4 :: a5 :: a6 :: a7 :: l' =>
      pairwise_unrolled a0 a1 a2 a3 a4 a5 a6 a7 l'
  | _ => seq_sum l
  end.

(** [fuel] bounds the depth of the recursion; the length of the array
    is always enough ([pairwise_sum_fuel]). *)
Fixpoint pairwise_sum (fuel : nat) (l : list F) : F :=
  match fuel with
  | O => pairwise_block l
  | S fuel' =>
      let n := List.length l in
      if (128 <? n)%nat then
        let n2 := (n / 2 - (n / 2) mod 8)%nat in
        pairwise_sum fuel' (firstn n2 l) + pairwise_sum fuel' (skipn n2 l)
      else pairwise_block l
  end.

Definition fsum (l : list F) : F := pairwise_sum (List.length l) l.

(** [Series.mean()] ([nanops.nanmean]): the sum of the values, a NaN
    counting as 0, divided by the number of values that are not
    NaN. *)
Definition series_mean (l : list F) : F :=
  match series_count l with
  | O => fnan
  | S _ as count => fsum (fillna (of_int 0) l) / of_int (Z.of_nat count)
  end.

(** [Series.std()] ([nanops.nanstd], [ddof = 1]) *)
Definition series_var (l : list F) : F :=
  let count := series_count l in
  if (count <=? 1)%nat then fnan
  else
    let avg := fsum (fillna (of_int 0) l) / of_int (Z.of_nat count) in
    let sqr := map (fun x => if isnan x then of_int 0
                             else (avg - x) * (avg - x)) l in
    fsum sqr / of_int (Z.of_nat count - 1).
Definition series_std (l : list F) : F := fsqrt (series_var l).

(** Ascending sort of NaN-free values ([np.sort]). *)
Fixpoint insert_asc (x : F) (l : list F) : list F :=
  match l with
  | [] => [x]
  | y :: l' => if x <? y then x :: l else y :: insert_asc x l'
  end.
Definition sort_asc (l : list F) : list F := fold_right insert_asc [] l.

(** [Series.median()] ([np.nanmedian] of the values that are not
    NaN): the mean of the one or two middle values. *)
Definition series_median (l : list F) : F :=
  let v := sort_asc (dropna l) in
  let n := List.length v in
  match n with
  | O => fnan
  | _ => if Nat.even n
         then (nth (n / 2 - 1) v fnan + nth (n / 2) v fnan) / of_int 2
         else nth (n / 2) v fnan
  end.

(** NumPy's linear interpolation between two order statistics. *)
Definition lerp (a b t : F) : F :=
  if lit 5 10 <=? t then b - (b - a) * (of_int 1 - t) else a + (b - a) * t.

(** [Series.quantile(q)] (linear method, through [np.percentile]) *)
Definition series_quantile (q : F) (l : list F) : F :=
  let v := sort_asc (dropna l) in
  let n := List.length v in
  match n with
  | O => fnan
  | S m =>
      let q' := (q * of_int 100) / of_int 100 in
      let virt := of_int (Z.of_nat m) * q' in
      if of_int (Z.of_nat m) <=? virt then
        lerp (nth m v fnan) (nth m v fnan) (virt + of_int 1)
      else if virt <? of_int 0 then
        lerp (nth 0 v fnan) (nth 0 v fnan) virt
      else
        let k := ffloor virt in
        lerp (nth (Z.to_nat k) v fnan) (nth (Z.to_nat k + 1) v fnan)
             (virt - of_int k)
  end.

(** [Series.min()] and [Series.max()]: of two equal values the later
    one is kept (this matters for zeros of different sign only). *)
Definition fmin (a b : F) : F := if a <? b then a else b.
Definition fmax (a b : F) : F := if b <? a then a else b.
Definition series_min (l : list F) : F :=
  match dropna l with
  | [] => fnan
  | x :: v => fold_left fmin v x
  end.
Definition series_max (l : list F) : F :=
  match dropna l with
  | [] => fnan
  | x :: v => fold_left fmax v x
  end.

(** [a.corr(b)]: Pearson correlation over the rows where both are
    present ([nanops.nancorr], [np.corrcoef]): the row means are
    NumPy sums, the three products of the centred rows are BLAS dot
    products. *)
Definition both_valid (a b : list F) : list (F * F) :=
  filter (fun xy => notna (fst xy) && notna (snd xy)) (combine a b).
Definition series_corr (a b : list F) : F :=
  let ab := both_valid a b in
  let xs := map fst ab in
  let ys := map snd ab in
  match List.length ab with
  | O => fnan
  | S m =>
      let n := of_int (Z.of_nat (S m)) in
      let fact := of_int 1 / (if (m =? 0)%nat then of_int 0 else of_int (Z.of_nat m)) in
      let avgx := fsum xs / n in
      let avgy := fsum ys / n in
      let xc := map (fun x => x - avgx) xs in
      let yc := map (fun y => y - avgy) ys in
      let cxx := dot xc xc * fact in
      let cyy := dot yc yc * fact in
      let cxy := dot xc yc * fact in
      np_clip1 (cxy / fsqrt cxx / fsqrt cyy) (fsub (of_int 0) (of_int 1)) (of_int 1)
  end.

(** ** Summarizer: the two reports *)

(** [name.replace('_', ' ').title()] on ASCII names. *)
Definition is_lower (c : ascii) : bool :=
  ((97 <=? nat_of_ascii c) && (nat_of_ascii c <=? 122))%nat.
Definition is_upper (c : ascii) : bool :=
  ((65 <=? nat_of_ascii c) && (nat_of_ascii c <=? 90))%nat.
Definition to_upper (c : ascii) : ascii :=
  if is_lower c then ascii_of_nat (nat_of_ascii c - 32) else c.
Definition to_lower (c : ascii) : ascii :=
  if is_upper c then ascii_of_nat (nat_of_ascii c + 32) else c.
Fixpoint replace_underscore (s : string) : string :=
  match s with
  | EmptyString => EmptyString
  | String c s' =>
      String (if Ascii.eqb c "_" then " "%char else c) (replace_underscore s')
  end.
Fixpoint title_from (prev_cased : bool) (s : string) : string :=
  match s with
  | EmptyString => EmptyString
  | String c s' =>
      let cased := is_lower c || is_upper c in
      String (if prev_cased then to_lower c else to_upper c) (title_from cased s')
  end.
Definition title (s : string) : string := title_from false s.
Definition display_name (s : string) : string := title (replace_underscore s).

Record MetricStats : Type := {
  Metric : string;
  Mean : F;
  Median : F;
  Std_Dev : F;
  pct5 : F;
  pct25 : F;
  pct75 : F;
  pct95 : F;
  Min : F;
  Max : F
}.

(** One row of the statistics frame. *)
Definition metric_stats (metric : string) (col : list F) : MetricStats :=
  {| Metric := display_name metric;
     Mean := series_mean col;
     Median := series_median col;
     Std_Dev := series_std col;
     pct5 := series_quantile (lit 5 100) col;
     pct25 := series_quantile (lit 25 100) col;
     pct75 := series_quantile (lit 75 100) col;
     pct95 := series_quantile (lit 95 100) col;
     Min := series_min col;
     Max := series_max col |}.

Definition key_metrics : list (string * (DataFrame -> list F)) :=
  [ ("monthly_value"%string, monthly_value);
    ("adjusted_revenue"%string, adjusted_revenue);
    ("gross_profit"%string, gross_profit);
    ("roi_percent"%string, roi_percent);
    ("hours_saved"%string, hours_saved);
    ("total_subscribers"%string, total_subscribers) ].

Definition generate_statistics : M (list MetricStats) :=
  res <- get_results ;;
  match res with
  | None => raise (ValueError "Must run simulation first")
  | Some df =>
      ret (map (fun m => metric_stats (fst m) (snd m df)) key_metrics)
  end.

Record SensitivityRow : Type := {
  Factor : string;
  Correlation : F;
  Impact_Score : F;
  Relative_Importance : string
}.

Definition factors : list (string * (DataFrame -> list F)) :=
  [ ("subscription_revenue"%string, subscription_revenue);
    ("api_revenue"%string, api_revenue);
    ("project_revenue"%string, project_revenue);
    ("licensing_revenue"%string, licensing_revenue);
    ("total_costs"%string, total_costs);
    ("automation_savings"%string, automation_savings_col) ].

(** The impact score of one column against the primary outcome. *)
Definition impact_score (outcome col : list F) : F :=
  (series_std col / series_mean col) * fabs (series_corr outcome col).

Definition sensitivity_row (df : DataFrame) (factor : string) (col : list F)
  : SensitivityRow :=
  let correlation := series_corr (monthly_value df) col in
  let impact := (series_std col / series_mean col) * fabs correlation in
  {| Factor := display_name factor;
     Correlation := correlation;
     Impact_Score := impact;
     Relative_Importance :=
       if lit 3 10 <? fabs correlation then "High"%string
       else if lit 1 10 <? fabs correlation then "Medium"%string
       else "Low"%string |}.

(** [sort_values(key, ascending=False)]: rows whose key is NaN go
    last, the others are put in descending order of the key.  Pandas'
    default sort does not fix the order of rows with equal keys; here
    they keep their order. *)
Fixpoint insert_desc {A} (key : A -> F) (x : A) (l : list A) : list A :=
  match l with
  | [] => [x]
  | y :: l' => if key y <=? key x then x :: l else y :: insert_desc key x l'
  end.
Definition sort_values_desc {A} (key : A -> F) (rows : list A) : list A :=
  fold_right (insert_desc key) [] (filter (fun r => notna (key r)) rows)
  ++ filter (fun r => isnan (key r)) rows.

Definition sensitivity_analysis : M (list SensitivityRow) :=
  res <- get_results ;;
  match res with
  | None => raise (ValueError "Must run simulation first")
  | Some df =>
      let sensitivity_data :=
        map (fun f => sensitivity_row df (fst f) (snd f df)) factors in
      ret (sort_values_desc Impact_Score sensitivity_data)
  end.

End Engine.

(** ** Reporting

    [generate_report], [_generate_text_report] and [main].  Console
    output and the formatting of numbers into text are not modelled;
    what [generate_report] does once both summaries are built
    (writing three CSV files, drawing the plots, writing the text
    report) is the action [write_outputs], a parameter. *)

Section Reporting.
Context {F : Type} {NF : Num F} {G : Generator F} {BL : Blas F}.
Local Open Scope num_scope.

Notation "x <- m ;; k" := (bind m (fun x => k))
  (at level 61, m at next level, right associativity).

(** The statistics and the ranking of a given table. *)
Definition statistics_of (df : DataFrame (F := F)) : list MetricStats :=
  map (fun m => metric_stats (fst m) (snd m df)) key_metrics.
Definition ranking_of (df : DataFrame (F := F)) : list SensitivityRow :=
  sort_values_desc Impact_Score
    (map (fun f => sensitivity_row df (fst f) (snd f df)) factors).

Definition generate_report {A}
  (write_outputs : list (MetricStats (F := F)) -> list (SensitivityRow (F := F)) -> M A)
  : M A :=
  res <- get_results ;;
  _ <- (match res with
        | None => t <- run_simulation ;; ret tt
        | Some _ => ret tt
        end) ;;
  stats <- generate_statistics ;;
  sensitivity <- sensitivity_analysis ;;
  write_outputs stats sensitivity.

(** [stats[stats['Metric'] == name].iloc[0]]: the first row with this
    name.  [None] stands for the [IndexError] pandas raises when no
    row has it. *)
Definition lookup_metric (name : string) (stats : list (MetricStats (F := F)))
  : option (MetricStats (F := F)) :=
  find (fun r => String.eqb (Metric r) name) stats.

(** [(self.results[col] > threshold).mean() * 100]: the share of
    trials above a threshold, in percent (a comparison with NaN is
    false; the mean of an empty column is NaN). *)
Definition exceed_count (threshold : F) (col : list F) : nat :=
  List.length (filter (fun x => threshold <? x) col).
Definition probability_above (threshold : F) (col : list F) : F :=
  match col with
  | [] => fnan
  | _ => of_int (Z.of_nat (exceed_count threshold col))
         / of_int (Z.of_nat (List.length col)) * of_int 100
  end.

(** The figures [_generate_text_report] puts into the report text. *)
Record ReportFigures : Type := {
  expected_monthly_value : F;
  median_monthly_value : F;
  range_low : F;
  range_high : F;
  expected_roi : F;
  median_roi : F;
  mean_subscription_revenue : F;
  mean_api_revenue : F;
  mean_project_revenue : F;
  mean_licensing_revenue : F;
  mean_gross_revenue : F;
  mean_adjusted_revenue : F;
  mean_infrastructure_cost : F;
  mean_data_cost : F;
  mean_personnel_cost : F;
  mean_marketing_cost : F;
  mean_total_costs : F;
  automation_percent : F;
  mean_gross_profit : F;
  profit_margin_percent : F;
  mean_hours_saved : F;
  probability_above_5000 : F;
  probability_above_10000 : F;
  probability_above_15000 : F;
  probability_above_20000 : F;
  top_quartile : F
}.

Definition _generate_text_report (df : DataFrame (F := F))
  (stats : list (MetricStats (F := F))) : option ReportFigures :=
  match lookup_metric "Monthly Value" stats, lookup_metric "Roi Percent" stats with
  | Some monthly_value_stats, Some roi_stats =>
      Some {|
        expected_monthly_value := Mean monthly_value_stats;
        median_monthly_value := Median monthly_value_stats;
        range_low := pct5 monthly_value_stats;
        range_high := pct95 monthly_value_stats;
        expected_roi := Mean roi_stats;
        median_roi := Median roi_stats;
        mean_subscription_revenue := series_mean (subscription_revenue df);
        mean_api_revenue := series_mean (api_revenue df);
        mean_project_revenue := series_mean (project_revenue df);
        mean_licensing_revenue := series_mean (licensing_revenue df);
        mean_gross_revenue := series_mean (gross_revenue df);
        mean_adjusted_revenue := series_mean (adjusted_revenue df);
        mean_infrastructure_cost := series_mean (infrastructure_cost df);
        mean_data_cost := series_mean (data_cost df);
        mean_personnel_cost := series_mean (personnel_cost df);
        mean_marketing_cost := series_mean (marketing_cost df);
        mean_total_costs := series_mean (total_costs df);
        automation_percent := series_mean (automation_savings_col df) * of_int 100;
        mean_gross_profit := series_mean (gross_profit df);
        profit_margin_percent := series_mean (profit_margin df) * of_int 100;
        mean_hours_saved := series_mean (hours_saved df);
        probability_above_5000 := probability_above (of_int 5000) (monthly_value df);
        probability_above_10000 := probability_above (of_int 10000) (monthly_value df);
        probability_above_15000 := probability_above (of_int 15000) (monthly_value df);
        probability_above_20000 := probability_above (of_int 20000) (monthly_value df);
        top_quartile := pct75 monthly_value_stats
      |}
  | _, _ => None
  end.

(** [main]: a new engine on the default parameters and 10000 trials,
    one run, the report, then the two summaries once more for the
    console. *)
Definition main {A}
  (write_outputs : list (MetricStats (F := F)) -> list (SensitivityRow (F := F)) -> M A)
  : M (DataFrame (F := F) * list (MetricStats (F := F))) :=
  fun w =>
    (results <- run_simulation ;;
     _ <- generate_report write_outputs ;;
     stats <- generate_statistics ;;
     sensitivity <- sensitivity_analysis ;;
     ret (results, stats))
    {| np_random := np_random w; self := __init__ default_parameters 10000 |}.

End Reporting.

(** ** A concrete generator

    A counter that replays fixed tables of variates: enough to run
    the engine on concrete inputs.  Uniform variates are multiples of
    1/8 in [0,1), normal variates are in {-1, -1/2, 0, 1/2, 1}. *)
#[export] Instance counter_generator {F} `{Num F} : Generator F := {
  rng := nat;
  seed := fun s => Z.to_nat (Z.abs s);
  next_double := fun k => (lit (Z.of_nat (k mod 8)) 8, S k);
  next_gauss := fun k => (lit (Z.of_nat (k mod 5) - 2) 2, S k);
  next_interval := fun mx k => ((Z.of_nat k) mod (mx + 1), S k)%Z
}.

(** A concrete BLAS for the examples: the products are added from
    left to right. *)
#[export] Instance sequential_blas {F} `{Num F} : Blas F := {
  dot := fun a b => fold_left fadd (vmap2 fmul a b) (of_int 0)
}.

(** ** Concrete runs

    The default parameter set, three trials, binary64 arithmetic and
    the counter generator seeded with 42. *)
Definition demo_world : World (F := float) :=
  {| np_random := seed 42; self := __init__ default_parameters 3 |}.

Definition empty_frame {F} : DataFrame (F := F) :=
  {| subscription_revenue := []; api_revenue := []; project_revenue := [];
     licensing_revenue := []; total_costs := []; infrastructure_cost := [];
     data_cost := []; personnel_cost := []; marketing_cost := [];
     gross_revenue := []; adjusted_revenue := []; gross_profit := [];
     profit_margin := []; roi_percent := []; monthly_value := [];
     hours_saved := []; total_subscribers := []; api_calls := [];
     project_count := []; automation_savings_col := [] |}.

(** *** Determinism vocabulary

    Two process states agree on everything a run reads: the
    generator state, the parameter set and the trial count.  (They
    may differ in [self.results].) *)
Definition same_inputs {F} `{Num F} `{Generator F} (w1 w2 : World) : Prop :=
  np_random w1 = np_random w2 /\
  params (self w1) = params (self w2) /\
  n_simulations (self w1) = n_simulations (self w2).

Definition deterministic {F} `{Num F} `{Generator F} {A} (m : M A) : Prop :=
  forall w1 w2, same_inputs w1 w2 ->
    fst (m w1) = fst (m w2) /\ same_inputs (snd (m w1)) (snd (m w2)).

(** A second engine on the same parameters that has already run once
    and whose generator has been used. *)
Definition used_world : World (F := float) :=
  Build_World (F := float) (G := counter_generator) 7%nat
    {| params := default_parameters; n_simulations := 3;
       results := Some empty_frame |}.

(** The table a world's run returns (the empty frame if it raises). *)
Definition table_from {F} `{Num F} `{Generator F} (w : World) : DataFrame :=
  match fst (run_simulation w) with
  | inr t => t
  | inl _ => empty_frame
  end.

Definition demo_table : DataFrame (F := float) :=
  Eval vm_compute in table_from demo_world.

(** The parameter set with all four cost ranges replaced by [r]. *)
Definition with_cost_ranges {F} `{Num F} (r : F * F) (p : SimulationParameters)
  : SimulationParameters :=
  {| basic_price := basic_price p; pro_price := pro_price p;
     enterprise_price := enterprise_price p;
     basic_subscribers := basic_subscribers p;
     pro_subscribers := pro_subscribers p;
     enterprise_subscribers := enterprise_subscribers p;
     api_monthly_base := api_monthly_base p;
     api_per_call_revenue := api_per_call_revenue p;
     monthly_api_calls := monthly_api_calls p;
     projects_per_month := projects_per_month p;
     project_value := project_value p;
     annual_licensing_deals := annual_licensing_deals p;
     licensing_value := licensing_value p;
     infrastructure_monthly := r;
     data_acquisition := r;
     personnel_allocation := r;
     marketing_monthly := r;
     seasonality_factor := seasonality_factor p;
     market_growth_rate := market_growth_rate p;
     churn_rate := churn_rate p;
     automation_savings := automation_savings p;
     platform_efficiency := platform_efficiency p;
     baseball_impact := baseball_impact p;
     football_impact := football_impact p;
     basketball_impact := basketball_impact p;
     track_field_impact := track_field_impact p |}.

(** All four cost ranges set to (0, 0). *)
Definition zero_cost_world : World (F := float) :=
  Build_World (F := float) (G := counter_generator) (seed 42)
    (__init__ (with_cost_ranges (of_int 0, of_int 0) default_parameters) 3).

Definition zero_cost_table : DataFrame (F := float) :=
  Eval vm_compute in table_from zero_cost_world.

(** The summary the spec describes: statistics over the finite values
    of a column only, with the number of values left out. *)
Definition finite_values {F} `{Num F} (col : list F) : list F := filter isfinite col.
Definition exclusion_count {F} `{Num F} (col : list F) : nat :=
  (List.length col - List.length (finite_values col))%nat.

(** The parameter set with the basic-price range replaced by [r]. *)
Definition with_basic_price {F} `{Num F} (r : F * F) (p : SimulationParameters)
  : SimulationParameters :=
  {| basic_price := r; pro_price := pro_price p;
     enterprise_price := enterprise_price p;
     basic_subscribers := basic_subscribers p;
     pro_subscribers := pro_subscribers p;
     enterprise_subscribers := enterprise_subscribers p;
     api_monthly_base := api_monthly_base p;
     api_per_call_revenue := api_per_call_revenue p;
     monthly_api_calls := monthly_api_calls p;
     projects_per_month := projects_per_month p;
     project_value := project_value p;
     annual_licensing_deals := annual_licensing_deals p;
     licensing_value := licensing_value p;
     infrastructure_monthly := infrastructure_monthly p;
     data_acquisition := data_acquisition p;
     personnel_allocation := personnel_allocation p;
     marketing_monthly := marketing_monthly p;
     seasonality_factor := seasonality_factor p;
     market_growth_rate := market_growth_rate p;
     churn_rate := churn_rate p;
     automation_savings := automation_savings p;
     platform_efficiency := platform_efficiency p;
     baseball_impact := baseball_impact p;
     football_impact := football_impact p;
     basketball_impact := basketball_impact p;
     track_field_impact := track_field_impact p |}.

(** A reversed range, [low > high], for a uniformly sampled factor. *)
Definition reversed_price_world : World (F := float) :=
  Build_World (F := float) (G := counter_generator) (seed 42)
    (__init__ (with_basic_price (of_int 49, of_int 29) default_parameters) 3).

(** [low <= high] for every range of the parameter set. *)
Definition frange_ok {F} `{Num F} (r : F * F) : bool := fleb (fst r) (snd r).
Definition zrange_ok (r : Z * Z) : bool := (fst r <=? snd r)%Z.
Definition ranges_consistent {F} `{Num F} (p : SimulationParameters) : bool :=
  frange_ok (basic_price p) && frange_ok (pro_price p) &&
  frange_ok (enterprise_price p) && zrange_ok (basic_subscribers p) &&
  zrange_ok (pro_subscribers p) && zrange_ok (enterprise_subscribers p) &&
  frange_ok (api_monthly_base p) && frange_ok (api_per_call_revenue p) &&
  zrange_ok (monthly_api_calls p) && zrange_ok (projects_per_month p) &&
  frange_ok (project_value p) && zrange_ok (annual_licensing_deals p) &&
  frange_ok (licensing_value p) && frange_ok (infrastructure_monthly p) &&
  frange_ok (data_acquisition p) && frange_ok (personnel_allocation p) &&
  frange_ok (marketing_monthly p) && frange_ok (seasonality_factor p) &&
  frange_ok (market_growth_rate p) && frange_ok (churn_rate p) &&
  frange_ok (automation_savings p) && frange_ok (platform_efficiency p) &&
  frange_ok (baseball_impact p) && frange_ok (football_impact p) &&
  frange_ok (basketball_impact p) && frange_ok (track_field_impact p).

(** The parameter set with the basic-subscriber range replaced. *)
Definition with_basic_subscribers {F} `{Num F} (r : Z * Z)
  (p : SimulationParameters (F := F)) : SimulationParameters (F := F) :=
  {| basic_price := basic_price p; pro_price := pro_price p;
     enterprise_price := enterprise_price p;
     basic_subscribers := r;
     pro_subscribers := pro_subscribers p;
     enterprise_subscribers := enterprise_subscribers p;
     api_monthly_base := api_monthly_base p;
     api_per_call_revenue := api_per_call_revenue p;
     monthly_api_calls := monthly_api_calls p;
     projects_per_month := projects_per_month p;
     project_value := project_value p;
     annual_licensing_deals := annual_licensing_deals p;
     licensing_value := licensing_value p;
     infrastructure_monthly := infrastructure_monthly p;
     data_acquisition := data_acquisition p;
     personnel_allocation := personnel_allocation p;
     marketing_monthly := marketing_monthly p;
     seasonality_factor := seasonality_factor p;
     market_growth_rate := market_growth_rate p;
     churn_rate := churn_rate p;
     automation_savings := automation_savings p;
     platform_efficiency := platform_efficiency p;
     baseball_impact := baseball_impact p;
     football_impact := football_impact p;
     basketball_impact := basketball_impact p;
     track_field_impact := track_field_impact p |}.

(** A reversed range for an integer-sampled factor, and a negative
    trial count. *)
Definition reversed_subscribers_world : World (F := float) :=
  Build_World (F := float) (G := counter_generator) (seed 42)
    (__init__ (with_basic_subscribers (300, 50)%Z default_parameters) 3).
Definition negative_count_world : World (F := float) :=
  Build_World (F := float) (G := counter_generator) (seed 42)
    (__init__ default_parameters (-1)).

(** *** The generator's contract

    What NumPy documents of the raw variates: a bounded integer lies
    in [0, max]; a uniform variate lies in [0, 1). *)
Definition interval_ok {F} `{Generator F} : Prop :=
  forall mx g, (0 <= mx)%Z -> (0 <= fst (next_interval mx g) <= mx)%Z.
Definition unit_ok `{Generator R} : Prop :=
  forall g, (0 <= fst (next_double g) < 1)%R.

(** A world over the real numbers, for the real-number reading. *)
Definition real_world : World (F := R) :=
  Build_World (F := R) (G := counter_generator) (seed 42)
    (__init__ default_parameters 3).

(** The subscription streams of the demo world. *)
Definition empty_subscription {F} : SubscriptionStreams (F := F) :=
  {| basic := []; pro := []; enterprise := []; total_subscription := [];
     sub_total_subscribers := [] |}.
Definition subscription_from {F} `{Num F} `{Generator F} (w : World)
  : SubscriptionStreams :=
  match fst (simulate_subscription_revenue w) with
  | inr s => s
  | inl _ => empty_subscription
  end.
Definition demo_subscription : SubscriptionStreams (F := float) :=
  Eval vm_compute in subscription_from demo_world.

(** [rows] are in descending order of [key], the rows whose key is
    NaN coming last. *)
Definition descending_nan_last {A} (key : A -> float) (rows : list A) : Prop :=
  exists sorted nans,
    rows = sorted ++ nans /\
    Forall (fun r => isnan (key r) = false) sorted /\
    StronglySorted (fun a b => fleb (key b) (key a) = true) sorted /\
    Forall (fun r => isnan (key r) = true) nans.

(** The demo world after its run. *)
Definition ran_world : World (F := float) :=
  set_results (set_rng demo_world 120%nat) demo_table.

(** *** binary64 vocabulary *)

(** [x] is a zero (of either sign) or NaN. *)
Definition zero_or_nan (x : float) : Prop :=
  match Prim2SF x with
  | S754_zero _ | S754_nan => True
  | _ => False
  end.

(** [x] is an infinity or NaN. *)
Definition non_finite (x : float) : Prop :=
  match Prim2SF x with
  | S754_infinity _ | S754_nan => True
  | _ => False
  end.

(** Every value of a column is NaN. *)
Definition all_nan (l : list float) : Prop := Forall (fun x => x = nan) l.

(** Every variate the generator hands out is a finite number (as
    NumPy's are). *)
Definition finite_variates {G : Generator float} : Prop :=
  forall g : @rng float G,
    isfinite (fst (@next_double float G g)) = true /\
    isfinite (fst (@next_gauss float G g)) = true.

(** The three factors by which [simulate_costs] reduces the costs of a
    trial whose automation savings are [a] are finite numbers. *)
Definition automation_factors_finite (a : float) : bool :=
  isfinite (of_int 1 - a * lit 5 10)%num &&
  isfinite (of_int 1 - a * lit 3 10)%num &&
  isfinite (of_int 1 - a * lit 2 10)%num.

(** All four cost ranges are (0, 0). *)
Definition zero_cost_ranges (p : SimulationParameters (F := float)) : Prop :=
  infrastructure_monthly p = (of_int 0, of_int 0) /\
  data_acquisition p = (of_int 0, of_int 0) /\
  personnel_allocation p = (of_int 0, of_int 0) /\
  marketing_monthly p = (of_int 0, of_int 0).

(** The default parameter set with one range replaced. *)
Definition with_project_value {F} `{Num F} (r : F * F) (p : SimulationParameters)
  : SimulationParameters :=
  {| basic_price := basic_price p; pro_price := pro_price p;
     enterprise_price := enterprise_price p;
     basic_subscribers := basic_subscribers p;
     pro_subscribers := pro_subscribers p;
     enterprise_subscribers := enterprise_subscribers p;
     api_monthly_base := api_monthly_base p;
     api_per_call_revenue := api_per_call_revenue p;
     monthly_api_calls := monthly_api_calls p;
     projects_per_month := projects_per_month p;
     project_value := r;
     annual_licensing_deals := annual_licensing_deals p;
     licensing_value := licensing_value p;
     infrastructure_monthly := infrastructure_monthly p;
     data_acquisition := data_acquisition p;
     personnel_allocation := personnel_allocation p;
     marketing_monthly := marketing_monthly p;
     seasonality_factor := seasonality_factor p;
     market_growth_rate := market_growth_rate p;
     churn_rate := churn_rate p;
     automation_savings := automation_savings p;
     platform_efficiency := platform_efficiency p;
     baseball_impact := baseball_impact p;
     football_impact := football_impact p;
     basketball_impact := basketball_impact p;
     track_field_impact := track_field_impact p |}.

(** Project value fixed at 5000: a degenerate range, [low = high]. *)
Definition degenerate_world : World (F := float) :=
  Build_World (F := float) (G := counter_generator) (seed 42)
    (__init__ (with_project_value (of_int 5000, of_int 5000) default_parameters) 3).

(** * Properties *)

(** ** Arrays *)

Lemma draws_length {A St} (next : St -> A * St) n :
  forall g, List.length (fst (draws next n g)) = n.
Proof.
  induction n as [|k IH]; intros g; simpl; [reflexivity|].
  destruct (next g) as [x g1]. specialize (IH g1).
  destruct (draws next k g1) as [xs g2]. simpl in *. now rewrite IH.
Qed.

Lemma draws_Forall {A St} (next : St -> A * St) (P : A -> Prop) :
  (forall g, P (fst (next g))) ->
  forall n g, Forall P (fst (draws next n g)).
Proof.
  intros HP. induction n as [|k IH]; intros g; simpl; [constructor|].
  specialize (HP g). destruct (next g) as [x g1]. specialize (IH g1).
  destruct (draws next k g1) as [xs g2]. simpl in *. now constructor.
Qed.

Lemma vmap2_length {A B C} (f : A -> B -> C) xs :
  forall ys, List.length xs = List.length ys ->
  List.length (vmap2 f xs ys) = List.length xs.
Proof.
  induction xs as [|x xs IH]; intros [|y ys] H; simpl in *; try discriminate; auto.
Qed.

Lemma nth_vmap2 {A B C} (f : A -> B -> C) dx dy d xs :
  forall ys i, (i < List.length xs)%nat -> (i < List.length ys)%nat ->
  nth i (vmap2 f xs ys) d = f (nth i xs dx) (nth i ys dy).
Proof.
  induction xs as [|x xs IH]; intros [|y ys] [|i] Hx Hy; simpl in *; try lia; auto.
  apply IH; lia.
Qed.

Lemma nth_map' {A B} (f : A -> B) dx d l i :
  (i < List.length l)%nat -> nth i (map f l) d = f (nth i l dx).
Proof.
  intros H. rewrite (nth_indep _ d (f dx)) by now rewrite length_map.
  apply map_nth.
Qed.


(** ** Methods: inversion and success *)

Section MethodFacts.
Context {F : Type} {NF : Num F} {G : Generator F}.

(** A method's result, read off its two components (the value and
    the final state are evaluated apart). *)
Lemma method_returns {A} (m : M A) w x :
  fst (m w) = inr x -> m w = (inr x, snd (m w)).
Proof. destruct (m w) as [r w1]. simpl. now intros ->. Qed.

Lemma method_result {A} (m : M A) w x g me :
  fst (m w) = inr x -> np_random (snd (m w)) = g -> self (snd (m w)) = me ->
  m w = (inr x, {| np_random := g; self := me |}).
Proof.
  destruct (m w) as [r [g1 me1]]. simpl. now intros -> -> ->.
Qed.

Lemma bind_inr {A B} (m : M A) (k : A -> M B) w b w' :
  bind m k w = (inr b, w') ->
  exists a w1, m w = (inr a, w1) /\ k a w1 = (inr b, w').
Proof.
  unfold bind. destruct (m w) as [[e|a] w1]; intros H; [discriminate|eauto].
Qed.

Lemma draw_inr {A} (next : rng -> A * rng) n w xs w' :
  draw next n w = (inr xs, w') ->
  xs = fst (draws next n (np_random w)) /\ self w' = self w.
Proof.
  unfold draw. destruct (draws next n (np_random w)) as [ys g].
  intros H. inversion H; subst. auto.
Qed.

Lemma check_size_inr {A} n (k : nat -> M A) w x w' :
  check_size n k w = (inr x, w') ->
  (0 <= n)%Z /\ k (Z.to_nat n) w = (inr x, w').
Proof.
  unfold check_size. destruct (Z.ltb_spec n 0); [discriminate|auto].
Qed.

Lemma _sample_uniform_inr r w xs w' :
  _sample_uniform r w = (inr xs, w') ->
  uniform_ok r = true /\ (0 <= n_simulations (self w))%Z /\
  uniform_sample r (Z.to_nat (n_simulations (self w))) xs /\ self w' = self w.
Proof.
  unfold _sample_uniform, get_n, bind at 1, np_random_uniform, uniform_ok.
  destruct (isfinite (fsub (snd r) (fst r))); simpl negb; cbv iota; [|discriminate].
  intros H. apply check_size_inr in H as [Hn H].
  apply bind_inr in H as (us & w1 & Hd & H).
  apply draw_inr in Hd as [-> Hs]. inversion H; subst.
  repeat split; auto. now exists (np_random w).
Qed.

Lemma _sample_normal_bounded_inr r skew w xs w' :
  _sample_normal_bounded r skew w = (inr xs, w') ->
  normal_ok r = true /\ (0 <= n_simulations (self w))%Z /\
  normal_sample r skew (Z.to_nat (n_simulations (self w))) xs /\ self w' = self w.
Proof.
  unfold _sample_normal_bounded, get_n, bind at 1, normal_ok.
  intros H. apply bind_inr in H as (zs & w1 & Hd & H).
  unfold np_random_normal in Hd.
  destruct (negb (isnan _) && signbit _); [discriminate|].
  apply check_size_inr in Hd as [Hn Hd].
  apply bind_inr in Hd as (us & w2 & Hd & H2).
  apply draw_inr in Hd as [-> Hs]. inversion H2; subst. inversion H; subst.
  repeat split; auto. now exists (np_random w).
Qed.

Lemma _sample_integer_inr r w ks w' :
  _sample_integer r w = (inr ks, w') ->
  randint_ok (n_simulations (self w)) r = true /\
  (0 <= n_simulations (self w))%Z /\
  integer_sample r (Z.to_nat (n_simulations (self w))) ks /\ self w' = self w.
Proof.
  unfold _sample_integer, get_n, bind at 1, np_random_randint, randint_ok, integer_ok.
  replace (snd r + 1 - 1)%Z with (snd r) by lia.
  destruct (Z.eqb_spec (n_simulations (self w)) 0) as [E0|E0].
  { rewrite E0. intros H. inversion H; subst.
    repeat split; auto; [lia|]. now exists (np_random w'). }
  destruct (Z.ltb_spec (fst r) int64_min) as [?|H1]; [discriminate|].
  destruct (Z.ltb_spec int64_max (snd r)) as [?|H2]; [discriminate|].
  destruct (Z.ltb_spec (snd r) (fst r)) as [?|H3]; [discriminate|].
  intros H. apply check_size_inr in H as [Hn H].
  apply bind_inr in H as (us & w1 & Hd & H).
  apply draw_inr in Hd as [-> Hs]. inversion H; subst.
  repeat split; auto.
  - apply andb_true_intro; split; [apply andb_true_intro; split|]; apply Z.leb_le; lia.
  - now exists (np_random w).
Qed.

Lemma get_params_inr w p w' :
  get_params w = (inr p, w') -> p = params (self w) /\ w' = w.
Proof. unfold get_params. intros H. inversion H. auto. Qed.

Ltac step H :=
  let a := fresh "a" in let w1 := fresh "w" in let Ha := fresh "Ha" in
  apply bind_inr in H; destruct H as (a & w1 & Ha & H);
  first
    [ apply get_params_inr in Ha; destruct Ha as [-> ->]
    | apply _sample_uniform_inr in Ha;
      let Ho := fresh "Ho" in let Hn := fresh "Hn" in
      let Hx := fresh "Hx" in let Hs := fresh "Hs" in
      destruct Ha as (Ho & Hn & Hx & Hs)
    | apply _sample_integer_inr in Ha;
      let Ho := fresh "Ho" in let Hn := fresh "Hn" in
      let Hx := fresh "Hx" in let Hs := fresh "Hs" in
      destruct Ha as (Ho & Hn & Hx & Hs)
    | apply _sample_normal_bounded_inr in Ha;
      let Ho := fresh "Ho" in let Hn := fresh "Hn" in
      let Hx := fresh "Hx" in let Hs := fresh "Hs" in
      destruct Ha as (Ho & Hn & Hx & Hs)
    | idtac ].

Ltac selfs :=
  repeat match goal with
  | Hs : self ?w1 = self ?w |- _ => rewrite Hs in *; clear Hs
  end.

Ltac oks :=
  repeat match goal with
  | H : ?b = true |- context [?b] => rewrite H
  end; reflexivity.

Lemma simulate_subscription_revenue_inr w s w' :
  simulate_subscription_revenue w = (inr s, w') ->
  (0 <= n_simulations (self w))%Z /\
  subscription_ok (params (self w)) (n_simulations (self w)) = true /\
  subscription_of (params (self w)) (Z.to_nat (n_simulations (self w))) s /\
  self w' = self w.
Proof.
  unfold simulate_subscription_revenue. intros H.
  do 8 step H. inversion H; subst. selfs.
  repeat split; auto.
  - unfold subscription_ok. oks.
  - unfold subscription_of. do 7 eexists. repeat split; eauto.
Qed.

Lemma simulate_api_revenue_inr w s w' :
  simulate_api_revenue w = (inr s, w') ->
  (0 <= n_simulations (self w))%Z /\
  api_ok (params (self w)) (n_simulations (self w)) = true /\
  api_of (params (self w)) (Z.to_nat (n_simulations (self w))) s /\
  self w' = self w.
Proof.
  unfold simulate_api_revenue. intros H.
  do 4 step H. inversion H; subst. selfs.
  repeat split; auto.
  - unfold api_ok. oks.
  - unfold api_of. do 3 eexists. repeat split; eauto.
Qed.

Lemma simulate_project_revenue_inr w s w' :
  simulate_project_revenue w = (inr s, w') ->
  (0 <= n_simulations (self w))%Z /\
  project_ok (params (self w)) (n_simulations (self w)) = true /\
  project_of (params (self w)) (Z.to_nat (n_simulations (self w))) s /\
  self w' = self w.
Proof.
  unfold simulate_project_revenue. intros H.
  do 3 step H. inversion H; subst. selfs.
  repeat split; auto.
  - unfold project_ok. oks.
  - unfold project_of. do 2 eexists. repeat split; eauto.
Qed.

Lemma simulate_licensing_revenue_inr w s w' :
  simulate_licensing_revenue w = (inr s, w') ->
  (0 <= n_simulations (self w))%Z /\
  licensing_ok (params (self w)) (n_simulations (self w)) = true /\
  licensing_of (params (self w)) (Z.to_nat (n_simulations (self w))) s /\
  self w' = self w.
Proof.
  unfold simulate_licensing_revenue. intros H.
  do 3 step H. inversion H; subst. selfs.
  repeat split; auto.
  - unfold licensing_ok. oks.
  - unfold licensing_of. do 2 eexists. repeat split; eauto.
Qed.

Lemma apply_market_factors_inr base w adj w' :
  apply_market_factors base w = (inr adj, w') ->
  (0 <= n_simulations (self w))%Z /\ market_ok (params (self w)) = true /\
  market_of (params (self w)) (Z.to_nat (n_simulations (self w))) base adj /\
  self w' = self w.
Proof.
  unfold apply_market_factors. intros H.
  do 8 step H. inversion H; subst. selfs.
  repeat split; auto.
  - unfold market_ok. oks.
  - unfold market_of. do 7 eexists. repeat split; eauto.
Qed.

Lemma simulate_costs_inr w s w' :
  simulate_costs w = (inr s, w') ->
  (0 <= n_simulations (self w))%Z /\ costs_ok (params (self w)) = true /\
  costs_of (params (self w)) (Z.to_nat (n_simulations (self w))) s /\
  self w' = self w.
Proof.
  unfold simulate_costs. intros H.
  do 6 step H. inversion H; subst. selfs.
  repeat split; auto.
  - unfold costs_ok. oks.
  - unfold costs_of. do 5 eexists. repeat split; eauto.
Qed.

(** A run that returns a table passed every argument check, built the
    table from [N] draws per factor, and stored it in [self.results]. *)
Lemma run_simulation_inr w t w' :
  run_simulation w = (inr t, w') ->
  runnable (params (self w)) (n_simulations (self w)) = true /\
  table_of (params (self w)) (Z.to_nat (n_simulations (self w))) t /\
  results (self w') = Some t /\
  params (self w') = params (self w) /\
  n_simulations (self w') = n_simulations (self w).
Proof.
  unfold run_simulation. intros H.
  apply bind_inr in H as (s & w1 & H1 & H).
  apply bind_inr in H as (a & w2 & H2 & H).
  apply bind_inr in H as (pr & w3 & H3 & H).
  apply bind_inr in H as (l & w4 & H4 & H).
  apply bind_inr in H as (adj & w5 & H5 & H).
  apply bind_inr in H as (c & w6 & H6 & H).
  apply simulate_subscription_revenue_inr in H1 as (Hn & O1 & T1 & S1).
  apply simulate_api_revenue_inr in H2 as (_ & O2 & T2 & S2).
  apply simulate_project_revenue_inr in H3 as (_ & O3 & T3 & S3).
  apply simulate_licensing_revenue_inr in H4 as (_ & O4 & T4 & S4).
  apply apply_market_factors_inr in H5 as (_ & O5 & T5 & S5).
  apply simulate_costs_inr in H6 as (_ & O6 & T6 & S6).
  unfold store_results in H. inversion H; subst. simpl.
  rewrite S1 in S2. rewrite S2 in S3. rewrite S3 in S4. rewrite S4 in S5.
  rewrite S5 in S6.
  rewrite S1 in O2, T2. rewrite S2 in O3, T3. rewrite S3 in O4, T4.
  rewrite S4 in O5, T5. rewrite S5 in O6, T6. rewrite S6.
  repeat split; auto.
  - unfold runnable. apply Z.leb_le in Hn. rewrite Hn, O1, O2, O3, O4, O5, O6.
    reflexivity.
  - exists s, a, pr, l, adj, c. repeat split; auto.
Qed.

(** *** Success *)

Lemma bind_ok {A B} (m : M A) (k : A -> M B) w a w1 :
  m w = (inr a, w1) -> bind m k w = k a w1.
Proof. unfold bind. now intros ->. Qed.

Lemma draw_ok {A} (next : rng -> A * rng) n w :
  exists xs w', draw next n w = (inr xs, w') /\ self w' = self w.
Proof.
  unfold draw. destruct (draws next n (np_random w)) as [xs g]. eauto.
Qed.

Lemma _sample_uniform_ok r w me :
  self w = me -> uniform_ok r = true -> (0 <= n_simulations me)%Z ->
  exists xs w', _sample_uniform r w = (inr xs, w') /\ self w' = me.
Proof.
  intros <- Ho Hn.
  unfold _sample_uniform, get_n, bind at 1, np_random_uniform.
  unfold uniform_ok in Ho. rewrite Ho. change (negb true) with false. cbv iota.
  unfold check_size. destruct (Z.ltb_spec (n_simulations (self w)) 0); [lia|].
  destruct (draw_ok next_double (Z.to_nat (n_simulations (self w))) w)
    as (us & w1 & E & Hs).
  erewrite bind_ok; [|exact E]. unfold ret. eauto.
Qed.

Lemma _sample_normal_bounded_ok r skew w me :
  self w = me -> normal_ok r = true -> (0 <= n_simulations me)%Z ->
  exists xs w', _sample_normal_bounded r skew w = (inr xs, w') /\ self w' = me.
Proof.
  intros <- Ho Hn.
  unfold _sample_normal_bounded, get_n, bind at 1, np_random_normal.
  unfold normal_ok in Ho. apply negb_true_iff in Ho. rewrite Ho.
  unfold check_size. destruct (Z.ltb_spec (n_simulations (self w)) 0); [lia|].
  destruct (draw_ok next_gauss (Z.to_nat (n_simulations (self w))) w)
    as (us & w1 & E & Hs).
  unfold bind at 1. erewrite bind_ok; [|exact E]. unfold ret. eauto.
Qed.

Lemma _sample_integer_ok r w me :
  self w = me -> randint_ok (n_simulations me) r = true ->
  (0 <= n_simulations me)%Z ->
  exists ks w', _sample_integer r w = (inr ks, w') /\ self w' = me.
Proof.
  intros <- Ho Hn.
  unfold _sample_integer, get_n, bind at 1, np_random_randint.
  unfold randint_ok in Ho.
  destruct (Z.eqb_spec (n_simulations (self w)) 0) as [E0|E0].
  { unfold ret. eauto. }
  simpl in Ho. unfold integer_ok in Ho.
  apply andb_prop in Ho as [Ho H3]. apply andb_prop in Ho as [H1 H2].
  apply Z.leb_le in H1, H2, H3.
  replace (snd r + 1 - 1)%Z with (snd r) by lia.
  destruct (Z.ltb_spec (fst r) int64_min); [lia|].
  destruct (Z.ltb_spec int64_max (snd r)); [lia|].
  destruct (Z.ltb_spec (snd r) (fst r)); [lia|].
  unfold check_size. destruct (Z.ltb_spec (n_simulations (self w)) 0); [lia|].
  destruct (draw_ok (next_interval (snd r - fst r)%Z)
              (Z.to_nat (n_simulations (self w))) w) as (us & w1 & E & Hs).
  erewrite bind_ok; [|exact E]. unfold ret. eauto.
Qed.

Ltac split_ok H :=
  repeat match type of H with
  | (_ && _) = true =>
      let H2 := fresh "Ok" in apply andb_prop in H; destruct H as [H H2]
  end.

Ltac fwd :=
  match goal with
  | |- exists s w', bind get_params _ ?w = _ /\ _ =>
      unfold bind at 1, get_params at 1; cbv beta iota
  | Hs : self ?w = ?me |- exists s w', bind (_sample_uniform ?r) _ ?w = _ /\ _ =>
      let xs := fresh "xs" in let w1 := fresh "w" in
      let E := fresh "E" in let Hs1 := fresh "Hs" in
      destruct (_sample_uniform_ok r w Hs) as (xs & w1 & E & Hs1);
      [ (assumption || (rewrite <- Hs; assumption)) ..
      | (erewrite bind_ok; [|exact E]); clear E ]
  | Hs : self ?w = ?me |- exists s w', bind (_sample_integer ?r) _ ?w = _ /\ _ =>
      let xs := fresh "xs" in let w1 := fresh "w" in
      let E := fresh "E" in let Hs1 := fresh "Hs" in
      destruct (_sample_integer_ok r w Hs) as (xs & w1 & E & Hs1);
      [ (assumption || (rewrite <- Hs; assumption)) ..
      | (erewrite bind_ok; [|exact E]); clear E ]
  | Hs : self ?w = ?me
    |- exists s w', bind (_sample_normal_bounded ?r ?k) _ ?w = _ /\ _ =>
      let xs := fresh "xs" in let w1 := fresh "w" in
      let E := fresh "E" in let Hs1 := fresh "Hs" in
      destruct (_sample_normal_bounded_ok r k w Hs) as (xs & w1 & E & Hs1);
      [ (assumption || (rewrite <- Hs; assumption)) ..
      | (erewrite bind_ok; [|exact E]); clear E ]
  end.

Lemma simulate_subscription_revenue_ok w me :
  self w = me -> (0 <= n_simulations me)%Z ->
  subscription_ok (params me) (n_simulations me) = true ->
  exists s w', simulate_subscription_revenue w = (inr s, w') /\ self w' = me.
Proof.
  intros Hs Hn Ok. unfold subscription_ok in Ok. split_ok Ok.
  unfold simulate_subscription_revenue. fwd. rewrite Hs.
  do 7 fwd. unfold ret. eauto.
Qed.

Lemma simulate_api_revenue_ok w me :
  self w = me -> (0 <= n_simulations me)%Z ->
  api_ok (params me) (n_simulations me) = true ->
  exists s w', simulate_api_revenue w = (inr s, w') /\ self w' = me.
Proof.
  intros Hs Hn Ok. unfold api_ok in Ok. split_ok Ok.
  unfold simulate_api_revenue. fwd. rewrite Hs.
  do 3 fwd. unfold ret. eauto.
Qed.

Lemma simulate_project_revenue_ok w me :
  self w = me -> (0 <= n_simulations me)%Z ->
  project_ok (params me) (n_simulations me) = true ->
  exists s w', simulate_project_revenue w = (inr s, w') /\ self w' = me.
Proof.
  intros Hs Hn Ok. unfold project_ok in Ok. split_ok Ok.
  unfold simulate_project_revenue. fwd. rewrite Hs.
  do 2 fwd. unfold ret. eauto.
Qed.

Lemma simulate_licensing_revenue_ok w me :
  self w = me -> (0 <= n_simulations me)%Z ->
  licensing_ok (params me) (n_simulations me) = true ->
  exists s w', simulate_licensing_revenue w = (inr s, w') /\ self w' = me.
Proof.
  intros Hs Hn Ok. unfold licensing_ok in Ok. split_ok Ok.
  unfold simulate_licensing_revenue. fwd. rewrite Hs.
  do 2 fwd. unfold ret. eauto.
Qed.

Lemma apply_market_factors_ok base w me :
  self w = me -> (0 <= n_simulations me)%Z -> market_ok (params me) = true ->
  exists s w', apply_market_factors base w = (inr s, w') /\ self w' = me.
Proof.
  intros Hs Hn Ok. unfold market_ok in Ok. split_ok Ok.
  unfold apply_market_factors. fwd. rewrite Hs.
  do 7 fwd. unfold ret. eauto.
Qed.

Lemma simulate_costs_ok w me :
  self w = me -> (0 <= n_simulations me)%Z -> costs_ok (params me) = true ->
  exists s w', simulate_costs w = (inr s, w') /\ self w' = me.
Proof.
  intros Hs Hn Ok. unfold costs_ok in Ok. split_ok Ok.
  unfold simulate_costs. fwd. rewrite Hs.
  do 5 fwd. unfold ret. eauto.
Qed.

(** A run whose argument checks pass returns a table, whatever the
    generator hands out. *)
Lemma run_simulation_ok w :
  runnable (params (self w)) (n_simulations (self w)) = true ->
  exists t w', run_simulation w = (inr t, w').
Proof.
  intros Ok. unfold runnable in Ok. split_ok Ok. apply Z.leb_le in Ok.
  unfold run_simulation.
  destruct (simulate_subscription_revenue_ok w eq_refl) as (s & w1 & E1 & S1); auto.
  erewrite bind_ok; [|exact E1].
  destruct (simulate_api_revenue_ok w1 S1) as (a & w2 & E2 & S2); auto.
  erewrite bind_ok; [|exact E2].
  destruct (simulate_project_revenue_ok w2 S2) as (pr & w3 & E3 & S3); auto.
  erewrite bind_ok; [|exact E3].
  destruct (simulate_licensing_revenue_ok w3 S3) as (l & w4 & E4 & S4); auto.
  erewrite bind_ok; [|exact E4].
  destruct (apply_market_factors_ok (total_revenue_of s a pr l) w4 S4)
    as (adj & w5 & E5 & S5); auto.
  erewrite bind_ok; [|exact E5].
  destruct (simulate_costs_ok w5 S5) as (c & w6 & E6 & S6); auto.
  erewrite bind_ok; [|exact E6].
  unfold store_results. eauto.
Qed.

Lemma runnable_nonneg p n : runnable p n = true -> (0 <= n)%Z.
Proof. intros Ok. unfold runnable in Ok. split_ok Ok. now apply Z.leb_le. Qed.

(** Checks that pass for one trial pass for any number of trials. *)
Lemma runnable_any_size p n :
  (0 <= n)%Z -> runnable p 1 = true -> runnable p n = true.
Proof.
  intros Hn Ok. apply Z.leb_le in Hn.
  unfold runnable, subscription_ok, api_ok, project_ok, licensing_ok, randint_ok in *.
  change (1 =? 0)%Z with false in Ok. cbn [orb] in Ok.
  repeat match goal with
  | H : (_ && _) = true |- _ => apply andb_prop in H; destruct H
  end.
  repeat match goal with
  | H : ?b = true |- context [?b] => rewrite H
  end.
  rewrite !orb_true_r. reflexivity.
Qed.

(** *** Row alignment *)

Lemma len_vmap2 {A B C} (f : A -> B -> C) N xs ys :
  List.length xs = N -> List.length ys = N -> List.length (vmap2 f xs ys) = N.
Proof. intros Hx Hy. rewrite vmap2_length; congruence. Qed.

Lemma len_map {A B} (f : A -> B) N xs :
  List.length xs = N -> List.length (map f xs) = N.
Proof. intros H. now rewrite length_map. Qed.

Lemma uniform_sample_length r N xs : uniform_sample r N xs -> List.length xs = N.
Proof.
  intros [g ->]. unfold uniform_values. rewrite length_map. apply draws_length.
Qed.

Lemma normal_sample_length r skew N xs :
  normal_sample r skew N xs -> List.length xs = N.
Proof.
  intros [g ->]. unfold normal_values, skew_and_clip, np_clip.
  destruct (negb _); rewrite ?length_map; apply draws_length.
Qed.

Lemma integer_sample_length r N ks : integer_sample r N ks -> List.length ks = N.
Proof.
  intros [g ->]. unfold integer_values. rewrite length_map. apply draws_length.
Qed.

Ltac lens :=
  unfold vadd, vsub, vmul, vdiv, vscale, vdivs, vrsub, viadd, vimul;
  repeat first
    [ assumption
    | apply len_vmap2
    | apply len_map
    | eapply uniform_sample_length; eassumption
    | eapply normal_sample_length; eassumption
    | eapply integer_sample_length; eassumption ].

Lemma table_of_rows p N t : table_of p N t -> rows N t.
Proof.
  intros (s & a & pr & l & adj & c & Hs & Ha & Hp & Hl & Hm & Hc & ->).
  destruct Hs as (bs & ps & es & bp & pp & ep & churn & ? & ? & ? & ? & ? & ? & ? & ->).
  destruct Ha as (base & per_call & calls & ? & ? & ? & ->).
  destruct Hp as (num & vals & ? & ? & ->).
  destruct Hl as (deals & lvals & ? & ? & ->).
  destruct Hc as (infra & data & pers & mkt & automation & ? & ? & ? & ? & ? & ->).
  destruct Hm as (se & gr & ef & b1 & b2 & b3 & b4 & ? & ? & ? & ? & ? & ? & ? & ->).
  unfold rows, aggregate, total_revenue_of, market_adjust, sports_composite,
    cost_streams, licensing_streams, project_streams, api_streams,
    subscription_streams; simpl.
  repeat split; lens.
Qed.

End MethodFacts.

(** ** Aggregator *)

Section Aggregation.
Context {F : Type} {NF : Num F} {G : Generator F}.
Local Open Scope num_scope.

Lemma at_vmap2 (f : F -> F -> F) xs ys i :
  (i < List.length xs)%nat -> (i < List.length ys)%nat ->
  at_ (vmap2 f xs ys) i = f (at_ xs i) (at_ ys i).
Proof. intros. unfold at_. now apply nth_vmap2. Qed.

Lemma at_map (f : F -> F) xs i :
  (i < List.length xs)%nat -> at_ (map f xs) i = f (at_ xs i).
Proof. intros. unfold at_. now apply nth_map'. Qed.

Lemma aggregate_columns s a pr l tr adj c N i :
  List.length adj = N -> List.length (cost_total_costs c) = N -> (i < N)%nat ->
  let t := aggregate s a pr l tr adj c in
  at_ (gross_profit t) i = at_ (adjusted_revenue t) i - at_ (total_costs t) i /\
  at_ (profit_margin t) i = at_ (gross_profit t) i / at_ (adjusted_revenue t) i /\
  at_ (roi_percent t) i = at_ (gross_profit t) i / at_ (total_costs t) i * of_int 100 /\
  at_ (hours_saved t) i = at_ (gross_profit t) i / of_int 55 /\
  monthly_value t = gross_profit t.
Proof.
  intros Ha Hc Hi. simpl. unfold vscale, vdivs, vdiv, vsub.
  assert (Hg : List.length (vmap2 fsub adj (cost_total_costs c)) = N)
    by (apply len_vmap2; assumption).
  assert (Hd : List.length (vmap2 fdiv (vmap2 fsub adj (cost_total_costs c))
                              (cost_total_costs c)) = N)
    by (apply len_vmap2; assumption).
  rewrite !at_map by (rewrite ?Hd, ?Hg; lia).
  rewrite !at_vmap2 by (rewrite ?Hg, ?Ha, ?Hc; lia).
  repeat split; reflexivity.
Qed.

(** The outcome columns of a returned table, trial by trial. *)
Lemma run_simulation_columns w t w' i :
  run_simulation w = (inr t, w') ->
  (i < Z.to_nat (n_simulations (self w)))%nat ->
  at_ (gross_profit t) i = at_ (adjusted_revenue t) i - at_ (total_costs t) i /\
  at_ (profit_margin t) i = at_ (gross_profit t) i / at_ (adjusted_revenue t) i /\
  at_ (roi_percent t) i = at_ (gross_profit t) i / at_ (total_costs t) i * of_int 100 /\
  at_ (hours_saved t) i = at_ (gross_profit t) i / of_int 55.
Proof.
  intros Hrun Hi.
  apply run_simulation_inr in Hrun as (_ & Ht & _).
  pose proof (table_of_rows Ht) as Hr.
  destruct Ht as (s & a & pr & l & adj & c & _ & _ & _ & _ & _ & _ & ->).
  unfold rows in Hr. simpl in Hr.
  destruct (@aggregate_columns s a pr l (total_revenue_of s a pr l) adj c
              (Z.to_nat (n_simulations (self w))) i) as (H1 & H2 & H3 & H4 & _);
    try tauto.
Qed.

(** C4. In every table returned by [run_simulation], for every trial
    [i < N]: gross_profit = adjusted_revenue - total_costs,
    profit_margin = gross_profit / adjusted_revenue,
    roi_percent = (gross_profit / total_costs) * 100 and
    hours_saved = gross_profit / 55, each computed by one array
    operation on the columns named (so the identities hold exactly in
    the arithmetic of the run, binary64 or real). *)
Theorem outcome_columns_identity w t w' i :
  run_simulation w = (inr t, w') ->
  (i < Z.to_nat (n_simulations (self w)))%nat ->
  at_ (gross_profit t) i = at_ (adjusted_revenue t) i - at_ (total_costs t) i /\
  at_ (profit_margin t) i = at_ (gross_profit t) i / at_ (adjusted_revenue t) i /\
  at_ (roi_percent t) i = at_ (gross_profit t) i / at_ (total_costs t) i * of_int 100 /\
  at_ (hours_saved t) i = at_ (gross_profit t) i / of_int 55.
Proof. exact (@run_simulation_columns w t w' i). Qed.

(** The cost columns of one trial. *)
Lemma cost_streams_at (infra data pers mkt automation : list F) N i :
  List.length infra = N -> List.length data = N -> List.length pers = N ->
  List.length mkt = N -> List.length automation = N -> (i < N)%nat ->
  let c := cost_streams infra data pers mkt automation in
  at_ (infrastructure c) i
    = at_ infra i * (of_int 1 - at_ automation i * lit 5 10) /\
  at_ (data_acquisition_arr c) i
    = at_ data i * (of_int 1 - at_ automation i * lit 3 10) /\
  at_ (personnel c) i
    = at_ pers i * (of_int 1 - at_ automation i * lit 2 10) /\
  at_ (marketing c) i = at_ mkt i /\
  at_ (cost_total_costs c) i
    = at_ (infrastructure c) i + at_ (data_acquisition_arr c) i
      + at_ (personnel c) i + at_ (marketing c) i.
Proof.
  intros Hi Hd Hp Hm Ha Hlt. cbn [infrastructure data_acquisition_arr personnel
    marketing cost_total_costs cost_streams].
  unfold vadd, vmul, vrsub, vscale.
  assert (L5 : List.length (map (fun x => of_int 1 - x)
                 (map (fun x => x * lit 5 10) automation)) = N)
    by now rewrite !length_map.
  assert (L3 : List.length (map (fun x => of_int 1 - x)
                 (map (fun x => x * lit 3 10) automation)) = N)
    by now rewrite !length_map.
  assert (L2 : List.length (map (fun x => of_int 1 - x)
                 (map (fun x => x * lit 2 10) automation)) = N)
    by now rewrite !length_map.
  assert (A5 : at_ (map (fun x => of_int 1 - x)
                 (map (fun x => x * lit 5 10) automation)) i
               = of_int 1 - at_ automation i * lit 5 10).
  { rewrite at_map by (rewrite length_map; lia). now rewrite at_map by lia. }
  assert (A3 : at_ (map (fun x => of_int 1 - x)
                 (map (fun x => x * lit 3 10) automation)) i
               = of_int 1 - at_ automation i * lit 3 10).
  { rewrite at_map by (rewrite length_map; lia). now rewrite at_map by lia. }
  assert (A2 : at_ (map (fun x => of_int 1 - x)
                 (map (fun x => x * lit 2 10) automation)) i
               = of_int 1 - at_ automation i * lit 2 10).
  { rewrite at_map by (rewrite length_map; lia). now rewrite at_map by lia. }
  assert (E1 : at_ (vmap2 fmul infra (map (fun x => of_int 1 - x)
                 (map (fun x => x * lit 5 10) automation))) i
               = at_ infra i * (of_int 1 - at_ automation i * lit 5 10)).
  { rewrite at_vmap2 by lia. now rewrite A5. }
  assert (E2 : at_ (vmap2 fmul data (map (fun x => of_int 1 - x)
                 (map (fun x => x * lit 3 10) automation))) i
               = at_ data i * (of_int 1 - at_ automation i * lit 3 10)).
  { rewrite at_vmap2 by lia. now rewrite A3. }
  assert (E3 : at_ (vmap2 fmul pers (map (fun x => of_int 1 - x)
                 (map (fun x => x * lit 2 10) automation))) i
               = at_ pers i * (of_int 1 - at_ automation i * lit 2 10)).
  { rewrite at_vmap2 by lia. now rewrite A2. }
  repeat split; try assumption.
  set (ci := vmap2 fmul infra _) in *. set (cd := vmap2 fmul data _) in *.
  set (cp := vmap2 fmul pers _) in *.
  assert (Li : List.length ci = N) by now apply len_vmap2.
  assert (Ld : List.length cd = N) by now apply len_vmap2.
  assert (Lp : List.length cp = N) by now apply len_vmap2.
  assert (Lid : List.length (vmap2 fadd ci cd) = N) by now apply len_vmap2.
  assert (Lidp : List.length (vmap2 fadd (vmap2 fadd ci cd) cp) = N)
    by now apply len_vmap2.
  rewrite at_vmap2 by lia. rewrite at_vmap2 by lia. rewrite at_vmap2 by lia.
  reflexivity.
Qed.

End Aggregation.

Lemma demo_run :
  run_simulation demo_world = (inr demo_table, set_results (set_rng demo_world 120%nat) demo_table).
Proof.
  apply method_result; vm_compute; reflexivity.
Qed.

Lemma outcome_columns_identity_witness :
  at_ (gross_profit demo_table) 1 =
    fsub (at_ (adjusted_revenue demo_table) 1) (at_ (total_costs demo_table) 1) /\
  at_ (profit_margin demo_table) 1 =
    fdiv (at_ (gross_profit demo_table) 1) (at_ (adjusted_revenue demo_table) 1) /\
  at_ (roi_percent demo_table) 1 =
    fmul (fdiv (at_ (gross_profit demo_table) 1) (at_ (total_costs demo_table) 1))
         (of_int 100) /\
  at_ (hours_saved demo_table) 1 = fdiv (at_ (gross_profit demo_table) 1) (of_int 55).
Proof.
  apply (@outcome_columns_identity float _ _ demo_world demo_table
           (set_results (set_rng demo_world 120%nat) demo_table) 1%nat).
  - exact demo_run.
  - simpl. lia.
Defined.

(** ** Determinism *)

Section Determinism.
Context {F : Type} {NF : Num F} {G : Generator F}.

Lemma det_ret {A} (x : A) : deterministic (ret x).
Proof. intros w1 w2 H. simpl. auto. Qed.

Lemma det_raise {A} e : deterministic (raise (A := A) e).
Proof. intros w1 w2 H. simpl. auto. Qed.

Lemma det_bind {A B} (m : M A) (k : A -> M B) :
  deterministic m -> (forall a, deterministic (k a)) -> deterministic (bind m k).
Proof.
  intros Hm Hk w1 w2 H. unfold bind.
  destruct (Hm w1 w2 H) as [E S].
  destruct (m w1) as [[e1|a1] w1'], (m w2) as [[e2|a2] w2']; simpl in *;
    try discriminate.
  - inversion E; subst. split; [reflexivity|assumption].
  - inversion E; subst. now apply Hk.
Qed.

Lemma det_get_params : deterministic get_params.
Proof.
  intros w1 w2 H. unfold get_params. simpl. split; [|exact H].
  destruct H as (_ & -> & _). reflexivity.
Qed.

Lemma det_get_n : deterministic get_n.
Proof.
  intros w1 w2 H. unfold get_n. simpl. split; [|exact H].
  destruct H as (_ & _ & ->). reflexivity.
Qed.

Lemma det_draw {A} (next : rng -> A * rng) n : deterministic (draw next n).
Proof.
  intros w1 w2 (Hg & Hp & Hn). unfold draw. rewrite Hg.
  destruct (draws next n (np_random w2)) as [xs g]. simpl.
  repeat split; auto.
Qed.

Lemma det_check_size {A} n (k : nat -> M A) :
  (forall j, deterministic (k j)) -> deterministic (check_size n k).
Proof.
  intros Hk. unfold check_size. destruct (n <? 0)%Z; [apply det_raise|apply Hk].
Qed.

Lemma det_sample_uniform r : deterministic (_sample_uniform r).
Proof.
  apply det_bind; [apply det_get_n|]. intros n. unfold np_random_uniform.
  destruct (negb _); [apply det_raise|].
  apply det_check_size. intros j. apply det_bind; [apply det_draw|].
  intros us. apply det_ret.
Qed.

Lemma det_sample_normal_bounded r skew : deterministic (_sample_normal_bounded r skew).
Proof.
  apply det_bind; [apply det_get_n|]. intros n.
  apply det_bind; [|intros; apply det_ret].
  unfold np_random_normal. destruct (_ && _); [apply det_raise|].
  apply det_check_size. intros j. apply det_bind; [apply det_draw|].
  intros us. apply det_ret.
Qed.

Lemma det_sample_integer r : deterministic (_sample_integer r).
Proof.
  apply det_bind; [apply det_get_n|]. intros n. unfold np_random_randint.
  destruct (n =? 0)%Z; [apply det_ret|].
  repeat (destruct (_ <? _)%Z; [apply det_raise|]).
  apply det_check_size. intros j. apply det_bind; [apply det_draw|].
  intros us. apply det_ret.
Qed.

Ltac det :=
  repeat first
    [ apply det_ret
    | apply det_sample_uniform
    | apply det_sample_normal_bounded
    | apply det_sample_integer
    | apply det_get_params
    | apply det_bind; [|intro] ].

Lemma det_store_results t : deterministic (store_results t).
Proof.
  intros w1 w2 (Hg & Hp & Hn). unfold store_results. simpl. repeat split; auto.
Qed.

Lemma det_run_simulation : deterministic run_simulation.
Proof.
  unfold run_simulation, simulate_subscription_revenue, simulate_api_revenue,
    simulate_project_revenue, simulate_licensing_revenue, apply_market_factors,
    simulate_costs.
  det; try apply det_store_results.
Qed.

(** C2. Two runs with the same parameter set, the same trial count and
    the generator seeded with the same seed return the same outcome:
    the same Trial Table, column by column (or the same exception),
    whatever else the two process states hold. *)
Theorem run_simulation_deterministic s w1 w2 :
  params (self w1) = params (self w2) ->
  n_simulations (self w1) = n_simulations (self w2) ->
  fst (run_simulation (np_random_seed s w1)) =
  fst (run_simulation (np_random_seed s w2)).
Proof.
  intros Hp Hn. apply det_run_simulation.
  unfold same_inputs, np_random_seed. simpl. auto.
Qed.

End Determinism.

Lemma run_simulation_deterministic_witness :
  fst (run_simulation (np_random_seed 42 demo_world)) =
  fst (run_simulation (np_random_seed 42 used_world)).
Proof.
  apply (@run_simulation_deterministic float _ _ 42%Z demo_world used_world);
    reflexivity.
Defined.

(** Without reseeding, a second run continues the generator's stream
    and returns a different table. *)
Lemma second_run_differs :
  fst (bind run_simulation (fun _ => run_simulation) demo_world) <>
  fst (run_simulation demo_world).
Proof. vm_compute. intros H. inversion H. Qed.

(** ** Summarizer: the pre-run guard *)

Section Guard.
Context {F : Type} {NF : Num F} {G : Generator F} {BL : Blas F}.

(** C9. On an engine whose [results] is still [None] (no run has
    produced a Trial Table), [generate_statistics] and
    [sensitivity_analysis] raise the engine-state error
    ([ValueError("Must run simulation first")]) at once: no summary
    is produced and the process state (engine and generator) is left
    as it was. *)
Theorem summaries_need_a_run (w : World) :
  results (self w) = None ->
  generate_statistics w = (inl EngineStateError, w) /\
  sensitivity_analysis w = (inl EngineStateError, w).
Proof.
  intros H. unfold generate_statistics, sensitivity_analysis, bind, get_results.
  rewrite H. split; reflexivity.
Qed.

End Guard.

Lemma summaries_need_a_run_witness :
  generate_statistics demo_world = (inl EngineStateError, demo_world) /\
  sensitivity_analysis demo_world = (inl EngineStateError, demo_world).
Proof.
  apply (@summaries_need_a_run float _ _ _ demo_world). reflexivity.
Defined.

(** ** binary64 arithmetic on special values *)

Section Binary64.
Local Open Scope num_scope.

Lemma Prim2SF_nan_inv (x : float) : Prim2SF x = S754_nan -> x = nan.
Proof. intros H. apply Prim2SF_inj. now rewrite H. Qed.

Lemma is_nan_spec (x : float) : isnan x = true <-> Prim2SF x = S754_nan.
Proof.
  cbn. unfold PrimFloat.is_nan. rewrite FloatAxioms.eqb_spec. unfold SFeqb.
  destruct (Prim2SF x) as [s|s| |s m e] eqn:E; simpl;
    try rewrite Z.compare_refl, Pos.compare_cont_refl;
    try destruct s; simpl; split; intros; try discriminate; reflexivity.
Qed.

Lemma is_finite_false (x : float) : isfinite x = false <-> non_finite x.
Proof.
  cbn. unfold non_finite, PrimFloat.is_finite, PrimFloat.is_infinity, PrimFloat.is_nan.
  rewrite !FloatAxioms.eqb_spec, abs_spec.
  change (Prim2SF infinity) with (S754_infinity false).
  unfold SFeqb.
  destruct (Prim2SF x) as [s|s| |s m e] eqn:E; simpl;
    try rewrite Z.compare_refl, Pos.compare_cont_refl;
    try destruct s; simpl; split; intros H; try discriminate; try reflexivity;
    try contradiction; exact I.
Qed.

Lemma zero_or_nan_zero : zero_or_nan (of_int 0).
Proof. exact I. Qed.

Lemma zero_or_nan_nan : zero_or_nan nan.
Proof. exact I. Qed.

Lemma non_finite_nan : non_finite nan.
Proof. exact I. Qed.

Lemma zero_or_nan_mul_l (x y : float) : zero_or_nan x -> zero_or_nan (x * y).
Proof.
  cbn. unfold zero_or_nan. rewrite mul_spec.
  destruct (Prim2SF x) as [s|s| |s m e]; try contradiction;
  destruct (Prim2SF y) as [s'|s'| |s' m' e']; simpl; auto.
Qed.

Lemma zero_or_nan_mul_r (x y : float) : zero_or_nan y -> zero_or_nan (x * y).
Proof.
  cbn. unfold zero_or_nan. rewrite mul_spec.
  destruct (Prim2SF y) as [s|s| |s m e]; try contradiction;
  destruct (Prim2SF x) as [s'|s'| |s' m' e']; simpl; auto.
Qed.

Lemma zero_or_nan_add (x y : float) :
  zero_or_nan x -> zero_or_nan y -> zero_or_nan (x + y).
Proof.
  cbn. unfold zero_or_nan. rewrite add_spec.
  destruct (Prim2SF x) as [s|s| |s m e]; try contradiction;
  destruct (Prim2SF y) as [s'|s'| |s' m' e']; try contradiction; simpl; auto;
  destruct s, s'; simpl; auto.
Qed.

Lemma div_by_zero_or_nan (x y : float) : zero_or_nan y -> non_finite (x / y).
Proof.
  cbn. unfold zero_or_nan, non_finite. rewrite div_spec.
  destruct (Prim2SF y) as [s|s| |s m e]; try contradiction;
  destruct (Prim2SF x) as [s'|s'| |s' m' e']; simpl; auto.
Qed.

Lemma non_finite_mul_l (x y : float) : non_finite x -> non_finite (x * y).
Proof.
  cbn. unfold non_finite. rewrite mul_spec.
  destruct (Prim2SF x) as [s|s| |s m e]; try contradiction;
  destruct (Prim2SF y) as [s'|s'| |s' m' e']; simpl; auto.
Qed.

Lemma zero_div_zero (x y : float) : zero_or_nan x -> zero_or_nan y -> x / y = nan.
Proof.
  cbn. unfold zero_or_nan. intros Hx Hy. apply Prim2SF_nan_inv. rewrite div_spec.
  destruct (Prim2SF x) as [s|s| |s m e]; try contradiction;
  destruct (Prim2SF y) as [s'|s'| |s' m' e']; try contradiction; reflexivity.
Qed.

Lemma add_nan_r (x : float) : x + nan = nan.
Proof.
  cbn. apply Prim2SF_nan_inv. rewrite add_spec.
  change (Prim2SF nan) with S754_nan. destruct (Prim2SF x); reflexivity.
Qed.

Lemma add_nan_l (x : float) : nan + x = nan.
Proof. cbn. apply Prim2SF_nan_inv. rewrite add_spec. reflexivity. Qed.

Lemma sub_nan_l (x : float) : nan - x = nan.
Proof. cbn. apply Prim2SF_nan_inv. rewrite sub_spec. reflexivity. Qed.

Lemma mul_nan_l (x : float) : nan * x = nan.
Proof. cbn. apply Prim2SF_nan_inv. rewrite mul_spec. reflexivity. Qed.

Lemma mul_nan_r (x : float) : x * nan = nan.
Proof.
  cbn. apply Prim2SF_nan_inv. rewrite mul_spec.
  change (Prim2SF nan) with S754_nan. destruct (Prim2SF x); reflexivity.
Qed.

Lemma div_nan_l (x : float) : nan / x = nan.
Proof. cbn. apply Prim2SF_nan_inv. rewrite div_spec. reflexivity. Qed.

Lemma div_nan_r (x : float) : x / nan = nan.
Proof.
  cbn. apply Prim2SF_nan_inv. rewrite div_spec.
  change (Prim2SF nan) with S754_nan. destruct (Prim2SF x); reflexivity.
Qed.

(** [x - x] is [+0] for a finite [x]. *)
Lemma SFsub_diag_finite s m e :
  SF64sub (S754_finite s m e) (S754_finite s m e) = S754_zero false.
Proof.
  unfold SF64sub, SFsub. rewrite Z.min_id.
  unfold shl_align. rewrite Z.sub_diag. reflexivity.
Qed.

Lemma sub_diag_finite (x : float) : isfinite x = true -> x - x = of_int 0.
Proof.
  intros H. cbn. apply Prim2SF_inj. rewrite sub_spec.
  change (Prim2SF (float_of_Z 0)) with (S754_zero false).
  destruct (Prim2SF x) as [s|s| |s m e] eqn:E.
  - destruct s; reflexivity.
  - assert (isfinite x = false) by (apply is_finite_false; unfold non_finite; now rewrite E).
    congruence.
  - assert (isfinite x = false) by (apply is_finite_false; unfold non_finite; now rewrite E).
    congruence.
  - apply SFsub_diag_finite.
Qed.

(** [(m + t) - m] is a zero or NaN when [t] is. *)
Lemma zero_or_nan_add_sub (m t : float) : zero_or_nan t -> zero_or_nan ((m + t) - m).
Proof.
  cbn. unfold zero_or_nan. rewrite sub_spec, add_spec.
  destruct (Prim2SF t) as [s|s| |s mt e]; try contradiction; intros _;
  destruct (Prim2SF m) as [s'|s'| |s' m' e']; unfold SF64add; cbn [SFadd];
  try rewrite SFsub_diag_finite; try exact I;
  destruct s, s'; exact I.
Qed.

End Binary64.

(** ** The order of binary64 numbers *)

Section FloatOrder.
Local Open Scope num_scope.

Lemma lex_trans (e1 e2 e3 : Z) (m1 m2 m3 : positive) :
  (match (e1 ?= e2)%Z with Lt => Lt | Gt => Gt | Eq => (m1 ?= m2)%positive end) <> Gt ->
  (match (e2 ?= e3)%Z with Lt => Lt | Gt => Gt | Eq => (m2 ?= m3)%positive end) <> Gt ->
  (match (e1 ?= e3)%Z with Lt => Lt | Gt => Gt | Eq => (m1 ?= m3)%positive end) <> Gt.
Proof.
  intros N1 N2.
  destruct (Z.compare_spec e1 e2), (Z.compare_spec e2 e3), (Z.compare_spec e1 e3);
    try lia; try congruence;
  destruct (Pos.compare_spec m1 m2), (Pos.compare_spec m2 m3), (Pos.compare_spec m1 m3);
    try lia; try congruence.
Qed.

Lemma SFleb_trans x y z : SFleb x y = true -> SFleb y z = true -> SFleb x z = true.
Proof.
  unfold SFleb, SFcompare.
  destruct x as [sx|sx| |sx mx ex], y as [sy|sy| |sy my ey], z as [sz|sz| |sz mz ez];
    try (intros; discriminate); try (intros; reflexivity);
    try (destruct sx, sy, sz; simpl; intros; (reflexivity || discriminate)).
  all: try (destruct sx, sy; simpl; intros; (reflexivity || discriminate)).
  all: try (destruct sy, sz; simpl; intros; (reflexivity || discriminate)).
  all: try (destruct sx, sz; simpl; intros; (reflexivity || discriminate)).
  change (Pos.compare_cont Eq mx my) with (Pos.compare mx my).
  change (Pos.compare_cont Eq my mz) with (Pos.compare my mz).
  change (Pos.compare_cont Eq mx mz) with (Pos.compare mx mz).
  destruct sx, sy, sz; try (intros; (reflexivity || discriminate)).
  - intros H1 H2.
    assert (N := @lex_trans ez ey ex mz my mx).
    rewrite (Z.compare_antisym ey ex), (Pos.compare_antisym my mx) in H1.
    rewrite (Z.compare_antisym ez ey), (Pos.compare_antisym mz my) in H2.
    rewrite (Z.compare_antisym ez ex), (Pos.compare_antisym mz mx).
    destruct (ez ?= ey)%Z, (ey ?= ex)%Z, (ez ?= ex)%Z, (mz ?= my)%positive,
      (my ?= mx)%positive, (mz ?= mx)%positive; simpl in *;
      try reflexivity; try discriminate; exfalso; apply N; congruence.
  - intros H1 H2.
    assert (N := @lex_trans ex ey ez mx my mz).
    destruct (ex ?= ey)%Z, (ey ?= ez)%Z, (ex ?= ez)%Z, (mx ?= my)%positive,
      (my ?= mz)%positive, (mx ?= mz)%positive; simpl in *;
      try reflexivity; try discriminate; exfalso; apply N; congruence.
Qed.

Lemma SFleb_total x y :
  x <> S754_nan -> y <> S754_nan -> SFleb x y = false -> SFleb y x = true.
Proof.
  unfold SFleb, SFcompare.
  destruct x as [sx|sx| |sx mx ex], y as [sy|sy| |sy my ey]; intros Hx Hy;
    try congruence;
    try (destruct sx, sy; simpl; intros; (reflexivity || discriminate));
    try (destruct sx; simpl; intros; (reflexivity || discriminate));
    try (destruct sy; simpl; intros; (reflexivity || discriminate)).
  change (Pos.compare_cont Eq mx my) with (Pos.compare mx my).
  change (Pos.compare_cont Eq my mx) with (Pos.compare my mx).
  rewrite (Z.compare_antisym ex ey), (Pos.compare_antisym mx my).
  destruct sx, sy; simpl; try (intros; (reflexivity || discriminate));
  destruct (ex ?= ey)%Z, (mx ?= my)%positive; simpl; intros;
    (reflexivity || discriminate).
Qed.

Lemma leb_trans (x y z : float) :
  (x <=? y) = true -> (y <=? z) = true -> (x <=? z) = true.
Proof. cbn. rewrite !leb_spec. apply SFleb_trans. Qed.

Lemma leb_total (x y : float) :
  isnan x = false -> isnan y = false -> (x <=? y) = false -> (y <=? x) = true.
Proof.
  intros Hx Hy. cbn. rewrite !leb_spec. apply SFleb_total.
  - intros E. apply is_nan_spec in E. congruence.
  - intros E. apply is_nan_spec in E. congruence.
Qed.

Lemma SFltb_false x y :
  x <> S754_nan -> y <> S754_nan -> SFltb x y = false -> SFleb y x = true.
Proof.
  unfold SFltb, SFleb, SFcompare.
  destruct x as [sx|sx| |sx mx ex], y as [sy|sy| |sy my ey]; intros Hx Hy;
    try congruence;
    try (destruct sx, sy; simpl; intros; (reflexivity || discriminate));
    try (destruct sx; simpl; intros; (reflexivity || discriminate));
    try (destruct sy; simpl; intros; (reflexivity || discriminate)).
  change (Pos.compare_cont Eq mx my) with (Pos.compare mx my).
  change (Pos.compare_cont Eq my mx) with (Pos.compare my mx).
  rewrite (Z.compare_antisym ex ey), (Pos.compare_antisym mx my).
  destruct sx, sy; simpl; try (intros; (reflexivity || discriminate));
  destruct (ex ?= ey)%Z, (mx ?= my)%positive; simpl; intros;
    (reflexivity || discriminate).
Qed.

Lemma SFltb_true x y :
  SFltb x y = true -> x <> S754_nan /\ y <> S754_nan /\ SFleb y x = false.
Proof.
  unfold SFltb, SFleb, SFcompare.
  destruct x as [sx|sx| |sx mx ex], y as [sy|sy| |sy my ey];
    try (intros; discriminate);
    try (destruct sx, sy; simpl; intros; repeat split; (congruence || discriminate));
    try (destruct sx; simpl; intros; repeat split; (congruence || discriminate));
    try (destruct sy; simpl; intros; repeat split; (congruence || discriminate)).
  change (Pos.compare_cont Eq mx my) with (Pos.compare mx my).
  change (Pos.compare_cont Eq my mx) with (Pos.compare my mx).
  rewrite (Z.compare_antisym ex ey), (Pos.compare_antisym mx my).
  destruct sx, sy; simpl; try (intros; repeat split; (congruence || discriminate));
  destruct (ex ?= ey)%Z, (mx ?= my)%positive; simpl; intros;
    repeat split; (congruence || discriminate).
Qed.

Lemma not_nan_spec (x : float) : isnan x = false <-> Prim2SF x <> S754_nan.
Proof.
  split.
  - intros H E. apply is_nan_spec in E. congruence.
  - intros H. apply not_true_is_false. intros E. now apply is_nan_spec in E.
Qed.

Lemma isnan_nan (x : float) : isnan x = true -> x = nan.
Proof.
  intros H. apply is_nan_spec in H. apply Prim2SF_inj. rewrite H. reflexivity.
Qed.

Lemma ltb_false_leb (x y : float) :
  isnan x = false -> isnan y = false -> (x <? y) = false -> (y <=? x) = true.
Proof.
  intros Hx Hy. cbn. rewrite ltb_spec, leb_spec.
  apply SFltb_false; now apply not_nan_spec.
Qed.

Lemma ltb_nan_l (x : float) : (nan <? x) = false.
Proof. cbn. rewrite ltb_spec. reflexivity. Qed.

Lemma ltb_nan_r (x : float) : (x <? nan) = false.
Proof.
  cbn. rewrite ltb_spec. unfold SFltb, SFcompare.
  change (Prim2SF nan) with S754_nan. now destruct (Prim2SF x).
Qed.

(** [a <= b] and [b < x] give [a < x]. *)
Lemma leb_ltb_trans (a b x : float) :
  (a <=? b) = true -> (b <? x) = true -> (a <? x) = true.
Proof.
  cbn. rewrite !ltb_spec, leb_spec. intros Hab Hbx.
  apply SFltb_true in Hbx as (Hb & Hx & Hxb).
  assert (Ha : Prim2SF a <> S754_nan).
  { intros E. rewrite E in Hab. discriminate. }
  destruct (SFltb (Prim2SF a) (Prim2SF x)) eqn:E; [reflexivity|].
  apply SFltb_false in E; [|assumption|assumption].
  rewrite (SFleb_trans _ _ _ E Hab) in Hxb. discriminate.
Qed.

End FloatOrder.

(** ** Populations of special values *)

Lemma Forall_vmap2_l {A B C} (P : C -> Prop) (Q : A -> Prop) (f : A -> B -> C) :
  (forall x y, Q x -> P (f x y)) ->
  forall xs ys, Forall Q xs -> Forall P (vmap2 f xs ys).
Proof.
  intros Hf xs. induction xs as [|x xs IH]; intros [|y ys] H; simpl; try constructor.
  - inversion H; subst. now apply Hf.
  - inversion H; subst. now apply IH.
Qed.

Lemma Forall_vmap2_r {A B C} (P : C -> Prop) (Q : B -> Prop) (f : A -> B -> C) :
  (forall x y, Q y -> P (f x y)) ->
  forall xs ys, Forall Q ys -> Forall P (vmap2 f xs ys).
Proof.
  intros Hf xs. induction xs as [|x xs IH]; intros [|y ys] H; simpl; try constructor.
  - inversion H; subst. now apply Hf.
  - inversion H; subst. now apply IH.
Qed.

Lemma Forall_vmap2_both {A B C} (P : C -> Prop) (Q : A -> Prop) (R : B -> Prop)
  (f : A -> B -> C) :
  (forall x y, Q x -> R y -> P (f x y)) ->
  forall xs ys, Forall Q xs -> Forall R ys -> Forall P (vmap2 f xs ys).
Proof.
  intros Hf xs. induction xs as [|x xs IH]; intros [|y ys] Hx Hy; simpl;
    try constructor.
  - inversion Hx; inversion Hy; subst. now apply Hf.
  - inversion Hx; inversion Hy; subst. now apply IH.
Qed.

Lemma Forall_map_intro {A B} (P : B -> Prop) (Q : A -> Prop) (f : A -> B) :
  (forall x, Q x -> P (f x)) -> forall l, Forall Q l -> Forall P (map f l).
Proof.
  intros Hf l H. induction H; simpl; constructor; auto.
Qed.

Lemma Forall_at {F} `{Num F} (P : F -> Prop) l i :
  Forall P l -> (i < List.length l)%nat -> P (at_ l i).
Proof.
  intros HP Hi. unfold at_. rewrite Forall_forall in HP. apply HP. now apply nth_In.
Qed.


Lemma Forall_eq_repeat {A} (a : A) l :
  Forall (fun x => x = a) l -> l = repeat a (List.length l).
Proof. induction 1; simpl; congruence. Qed.

(** ** The bounded skewed-normal sampler on a degenerate range *)

Section DegenerateRange.
Context {G : Generator float}.
Local Open Scope num_scope.

(** With a zero standard deviation the draw is [mean + 0 * z], the
    squared deviation is a zero (or NaN), and the skew term divides
    it by zero. *)
Lemma skew_term_nan (mean z skew : float) :
  let x := mean + of_int 0 * z in
  x + skew * ((x - mean) * (x - mean)) / of_int 0 = nan.
Proof.
  intros x.
  assert (Hd : zero_or_nan (x - mean)).
  { apply zero_or_nan_add_sub, zero_or_nan_mul_l, zero_or_nan_zero. }
  rewrite (@zero_div_zero (skew * ((x - mean) * (x - mean))) (of_int 0)).
  - apply add_nan_r.
  - apply zero_or_nan_mul_r, zero_or_nan_mul_l, Hd.
  - apply zero_or_nan_zero.
Qed.

Lemma clip_nan (lo hi : float) : np_clip1 nan lo hi = nan.
Proof.
  unfold np_clip1.
  destruct (isnan lo) eqn:E1; [now apply isnan_nan|].
  destruct (isnan hi) eqn:E2; [now apply isnan_nan|].
  rewrite ltb_nan_l, ltb_nan_r. reflexivity.
Qed.

Lemma std_degenerate (lo : float) :
  isfinite lo = true -> (lo - lo) / of_int 4 = of_int 0.
Proof. intros H. rewrite (sub_diag_finite lo H). vm_compute. reflexivity. Qed.

Lemma map_const_repeat {A B} (b : B) (l : list A) :
  map (fun _ => b) l = repeat b (List.length l).
Proof. induction l; simpl; congruence. Qed.

Lemma normal_values_degenerate (lo skew : float) zs :
  isfinite lo = true -> (skew =? of_int 0) = false ->
  normal_values (lo, lo) skew zs = repeat nan (List.length zs).
Proof.
  intros Hlo Hskew. unfold normal_values, skew_and_clip, np_clip.
  unfold fst, snd. rewrite Hskew, (std_degenerate lo Hlo).
  change (negb false) with true. cbv iota.
  rewrite !map_map. rewrite <- map_const_repeat.
  apply map_ext. intros z.
  rewrite (skew_term_nan ((lo + lo) / of_int 2) z skew). apply clip_nan.
Qed.

Lemma normal_ok_degenerate (lo : float) :
  isfinite lo = true -> normal_ok (lo, lo) = true.
Proof.
  intros H. unfold normal_ok, fst, snd. rewrite (std_degenerate lo H).
  vm_compute. reflexivity.
Qed.

Lemma sample_normal_bounded_degenerate (lo skew : float) (w : World) :
  isfinite lo = true -> (skew =? of_int 0) = false ->
  (0 <= n_simulations (self w))%Z ->
  exists w', _sample_normal_bounded (lo, lo) skew w =
             (inr (repeat nan (Z.to_nat (n_simulations (self w)))), w').
Proof.
  intros Hlo Hskew Hn.
  destruct (@_sample_normal_bounded_ok _ _ _ (lo, lo) skew w (self w) eq_refl
              (normal_ok_degenerate lo Hlo) Hn) as (xs & w' & E & _).
  exists w'. rewrite E.
  apply _sample_normal_bounded_inr in E as (_ & _ & [g ->] & _).
  rewrite normal_values_degenerate by assumption.
  now rewrite draws_length.
Qed.

Lemma all_nan_repeat n : all_nan (repeat nan n).
Proof. induction n; simpl; constructor; auto. Qed.

(** NaN in the project values reaches every outcome column. *)
Lemma table_of_degenerate (lo : float) p N t :
  isfinite lo = true -> project_value p = (lo, lo) -> table_of p N t ->
  all_nan (project_revenue t) /\ all_nan (gross_revenue t) /\
  all_nan (adjusted_revenue t) /\ all_nan (gross_profit t) /\
  all_nan (profit_margin t) /\ all_nan (roi_percent t) /\
  all_nan (hours_saved t).
Proof.
  intros Hlo Hpv (s & a & pr & l & adj & c & _ & _ & Hp & _ & Hm & _ & ->).
  destruct Hp as (num & vals & _ & [g Hv] & ->).
  rewrite Hpv, normal_values_degenerate in Hv
    by (assumption || (vm_compute; reflexivity)).
  destruct Hm as (se & gr & ef & b1 & b2 & b3 & b4 & _ & _ & _ & _ & _ & _ & _ & ->).
  assert (Hvals : all_nan vals) by (rewrite Hv; apply all_nan_repeat).
  assert (Hproj : all_nan (vimul num vals)).
  { apply Forall_vmap2_r with (Q := fun x => x = nan); [|exact Hvals].
    intros k x ->. apply mul_nan_r. }
  assert (Hrev : all_nan (total_revenue_of s a (project_streams num vals) l)).
  { unfold total_revenue_of, vadd. simpl.
    apply Forall_vmap2_l with (Q := fun x => x = nan); [intros x y ->; apply add_nan_l|].
    apply Forall_vmap2_r with (Q := fun x => x = nan); [intros x y ->; apply add_nan_r|].
    exact Hproj. }
  assert (Hadj : all_nan (market_adjust
                   (total_revenue_of s a (project_streams num vals) l) se gr ef
                   (sports_composite b1 b2 b3 b4))).
  { unfold market_adjust, vmul.
    repeat (apply Forall_vmap2_l with (Q := fun x => x = nan);
            [intros x y ->; apply mul_nan_l|]).
    exact Hrev. }
  assert (Hgp : all_nan (vsub (market_adjust
                   (total_revenue_of s a (project_streams num vals) l) se gr ef
                   (sports_composite b1 b2 b3 b4)) (cost_total_costs c))).
  { apply Forall_vmap2_l with (Q := fun x => x = nan);
      [intros x y ->; apply sub_nan_l|exact Hadj]. }
  simpl. repeat split; auto.
  - apply Forall_vmap2_l with (Q := fun x => x = nan);
      [intros x y ->; apply div_nan_l|exact Hgp].
  - apply Forall_map_intro with (Q := fun x => x = nan);
      [intros x ->; apply mul_nan_l|].
    apply Forall_vmap2_l with (Q := fun x => x = nan);
      [intros x y ->; apply div_nan_l|exact Hgp].
  - apply Forall_map_intro with (Q := fun x => x = nan);
      [intros x ->; apply div_nan_l|exact Hgp].
Qed.

(** C10. A degenerate range [low = high] (finite) with a nonzero skew
    makes the bounded skewed-normal sampler divide by a zero standard
    deviation: every sampled value is NaN, the clamp lets it through,
    and NaN is not inside [low, high].  In a run whose project-value
    range is degenerate (the one use with skew 0.2) the run still
    returns a table, and for every trial project revenue, gross
    profit, profit margin, ROI and hours saved are NaN. *)
Theorem degenerate_range_yields_nan (lo : float) (w : World) :
  isfinite lo = true ->
  project_value (params (self w)) = (lo, lo) ->
  runnable (params (self w)) (n_simulations (self w)) = true ->
  let N := Z.to_nat (n_simulations (self w)) in
  (forall skew, (skew =? of_int 0) = false ->
     exists w1, _sample_normal_bounded (lo, lo) skew w = (inr (repeat nan N), w1)) /\
  (lo <=? nan) = false /\
  exists t w',
    run_simulation w = (inr t, w') /\
    forall i, (i < N)%nat ->
      at_ (project_revenue t) i = nan /\ at_ (gross_profit t) i = nan /\
      at_ (profit_margin t) i = nan /\ at_ (roi_percent t) i = nan /\
      at_ (hours_saved t) i = nan.
Proof.
  intros Hlo Hpv Hrun N.
  assert (Hn : (0 <= n_simulations (self w))%Z).
  { exact (runnable_nonneg _ _ Hrun). }
  split; [|split].
  - intros skew Hskew. now apply sample_normal_bounded_degenerate.
  - cbn. rewrite leb_spec. change (Prim2SF nan) with S754_nan.
    unfold SFleb, SFcompare. destruct (Prim2SF lo); reflexivity.
  - destruct (run_simulation_ok w Hrun) as (t & w' & E).
    exists t, w'. split; [exact E|].
    apply run_simulation_inr in E as (_ & Ht & _).
    pose proof (table_of_rows Ht) as Hr. unfold rows in Hr.
    destruct (table_of_degenerate Hlo Hpv Ht)
      as (H1 & _ & _ & H4 & H5 & H6 & H7).
    intros i Hi. unfold N in Hi. decompose [and] Hr.
    repeat split; apply Forall_at with (P := fun x => x = nan);
      solve [assumption | lia].
Qed.

End DegenerateRange.

Lemma degenerate_range_yields_nan_witness :
  let N := Z.to_nat (n_simulations (self degenerate_world)) in
  (forall skew, feqb skew (of_int 0) = false ->
     exists w1, _sample_normal_bounded (of_int 5000, of_int 5000) skew degenerate_world
                = (inr (repeat nan N), w1)) /\
  fleb (of_int 5000) nan = false /\
  exists t w',
    run_simulation degenerate_world = (inr t, w') /\
    forall i, (i < N)%nat ->
      at_ (project_revenue t) i = nan /\ at_ (gross_profit t) i = nan /\
      at_ (profit_margin t) i = nan /\ at_ (roi_percent t) i = nan /\
      at_ (hours_saved t) i = nan.
Proof.
  apply (@degenerate_range_yields_nan counter_generator (of_int 5000) degenerate_world).
  - vm_compute. reflexivity.
  - reflexivity.
  - vm_compute. reflexivity.
Defined.

(** ** Range containment of the clamp *)

Section Clamp.
Local Open Scope num_scope.

Lemma ltb_leb (x y : float) : (x <? y) = true -> (x <=? y) = true.
Proof.
  cbn. rewrite ltb_spec, leb_spec. unfold SFltb, SFleb.
  destruct (SFcompare (Prim2SF x) (Prim2SF y)) as [[]|]; auto.
Qed.

Lemma SFcompare_refl x : x <> S754_nan -> SFcompare x x = Some Eq.
Proof.
  destruct x as [s|s| |s m e]; simpl; intros H; try congruence.
  - now destruct s.
  - rewrite Z.compare_refl, Pos.compare_cont_refl. now destruct s.
Qed.

Lemma leb_refl (x : float) : isnan x = false -> (x <=? x) = true.
Proof.
  intros H. cbn. rewrite leb_spec. unfold SFleb. rewrite SFcompare_refl; auto.
  intros E. apply is_nan_spec in E. congruence.
Qed.

Lemma leb_not_nan (x y : float) :
  (x <=? y) = true -> isnan x = false /\ isnan y = false.
Proof.
  cbn. rewrite leb_spec. unfold SFleb. intros H.
  split; apply not_true_is_false; intros E; apply is_nan_spec in E;
    rewrite E in H; simpl in H; try discriminate.
  destruct (Prim2SF x); discriminate.
Qed.

(** What the clamp does achieve: any value that is not NaN is put
    inside a range with [low <= high]. *)
Lemma np_clip1_in_range (x lo hi : float) :
  isnan x = false -> (lo <=? hi) = true ->
  (lo <=? np_clip1 x lo hi) = true /\ (np_clip1 x lo hi <=? hi) = true.
Proof.
  intros Hx Hr. destruct (leb_not_nan Hr) as [Hlo Hhi].
  unfold np_clip1. rewrite Hlo, Hhi.
  destruct (x <? lo) eqn:E1.
  - destruct (hi <? lo) eqn:E2.
    + split; [assumption|now apply leb_refl].
    + split; [now apply leb_refl|assumption].
  - destruct (hi <? x) eqn:E2.
    + split; [assumption|now apply leb_refl].
    + split; now apply ltb_false_leb.
Qed.

(** C3 (failing input). With the range (5000, 5000), for which
    [low <= high] holds, and skew 0.2, the bounded skewed-normal
    sampler returns NaN for every trial: no sampled value lies in
    [low, high]. *)
Theorem bounded_normal_leaves_range :
  ((of_int 5000 : float) <=? of_int 5000) = true /\
  exists w',
    _sample_normal_bounded (of_int 5000, of_int 5000) (lit 2 10) degenerate_world
      = (inr [nan; nan; nan], w') /\
    Forall (fun x : float => (of_int 5000 <=? x) && (x <=? of_int 5000) = false)
      [nan; nan; nan].
Proof.
  split; [vm_compute; reflexivity|]. eexists. split.
  - apply method_returns. vm_compute. reflexivity.
  - repeat constructor.
Qed.

End Clamp.

(** ** Pandas' reductions leave NaN out, and only NaN *)

Section SkipNa.
Context {F : Type} {NF : Num F}.
Local Open Scope num_scope.

Lemma dropna_idem (l : list F) : dropna (dropna l) = dropna l.
Proof.
  unfold dropna. induction l as [|x l IH]; simpl; [reflexivity|].
  destruct (notna x) eqn:E; simpl; rewrite ?E, IH; reflexivity.
Qed.

(** The order statistics of a column are those of its non-NaN values;
    mean and standard deviation add the values up with NaN counting
    as 0 and divide by the number of non-NaN values: a NaN is left
    out, not counted as a number. *)
Lemma metric_stats_skipna name (col : list F) :
  metric_stats name col =
  {| Metric := display_name name;
     Mean := match series_count col with
             | O => fnan
             | S _ => fsum (fillna (of_int 0) col)
                      / of_int (Z.of_nat (series_count col))
             end;
     Median := series_median (dropna col);
     Std_Dev :=
       let count := series_count col in
       let avg := fsum (fillna (of_int 0) col) / of_int (Z.of_nat count) in
       fsqrt (if (count <=? 1)%nat then fnan
              else fsum (map (fun x => if isnan x then of_int 0
                                       else (avg - x) * (avg - x)) col)
                   / of_int (Z.of_nat count - 1));
     pct5 := series_quantile (lit 5 100) (dropna col);
     pct25 := series_quantile (lit 25 100) (dropna col);
     pct75 := series_quantile (lit 75 100) (dropna col);
     pct95 := series_quantile (lit 95 100) (dropna col);
     Min := series_min (dropna col);
     Max := series_max (dropna col) |}.
Proof.
  unfold metric_stats, series_mean, series_median, series_quantile,
    series_min, series_max, series_std, series_var.
  rewrite !dropna_idem. destruct (series_count col); reflexivity.
Qed.

(** The recursion of the pairwise summation never runs out: any two
    amounts of fuel that reach the length of the array give the same
    sum. *)
Lemma pairwise_sum_fuel (f1 : nat) :
  forall (f2 : nat) (l : list F),
    (List.length l <= f1)%nat -> (List.length l <= f2)%nat ->
    pairwise_sum f1 l = pairwise_sum f2 l.
Proof.
  induction f1 as [|f1 IH]; intros f2 l H1 H2.
  - destruct l; [|simpl in H1; lia]. destruct f2; reflexivity.
  - destruct f2 as [|f2].
    + destruct l; [reflexivity|simpl in H2; lia].
    + cbn [pairwise_sum].
      destruct (Nat.ltb_spec 128 (List.length l)) as [Hn|Hn]; [|reflexivity].
      set (n := List.length l) in *.
      assert (Hd : (n / 2 <= n - 65)%nat).
      { pose proof (Nat.div_mod_eq n 2). pose proof (Nat.mod_upper_bound n 2). lia. }
      assert (Hm : (64 <= n / 2)%nat).
      { pose proof (Nat.div_mod_eq n 2). pose proof (Nat.mod_upper_bound n 2). lia. }
      pose proof (Nat.mod_upper_bound (n / 2) 8) as Hu.
      pose proof (Nat.Div0.mod_le (n / 2) 8) as Hle.
      f_equal; apply IH; rewrite ?length_firstn, ?length_skipn; fold n; lia.
Qed.

Lemma series_count_dropna (col : list F) :
  series_count (dropna col) = series_count col.
Proof. unfold series_count. now rewrite dropna_idem. Qed.

End SkipNa.

Section NonFinite.
Context {G : Generator float}.
Local Open Scope num_scope.

Lemma eqb_zero (x : float) : (x =? of_int 0) = true -> zero_or_nan x.
Proof.
  cbn. rewrite FloatAxioms.eqb_spec.
  change (Prim2SF (float_of_Z 0)) with (S754_zero false).
  unfold zero_or_nan, SFeqb, SFcompare.
  destruct (Prim2SF x) as [s|s| |s m e]; try destruct s; simpl;
    intros H; try discriminate; exact I.
Qed.

Lemma non_finite_add_l (x y : float) : non_finite x -> non_finite (x + y).
Proof.
  cbn. unfold non_finite. rewrite add_spec.
  destruct (Prim2SF x) as [s|s| |s m e]; try contradiction;
  destruct (Prim2SF y) as [s'|s'| |s' m' e']; simpl; auto;
  destruct s, s'; simpl; auto.
Qed.

Lemma non_finite_add_r (x y : float) : non_finite y -> non_finite (x + y).
Proof.
  cbn. unfold non_finite. rewrite add_spec.
  destruct (Prim2SF y) as [s|s| |s m e]; try contradiction;
  destruct (Prim2SF x) as [s'|s'| |s' m' e']; simpl; auto;
  destruct s, s'; simpl; auto.
Qed.

Lemma non_finite_div_l (x y : float) : non_finite x -> non_finite (x / y).
Proof.
  cbn. unfold non_finite. rewrite div_spec.
  destruct (Prim2SF x) as [s|s| |s m e]; try contradiction;
  destruct (Prim2SF y) as [s'|s'| |s' m' e']; simpl; auto.
Qed.

Lemma fold_add_non_finite (l : list float) (acc : float) :
  non_finite acc \/ Exists non_finite l -> non_finite (fold_left fadd l acc).
Proof.
  revert acc. induction l as [|x l IH]; intros acc H; simpl.
  - destruct H as [H|H]; [exact H|inversion H].
  - apply IH. destruct H as [H|H].
    + left. now apply non_finite_add_l.
    + inversion H; subst; [left; now apply non_finite_add_r|now right].
Qed.

Ltac nf :=
  solve [ assumption
        | apply non_finite_add_l; nf
        | apply non_finite_add_r; nf ].

Ltac exists_cases H :=
  repeat match type of H with
  | Exists _ (_ :: _) => apply Exists_cons in H; destruct H as [H|H]; [nf|]
  end.

Lemma seq_sum_non_finite (l : list float) :
  Exists non_finite l -> non_finite (seq_sum l).
Proof.
  destruct l as [|x l]; intros H; [inversion H|]. simpl.
  apply fold_add_non_finite. apply Exists_cons in H. exact H.
Qed.

Lemma vadd_non_finite (rs : list float) :
  forall xs, List.length rs = List.length xs ->
    Exists non_finite rs \/ Exists non_finite xs ->
    Exists non_finite (vmap2 fadd rs xs).
Proof.
  induction rs as [|r rs IH]; intros [|x xs] Hl H; simpl in *; try discriminate.
  - destruct H as [H|H]; inversion H.
  - destruct H as [H|H]; apply Exists_cons in H; destruct H as [H|H].
    + left. now apply non_finite_add_l.
    + right. apply IH; [lia|now left].
    + left. now apply non_finite_add_r.
    + right. apply IH; [lia|now right].
Qed.

Lemma pairwise_unrolled_non_finite (n : nat) :
  forall (l : list float) r0 r1 r2 r3 r4 r5 r6 r7,
    (List.length l <= n)%nat ->
    Exists non_finite [r0; r1; r2; r3; r4; r5; r6; r7] \/ Exists non_finite l ->
    non_finite (pairwise_unrolled r0 r1 r2 r3 r4 r5 r6 r7 l).
Proof.
  induction n as [|n IH]; intros l r0 r1 r2 r3 r4 r5 r6 r7 Hl H.
  - destruct l; [|simpl in Hl; lia]. simpl.
    destruct H as [H|H]; [|inversion H].
    exists_cases H. inversion H.
  - destruct l as [|a0 [|a1 [|a2 [|a3 [|a4 [|a5 [|a6 [|a7 l']]]]]]]];
      try (cbn [pairwise_unrolled]; apply fold_add_non_finite;
           destruct H as [H|H]; [left; exists_cases H; inversion H|right; exact H]).
    cbn [pairwise_unrolled]. apply IH; [simpl in Hl; lia|].
    change (a0 :: a1 :: a2 :: a3 :: a4 :: a5 :: a6 :: a7 :: l')
      with ([a0; a1; a2; a3; a4; a5; a6; a7] ++ l') in H.
    rewrite Exists_app in H.
    destruct H as [H|[H|H]]; [left|left|now right].
    + apply (@vadd_non_finite [r0; r1; r2; r3; r4; r5; r6; r7]
               [a0; a1; a2; a3; a4; a5; a6; a7] eq_refl). now left.
    + apply (@vadd_non_finite [r0; r1; r2; r3; r4; r5; r6; r7]
               [a0; a1; a2; a3; a4; a5; a6; a7] eq_refl). now right.
Qed.

Lemma pairwise_block_non_finite (l : list float) :
  Exists non_finite l -> non_finite (pairwise_block l).
Proof.
  intros H.
  destruct l as [|a0 [|a1 [|a2 [|a3 [|a4 [|a5 [|a6 [|a7 l']]]]]]]];
    try (apply seq_sum_non_finite; exact H).
  cbn [pairwise_block].
  apply pairwise_unrolled_non_finite with (n := List.length l'); [lia|].
  change (a0 :: a1 :: a2 :: a3 :: a4 :: a5 :: a6 :: a7 :: l')
    with ([a0; a1; a2; a3; a4; a5; a6; a7] ++ l') in H.
  now rewrite Exists_app in H.
Qed.

Lemma pairwise_sum_non_finite (fuel : nat) :
  forall l : list float, Exists non_finite l -> non_finite (pairwise_sum fuel l).
Proof.
  induction fuel as [|fuel IH]; intros l H; cbn [pairwise_sum].
  - now apply pairwise_block_non_finite.
  - destruct (128 <? List.length l)%nat; [|now apply pairwise_block_non_finite].
    set (n2 := (List.length l / 2 - (List.length l / 2) mod 8)%nat).
    rewrite <- (firstn_skipn n2 l) in H. rewrite Exists_app in H.
    destruct H as [H|H].
    + apply non_finite_add_l. now apply IH.
    + apply non_finite_add_r. now apply IH.
Qed.

Lemma fsum_non_finite (l : list float) : Exists non_finite l -> non_finite (fsum l).
Proof. apply pairwise_sum_non_finite. Qed.

(** An infinite value takes part in the mean and makes it non-finite. *)
Lemma series_mean_infinite (col : list float) x s :
  In x col -> Prim2SF x = S754_infinity s -> non_finite (series_mean col).
Proof.
  intros Hin Hx.
  assert (Hn : isnan x = false).
  { apply not_nan_spec. congruence. }
  unfold series_mean.
  assert (Hd : In x (dropna col)).
  { unfold dropna. apply filter_In. split; [exact Hin|].
    unfold notna. now rewrite Hn. }
  unfold series_count.
  destruct (dropna col) as [|y v] eqn:Ev; [contradiction|].
  cbn [List.length]. apply non_finite_div_l, fsum_non_finite.
  apply Exists_exists. exists x. split.
  - unfold fillna. apply in_map_iff. exists x. split; [|exact Hin].
    now rewrite Hn.
  - unfold non_finite. now rewrite Hx.
Qed.

(** *** All cost ranges (0, 0) *)

Lemma clip_zero_or_nan (x : float) :
  zero_or_nan x -> zero_or_nan (np_clip1 x (of_int 0) (of_int 0)).
Proof.
  intros Hx. unfold np_clip1.
  replace (isnan (of_int 0 : float)) with false by (vm_compute; reflexivity).
  destruct (x <? of_int 0); [exact I|].
  destruct (of_int 0 <? x); [exact I|exact Hx].
Qed.

Lemma uniform_values_zero (us : list float) :
  Forall zero_or_nan (uniform_values (of_int 0, of_int 0) us).
Proof.
  unfold uniform_values. apply Forall_map_intro with (Q := fun _ => True).
  - intros u _. apply zero_or_nan_add; [exact I|].
    apply zero_or_nan_mul_l. exact I.
  - apply Forall_forall. auto.
Qed.

Lemma normal_values_zero (zs : list float) :
  Forall zero_or_nan (normal_values (of_int 0, of_int 0) (of_int 0) zs).
Proof.
  unfold normal_values, skew_and_clip, np_clip, fst, snd.
  replace (negb (of_int 0 =? of_int 0)) with false by (vm_compute; reflexivity).
  rewrite map_map. apply Forall_map_intro with (Q := fun _ => True).
  - intros z _. apply clip_zero_or_nan.
    apply zero_or_nan_add; [exact I|]. apply zero_or_nan_mul_l. exact I.
  - apply Forall_forall. auto.
Qed.

Lemma table_of_zero_costs p N t :
  zero_cost_ranges p -> table_of p N t ->
  Forall zero_or_nan (total_costs t) /\ Forall non_finite (roi_percent t).
Proof.
  intros (Hi & Hd & Hp & Hm) (s & a & pr & l & adj & c & _ & _ & _ & _ & _ & Hc & ->).
  destruct Hc as (infra & data & pers & mkt & automation
                  & [g1 ->] & [g2 ->] & [g3 ->] & [g4 ->] & _ & ->).
  rewrite Hi, Hd, Hp, Hm.
  assert (Ht : Forall zero_or_nan
                 (cost_total_costs
                    (cost_streams
                       (uniform_values (of_int 0, of_int 0) (fst (draws next_double N g1)))
                       (normal_values (of_int 0, of_int 0) (of_int 0)
                          (fst (draws next_gauss N g2)))
                       (normal_values (of_int 0, of_int 0) (of_int 0)
                          (fst (draws next_gauss N g3)))
                       (uniform_values (of_int 0, of_int 0) (fst (draws next_double N g4)))
                       automation))).
  { simpl. unfold vadd, vmul.
    apply Forall_vmap2_both with (Q := zero_or_nan) (R := zero_or_nan);
      [intros; now apply zero_or_nan_add| |apply uniform_values_zero].
    apply Forall_vmap2_both with (Q := zero_or_nan) (R := zero_or_nan);
      [intros; now apply zero_or_nan_add| |].
    apply Forall_vmap2_both with (Q := zero_or_nan) (R := zero_or_nan);
      [intros; now apply zero_or_nan_add| |].
    - apply Forall_vmap2_l with (Q := zero_or_nan);
        [intros; now apply zero_or_nan_mul_l|apply uniform_values_zero].
    - apply Forall_vmap2_l with (Q := zero_or_nan);
        [intros; now apply zero_or_nan_mul_l|apply normal_values_zero].
    - apply Forall_vmap2_l with (Q := zero_or_nan);
        [intros; now apply zero_or_nan_mul_l|apply normal_values_zero]. }
  split; [exact Ht|].
  simpl. unfold vscale, vdiv.
  apply Forall_map_intro with (Q := non_finite);
    [intros; now apply non_finite_mul_l|].
  apply Forall_vmap2_r with (Q := zero_or_nan);
    [intros; now apply div_by_zero_or_nan|exact Ht].
Qed.

(** A finite number is a zero or a normalised or denormalised number. *)
Lemma isfinite_cases (x : float) :
  isfinite x = true ->
  (exists s, Prim2SF x = S754_zero s) \/ (exists s m e, Prim2SF x = S754_finite s m e).
Proof.
  intros H.
  destruct (Prim2SF x) as [s|s| |s m e] eqn:E; eauto.
  - assert (N : isfinite x = false) by (apply is_finite_false; unfold non_finite; now rewrite E).
    congruence.
  - assert (N : isfinite x = false) by (apply is_finite_false; unfold non_finite; now rewrite E).
    congruence.
Qed.

Lemma uniform_zero_exact (u : float) :
  isfinite u = true -> of_int 0 + (of_int 0 - of_int 0) * u = zero.
Proof.
  intros H. apply Prim2SF_inj. cbn. rewrite add_spec, mul_spec.
  change (Prim2SF (float_of_Z 0 - float_of_Z 0)) with (S754_zero false).
  change (Prim2SF (float_of_Z 0)) with (S754_zero false).
  change (Prim2SF zero) with (S754_zero false).
  destruct (isfinite_cases _ H) as [[s ->]|(s & m & e & ->)]; now destruct s.
Qed.

Lemma normal_zero_exact (z : float) :
  isfinite z = true ->
  np_clip1 ((of_int 0 + of_int 0) / of_int 2
            + (of_int 0 - of_int 0) / of_int 4 * z) (of_int 0) (of_int 0) = zero.
Proof.
  intros H.
  assert (E : (of_int 0 + of_int 0) / of_int 2
              + (of_int 0 - of_int 0) / of_int 4 * z = zero).
  { apply Prim2SF_inj. cbn. rewrite add_spec, mul_spec.
    change (Prim2SF ((float_of_Z 0 + float_of_Z 0) / float_of_Z 2))
      with (S754_zero false).
    change (Prim2SF ((float_of_Z 0 - float_of_Z 0) / float_of_Z 4))
      with (S754_zero false).
    change (Prim2SF zero) with (S754_zero false).
    destruct (isfinite_cases _ H) as [[s ->]|(s & m & e & ->)]; now destruct s. }
  rewrite E. vm_compute. reflexivity.
Qed.

Lemma zero_costs_sum (f1 f2 f3 : float) :
  isfinite f1 = true -> isfinite f2 = true -> isfinite f3 = true ->
  zero * f1 + zero * f2 + zero * f3 + zero = zero.
Proof.
  intros H1 H2 H3. apply Prim2SF_inj. cbn.
  rewrite !add_spec, !mul_spec. change (Prim2SF zero) with (S754_zero false).
  destruct (isfinite_cases _ H1) as [[s1 ->]|(s1 & m1 & e1 & ->)];
  destruct (isfinite_cases _ H2) as [[s2 ->]|(s2 & m2 & e2 & ->)];
  destruct (isfinite_cases _ H3) as [[s3 ->]|(s3 & m3 & e3 & ->)];
  destruct s1, s2, s3; reflexivity.
Qed.

Lemma uniform_values_zero_exact (us : list float) :
  Forall (fun u => isfinite u = true) us ->
  Forall (fun x => x = zero) (uniform_values (of_int 0, of_int 0) us).
Proof.
  intros H. unfold uniform_values.
  apply Forall_map_intro with (Q := fun u => isfinite u = true); [|exact H].
  intros u Hu. now apply uniform_zero_exact.
Qed.

Lemma normal_values_zero_exact (zs : list float) :
  Forall (fun z => isfinite z = true) zs ->
  Forall (fun x => x = zero) (normal_values (of_int 0, of_int 0) (of_int 0) zs).
Proof.
  intros H. unfold normal_values, skew_and_clip, np_clip, fst, snd.
  replace (negb (of_int 0 =? of_int 0)) with false by (vm_compute; reflexivity).
  rewrite map_map.
  apply Forall_map_intro with (Q := fun z => isfinite z = true); [|exact H].
  intros z Hz. now apply normal_zero_exact.
Qed.

(** With all four cost ranges (0, 0) the cost total of a trial is
    exactly 0 as soon as the variates are finite numbers and the
    trial's automation factors are. *)
Lemma table_of_zero_costs_exact p N t i :
  zero_cost_ranges p -> table_of p N t -> finite_variates -> (i < N)%nat ->
  automation_factors_finite (at_ (automation_savings_col t) i) = true ->
  at_ (total_costs t) i = zero.
Proof.
  intros (Hi & Hd & Hp & Hm) (s & a & pr & l & adj & c & _ & _ & _ & _ & _ & Hc & ->)
    HG Hlt Ha.
  destruct Hc as (infra & data & pers & mkt & automation
                  & Ui & Nd & Np & Um & Ua & ->).
  pose proof (uniform_sample_length Ui) as Li.
  pose proof (normal_sample_length Nd) as Ld.
  pose proof (normal_sample_length Np) as Lp.
  pose proof (uniform_sample_length Um) as Lm.
  pose proof (uniform_sample_length Ua) as La.
  destruct Ui as [g1 ->], Nd as [g2 ->], Np as [g3 ->], Um as [g4 ->].
  rewrite Hi in *. rewrite Hd in *. rewrite Hp in *. rewrite Hm in *.
  assert (FD : forall g, Forall (fun u : float => isfinite u = true)
                           (fst (draws next_double N g))).
  { intros g. apply draws_Forall. intros g0. now destruct (HG g0). }
  assert (FG : forall g, Forall (fun u : float => isfinite u = true)
                           (fst (draws next_gauss N g))).
  { intros g. apply draws_Forall. intros g0. now destruct (HG g0). }
  cbn [total_costs automation_savings_col aggregate] in *.
  destruct (cost_streams_at _ _ _ _ _ Li Ld Lp Lm La Hlt) as (E1 & E2 & E3 & E4 & ->).
  rewrite E1, E2, E3, E4.
  rewrite (Forall_at (uniform_values_zero_exact (FD g1))) by lia.
  rewrite (Forall_at (normal_values_zero_exact (FG g2))) by lia.
  rewrite (Forall_at (normal_values_zero_exact (FG g3))) by lia.
  rewrite (Forall_at (uniform_values_zero_exact (FD g4))) by lia.
  unfold automation_factors_finite in Ha.
  cbn [cost_automation_savings cost_streams] in Ha.
  apply andb_prop in Ha as [Ha A3]. apply andb_prop in Ha as [A1 A2].
  now apply zero_costs_sum.
Qed.

Lemma generate_statistics_after_run (w : World) t :
  results (self w) = Some t ->
  generate_statistics w =
    (inr (map (fun m => metric_stats (fst m) (snd m t)) key_metrics), w).
Proof.
  intros H. unfold generate_statistics, bind, get_results. rewrite H. reflexivity.
Qed.

(** C1 (as amended). A run whose argument checks pass returns a table
    whatever the drawn values are: a zero denominator does not abort
    it.  In the returned table the margin and the ROI of every trial
    are computed from that trial's own [adjusted_revenue] and
    [total_costs], so a zero denominator touches that trial only: a
    trial whose [total_costs] is zero has a non-finite [roi_percent],
    and a trial whose [adjusted_revenue] is zero has a non-finite
    [profit_margin].  [generate_statistics] then returns one row per
    key metric: median, percentiles, minimum and maximum are those of
    the column's non-NaN values, and the mean and the standard
    deviation add the values up with a NaN adding nothing and divide
    by the number of non-NaN values (NaN is left out, not zeroed into
    the average); an infinite trial value is kept, so
    a column holding one has a non-finite mean; no count of left-out
    trials is part of a row.  With all four cost ranges (0, 0),
    [roi_percent] of every trial is non-finite and [total_costs] is a
    zero or NaN; it is exactly 0 when the generator's variates and
    the trial's automation factors are finite numbers. *)
Theorem zero_denominators_do_not_abort (w : World) :
  runnable (params (self w)) (n_simulations (self w)) = true ->
  let N := Z.to_nat (n_simulations (self w)) in
  exists t w1,
    run_simulation w = (inr t, w1) /\
    (forall i, (i < N)%nat ->
       at_ (profit_margin t) i =
         (at_ (adjusted_revenue t) i - at_ (total_costs t) i)
         / at_ (adjusted_revenue t) i /\
       at_ (roi_percent t) i =
         (at_ (adjusted_revenue t) i - at_ (total_costs t) i)
         / at_ (total_costs t) i * of_int 100) /\
    (forall i, (i < N)%nat -> (at_ (total_costs t) i =? of_int 0) = true ->
       non_finite (at_ (roi_percent t) i)) /\
    (forall i, (i < N)%nat -> (at_ (adjusted_revenue t) i =? of_int 0) = true ->
       non_finite (at_ (profit_margin t) i)) /\
    generate_statistics w1 =
      (inr (map (fun m =>
                   let col := snd m t in
                   {| Metric := display_name (fst m);
                      Mean := match series_count col with
                              | O => nan
                              | S _ => fsum (fillna (of_int 0) col)
                                       / of_int (Z.of_nat (series_count col))
                              end;
                      Median := series_median (dropna col);
                      Std_Dev :=
                        let count := series_count col in
                        let avg := fsum (fillna (of_int 0) col)
                                   / of_int (Z.of_nat count) in
                        fsqrt (if (count <=? 1)%nat then nan
                               else fsum (map (fun x =>
                                             if isnan x then of_int 0
                                             else (avg - x) * (avg - x)) col)
                                    / of_int (Z.of_nat count - 1));
                      pct5 := series_quantile (lit 5 100) (dropna col);
                      pct25 := series_quantile (lit 25 100) (dropna col);
                      pct75 := series_quantile (lit 75 100) (dropna col);
                      pct95 := series_quantile (lit 95 100) (dropna col);
                      Min := series_min (dropna col);
                      Max := series_max (dropna col) |}) key_metrics), w1) /\
    (forall i s, (i < N)%nat ->
       Prim2SF (at_ (roi_percent t) i) = S754_infinity s ->
       non_finite (series_mean (roi_percent t))) /\
    (zero_cost_ranges (params (self w)) ->
     forall i, (i < N)%nat ->
       non_finite (at_ (roi_percent t) i) /\
       zero_or_nan (at_ (total_costs t) i) /\
       (finite_variates ->
        automation_factors_finite (at_ (automation_savings_col t) i) = true ->
        at_ (total_costs t) i = zero)).
Proof.
  intros Hrun N.
  destruct (run_simulation_ok w Hrun) as (t & w1 & E).
  exists t, w1. split; [exact E|].
  pose proof E as E'. apply run_simulation_inr in E' as (_ & Ht & Hres & _).
  pose proof (table_of_rows Ht) as Hr. unfold rows in Hr.
  assert (Hlc : List.length (total_costs t) = N) by tauto.
  assert (Hlr : List.length (roi_percent t) = N) by tauto.
  split; [|split; [|split; [|split; [|split]]]].
  - intros i Hi.
    pose proof E as E'. apply run_simulation_columns with (i := i) in E'; [|exact Hi].
    destruct E' as (Eg & Em & Er & _). rewrite Em, Er, Eg. split; reflexivity.
  - intros i Hi Hz.
    pose proof E as E'. apply run_simulation_columns with (i := i) in E'; [|exact Hi].
    destruct E' as (_ & _ & -> & _).
    apply non_finite_mul_l, div_by_zero_or_nan, eqb_zero, Hz.
  - intros i Hi Hz.
    pose proof E as E'. apply run_simulation_columns with (i := i) in E'; [|exact Hi].
    destruct E' as (_ & -> & _).
    apply div_by_zero_or_nan, eqb_zero, Hz.
  - rewrite generate_statistics_after_run with (t := t) by exact Hres.
    f_equal. f_equal. apply map_ext. intros m.
    cbv zeta. exact (metric_stats_skipna (F := float) (fst m) (snd m t)).
  - intros i s Hi Hinf.
    apply series_mean_infinite with (x := at_ (roi_percent t) i) (s := s);
      [|exact Hinf].
    unfold at_. apply nth_In. lia.
  - intros Hz i Hi.
    destruct (table_of_zero_costs Hz Ht) as [Hc Hroi].
    split; [apply Forall_at; solve [assumption | lia]|].
    split; [apply Forall_at; solve [assumption | lia]|].
    intros HG Ha. now apply table_of_zero_costs_exact with (p := params (self w)) (N := N).
Qed.

End NonFinite.

Lemma counter_double_finite (k : nat) :
  isfinite (lit (Z.of_nat (k mod 8)) 8 : float) = true.
Proof.
  pose proof (Nat.mod_upper_bound k 8 ltac:(lia)) as H8.
  destruct (k mod 8)%nat as [|[|[|[|[|[|[|[|n]]]]]]]];
    [vm_compute; reflexivity ..|lia].
Qed.

Lemma counter_gauss_finite (k : nat) :
  isfinite (lit (Z.of_nat (k mod 5) - 2) 2 : float) = true.
Proof.
  pose proof (Nat.mod_upper_bound k 5 ltac:(lia)) as H5.
  destruct (k mod 5)%nat as [|[|[|[|[|n]]]]];
    [vm_compute; reflexivity ..|lia].
Qed.

Lemma counter_finite_variates : finite_variates (G := counter_generator).
Proof.
  intros k. split; [apply counter_double_finite|apply counter_gauss_finite].
Qed.

Lemma zero_cost_table_returned :
  run_simulation zero_cost_world
  = (inr zero_cost_table, snd (run_simulation zero_cost_world)).
Proof. apply method_returns. vm_compute. reflexivity. Qed.

Lemma zero_denominators_do_not_abort_witness :
  exists t w1,
    run_simulation zero_cost_world = (inr t, w1) /\
    (forall i, (i < 3)%nat ->
       at_ (total_costs t) i = zero /\
       non_finite (at_ (roi_percent t) i) /\
       at_ (roi_percent t) i =
         fmul (fdiv (fsub (at_ (adjusted_revenue t) i) (at_ (total_costs t) i))
                    (at_ (total_costs t) i)) (of_int 100)) /\
    exists rows, generate_statistics w1 = (inr rows, w1) /\ List.length rows = 6%nat.
Proof.
  destruct (@zero_denominators_do_not_abort counter_generator zero_cost_world)
    as (t & w1 & E & Hrow & _ & _ & Hst & _ & Hz); [vm_compute; reflexivity|].
  exists t, w1. split; [exact E|]. split.
  - intros i Hi.
    assert (Et : t = zero_cost_table).
    { pose proof zero_cost_table_returned as E2. rewrite E in E2. now inversion E2. }
    assert (Hzc : zero_cost_ranges (params (self zero_cost_world)))
      by (repeat split).
    destruct (Hz Hzc i Hi) as (Hnf & _ & H0).
    split; [|split; [exact Hnf|apply Hrow, Hi]].
    apply H0; [exact counter_finite_variates|].
    rewrite Et. destruct i as [|[|[|i]]]; try (vm_compute; reflexivity).
    simpl in Hi. lia.
  - eexists. split; [exact Hst|]. reflexivity.
Defined.

(** C1 (counterexample). All four cost ranges (0, 0), three trials:
    every [total_costs] is 0 and every [roi_percent] is +infinity, so
    the spec's summary would leave out all three values (exclusion
    count 3) and have no value to average.  [generate_statistics]
    leaves none out: the three values are counted, and the
    "Roi Percent" row has mean, minimum and maximum +infinity. *)
Lemma statistics_keep_infinite_roi :
  exists w1 rows r,
    run_simulation zero_cost_world = (inr zero_cost_table, w1) /\
    generate_statistics w1 = (inr rows, w1) /\
    total_costs zero_cost_table = [zero; zero; zero] /\
    roi_percent zero_cost_table = [infinity; infinity; infinity] /\
    exclusion_count (roi_percent zero_cost_table) = 3%nat /\
    series_count (roi_percent zero_cost_table) = 3%nat /\
    nth_error rows 3 = Some r /\
    Metric r = "Roi Percent"%string /\
    Mean r = infinity /\ Min r = infinity /\ Max r = infinity /\
    r <> metric_stats "roi_percent" (finite_values (roi_percent zero_cost_table)).
Proof.
  exists (snd (run_simulation zero_cost_world)). eexists. eexists.
  split; [apply method_returns; vm_compute; reflexivity|].
  split.
  { rewrite (method_returns generate_statistics (snd (run_simulation zero_cost_world))
               (x := map (fun m => metric_stats (fst m) (snd m zero_cost_table))
                         key_metrics)) by (vm_compute; reflexivity).
    f_equal. }
  repeat split; try (vm_compute; reflexivity).
  vm_compute. intros H. inversion H.
Qed.

(** ** Parameter ranges are not validated *)

Section Validation.
Context {F : Type} {NF : Num F} {G : Generator F}.


(** A reversed range of the first integer factor makes a run of at
    least one trial raise [ValueError("low >= high")] and leaves the
    process state as it was. *)
Theorem reversed_integer_range_refused (w : World) :
  let r := basic_subscribers (params (self w)) in
  n_simulations (self w) <> 0%Z ->
  (int64_min <= fst r <= int64_max)%Z -> (snd r < fst r)%Z ->
  run_simulation w = (inl (ValueError "low >= high"), w).
Proof.
  intros r H0 [H1 H2] H3.
  unfold run_simulation, simulate_subscription_revenue, bind at 1, bind at 1,
    get_params, bind at 1, _sample_integer, bind at 1, get_n, np_random_randint.
  fold r. replace (snd r + 1 - 1)%Z with (snd r) by lia.
  destruct (Z.eqb_spec (n_simulations (self w)) 0); [contradiction|].
  destruct (Z.ltb_spec (fst r) int64_min); [lia|].
  destruct (Z.ltb_spec int64_max (snd r)); [lia|].
  destruct (Z.ltb_spec (snd r) (fst r)); [|lia].
  reflexivity.
Qed.

(** A negative trial count is refused by the first draw, before the
    generator is used. *)
Theorem negative_trial_count_refused (w : World) :
  integer_ok (basic_subscribers (params (self w))) = true ->
  (n_simulations (self w) < 0)%Z ->
  run_simulation w = (inl (ValueError "negative dimensions are not allowed"), w).
Proof.
  intros Ho Hn. unfold integer_ok in Ho.
  apply andb_prop in Ho as [Ho H3]. apply andb_prop in Ho as [H1 H2].
  apply Z.leb_le in H1, H2, H3.
  unfold run_simulation, simulate_subscription_revenue, bind at 1, bind at 1,
    get_params, bind at 1, _sample_integer, bind at 1, get_n, np_random_randint.
  set (r := basic_subscribers (params (self w))) in *.
  replace (snd r + 1 - 1)%Z with (snd r) by lia.
  destruct (Z.eqb_spec (n_simulations (self w)) 0); [lia|].
  destruct (Z.ltb_spec (fst r) int64_min); [lia|].
  destruct (Z.ltb_spec int64_max (snd r)); [lia|].
  destruct (Z.ltb_spec (snd r) (fst r)); [lia|].
  unfold check_size. destruct (Z.ltb_spec (n_simulations (self w)) 0); [|lia].
  reflexivity.
Qed.

End Validation.

Section DefaultRun.
Context {G : Generator float}.


End DefaultRun.

(** An example: the basic-price range (49, 29) has
    [low > high]; the engine is constructed on it and the run returns
    a table: nothing fails. *)
Lemma reversed_range_is_accepted :
  let p := with_basic_price (of_int 49, of_int 29) (default_parameters (F := float)) in
  fltb (snd (basic_price p)) (fst (basic_price p)) = true /\
  self reversed_price_world = __init__ p 3 /\
  exists t w', run_simulation reversed_price_world = (inr t, w') /\
    List.length (gross_profit t) = 3%nat.
Proof.
  split; [vm_compute; reflexivity|]. split; [reflexivity|].
  eexists. eexists.
  split; [apply method_returns; vm_compute; reflexivity|reflexivity].
Qed.


Lemma reversed_integer_range_refused_witness :
  run_simulation reversed_subscribers_world =
  (inl (ValueError "low >= high"), reversed_subscribers_world).
Proof.
  apply (@reversed_integer_range_refused float _ _ reversed_subscribers_world).
  - simpl. lia.
  - vm_compute. split; intros H; discriminate.
  - simpl. lia.
Defined.

Lemma negative_trial_count_refused_witness :
  run_simulation negative_count_world =
  (inl (ValueError "negative dimensions are not allowed"), negative_count_world).
Proof.
  apply (@negative_trial_count_refused float _ _ negative_count_world).
  - reflexivity.
  - simpl. lia.
Defined.

(** ** Shape of the returned table *)

Section TableShape.
Context {F : Type} {NF : Num F} {G : Generator F}.

(** A returned table has one row per trial in every one of its twenty
    columns, is stored in [self.results], and the run leaves the
    parameter set and the trial count of the engine untouched. *)
Theorem run_simulation_table_shape (w : World) t w' :
  run_simulation w = (inr t, w') ->
  rows (Z.to_nat (n_simulations (self w))) t /\
  results (self w') = Some t /\
  params (self w') = params (self w) /\
  n_simulations (self w') = n_simulations (self w).
Proof.
  intros H. apply run_simulation_inr in H as (_ & Ht & Hr & Hp & Hn).
  split; [now apply table_of_rows with (p := params (self w))|auto].
Qed.

End TableShape.

Lemma run_simulation_table_shape_witness :
  rows (Z.to_nat (n_simulations (self demo_world))) demo_table /\
  results (self (set_results (set_rng demo_world 120%nat) demo_table)) = Some demo_table /\
  params (self (set_results (set_rng demo_world 120%nat) demo_table)) =
    params (self demo_world) /\
  n_simulations (self (set_results (set_rng demo_world 120%nat) demo_table)) =
    n_simulations (self demo_world).
Proof.
  apply (@run_simulation_table_shape float _ _ demo_world demo_table
           (set_results (set_rng demo_world 120%nat) demo_table)).
  exact demo_run.
Defined.

(** ** Range containment of the samplers *)

Section ClampedSamples.
Context {G : Generator float}.
Local Open Scope num_scope.

Lemma np_clip1_nan_inv (x lo hi : float) :
  isnan (np_clip1 x lo hi) = false -> isnan x = false.
Proof.
  destruct (isnan x) eqn:E; [|reflexivity].
  apply isnan_nan in E. subst x. rewrite clip_nan. intros H. exact H.
Qed.

(** Every value returned by the bounded skewed-normal sampler for a
    range with [low <= high] is either NaN or inside [low, high]: the
    clamp holds for whatever the draw and the skew transform produce,
    NaN apart. *)
Theorem bounded_normal_in_range_or_nan (r : float * float) (skew : float)
  (w : World) xs w' :
  _sample_normal_bounded r skew w = (inr xs, w') ->
  (fst r <=? snd r) = true ->
  Forall (fun x => isnan x = false ->
                   (fst r <=? x) = true /\ (x <=? snd r) = true) xs.
Proof.
  intros H Hr. apply _sample_normal_bounded_inr in H as (_ & _ & [g ->] & _).
  unfold normal_values, skew_and_clip, np_clip.
  apply Forall_map_intro with (Q := fun _ => True); [|apply Forall_forall; auto].
  intros x _ Hx. apply np_clip1_in_range; [|exact Hr].
  now apply np_clip1_nan_inv in Hx.
Qed.

End ClampedSamples.

Lemma bounded_normal_in_range_or_nan_witness :
  Forall (fun x : float => isnan x = false ->
            fleb (of_int 2000) x = true /\ fleb x (of_int 15000) = true)
    (match fst (_sample_normal_bounded (of_int 2000, of_int 15000) (lit 2 10) demo_world)
     with inr xs => xs | inl _ => [] end).
Proof.
  apply (@bounded_normal_in_range_or_nan counter_generator
           (of_int 2000, of_int 15000) (lit 2 10) demo_world _
           (snd (_sample_normal_bounded (of_int 2000, of_int 15000) (lit 2 10) demo_world))).
  - apply method_returns. vm_compute. reflexivity.
  - vm_compute. reflexivity.
Defined.

Section IntegerSamples.
Context {F : Type} {NF : Num F} {G : Generator F}.

Lemma wrap_int64_id z : (int64_min <= z <= int64_max)%Z -> wrap_int64 z = z.
Proof.
  unfold wrap_int64, int64_min, int64_max. intros H.
  rewrite Z.mod_small; lia.
Qed.


Lemma integer_sample_bounds (r : Z * Z) N ks :
  interval_ok -> integer_ok r = true -> integer_sample r N ks ->
  Forall (fun k => (fst r <= k <= snd r)%Z) ks.
Proof.
  intros HG Ho [g ->]. unfold integer_ok in Ho.
  apply andb_prop in Ho as [Ho H3]. apply andb_prop in Ho as [H1 H2].
  apply Z.leb_le in H1, H2, H3.
  unfold integer_values.
  apply Forall_map_intro with (Q := fun k => (0 <= k <= snd r - fst r)%Z).
  - intros k Hk. rewrite wrap_int64_id; lia.
  - apply draws_Forall. intros g0. apply HG. lia.
Qed.

(** Under the generator's contract every integer sample lies in the
    inclusive range [low, high] (no [int64] wrap-around occurs). *)
Theorem integer_sample_in_range (r : Z * Z) (w : World) ks w' :
  interval_ok ->
  _sample_integer r w = (inr ks, w') ->
  Forall (fun k => (fst r <= k <= snd r)%Z) ks.
Proof.
  intros HG H. apply _sample_integer_inr in H as (Ho & _ & Hs & _).
  unfold randint_ok in Ho. apply orb_prop in Ho as [E0|Ho].
  - apply Z.eqb_eq in E0. rewrite E0 in Hs. destruct Hs as [g ->]. constructor.
  - now apply integer_sample_bounds with (N := Z.to_nat (n_simulations (self w))).
Qed.

End IntegerSamples.

Lemma counter_interval_ok {F} `{Num F} : interval_ok (F := F).
Proof.
  intros mx g Hmx. simpl.
  pose proof (Z.mod_pos_bound (Z.of_nat g) (mx + 1)). lia.
Qed.

Lemma integer_sample_in_range_witness :
  Forall (fun k => (50 <= k <= 300)%Z)
    (match fst (_sample_integer (50, 300)%Z demo_world) with
     | inr ks => ks
     | inl _ => []
     end).
Proof.
  apply integer_sample_in_range
    with (r := (50, 300)%Z) (w := demo_world)
         (w' := snd (_sample_integer (50, 300)%Z demo_world)).
  - apply counter_interval_ok.
  - apply method_returns. vm_compute. reflexivity.
Defined.

(** ** The real-number reading of the samplers *)

Section RealSamples.
Context {G : Generator R}.
Local Open Scope R_scope.

Lemma uniform_sample_bounds_real (r : R * R) N xs :
  unit_ok -> uniform_sample r N xs -> fst r <= snd r ->
  Forall (fun x => fst r <= x <= snd r) xs.
Proof.
  intros HG [g ->] Hr. unfold uniform_values.
  apply Forall_map_intro with (Q := fun u => 0 <= u < 1).
  - intros u Hu. cbn. nra.
  - apply draws_Forall. exact HG.
Qed.

(** In real arithmetic, under the generator's contract, every uniform
    sample of a range with [low <= high] lies in [low, high]. *)
Theorem uniform_sample_in_range_real (r : R * R) (w : World) xs w' :
  unit_ok ->
  _sample_uniform r w = (inr xs, w') ->
  fst r <= snd r ->
  Forall (fun x => fst r <= x <= snd r) xs.
Proof.
  intros HG H Hr. apply _sample_uniform_inr in H as (_ & _ & Hs & _).
  now apply uniform_sample_bounds_real with (N := Z.to_nat (n_simulations (self w))).
Qed.

End RealSamples.

Lemma counter_unit_ok : unit_ok (H := counter_generator).
Proof.
  intros g.
  change (fst (next_double g)) with (IZR (Z.of_nat (g mod 8)) / 8)%R.
  pose proof (Nat.mod_upper_bound g 8 ltac:(lia)) as Hb.
  assert (H1 : (0 <= IZR (Z.of_nat (g mod 8)) <= 7)%R).
  { split; apply IZR_le; lia. }
  lra.
Qed.

Lemma method_returns_list {F} `{Num F} `{Generator F} {A} (m : M (list A)) w :
  (exists xs w', m w = (inr xs, w')) ->
  m w = (inr (match fst (m w) with inr xs => xs | inl _ => [] end), snd (m w)).
Proof. intros (xs & w' & E). rewrite E. reflexivity. Qed.

Lemma uniform_sample_in_range_real_witness :
  Forall (fun x => (29 <= x <= 49)%R)
    (match fst (_sample_uniform (29%R, 49%R) real_world) with
     | inr xs => xs
     | inl _ => []
     end).
Proof.
  apply uniform_sample_in_range_real
    with (r := (29%R, 49%R)) (w := real_world)
         (w' := snd (_sample_uniform (29%R, 49%R) real_world)).
  - apply counter_unit_ok.
  - apply method_returns_list.
    destruct (@_sample_uniform_ok R _ _ (29%R, 49%R) real_world (self real_world))
      as (xs & w' & E & _); [reflexivity|reflexivity|simpl; lia|].
    exists xs, w'. exact E.
  - simpl. lra.
Defined.

(** ** Subscription stream *)

Section Subscription.
Context {F : Type} {NF : Num F} {G : Generator F}.
Local Open Scope num_scope.

Lemma subscription_streams_at bs ps es (bp pp ep churn : list F) N i :
  List.length bs = N -> List.length ps = N -> List.length es = N ->
  List.length bp = N -> List.length pp = N -> List.length ep = N ->
  List.length churn = N -> (i < N)%nat ->
  let s := subscription_streams bs ps es bp pp ep churn in
  let retention := of_int 1 - at_ churn i in
  at_ (basic s) i = of_int (nth i bs 0%Z) * at_ bp i * retention /\
  at_ (pro s) i = of_int (nth i ps 0%Z) * at_ pp i * retention /\
  at_ (enterprise s) i = of_int (nth i es 0%Z) * at_ ep i * retention /\
  at_ (total_subscription s) i =
    at_ (basic s) i + at_ (pro s) i + at_ (enterprise s) i /\
  at_ (sub_total_subscribers s) i =
    of_int (wrap_int64 (wrap_int64 (nth i bs 0 + nth i ps 0) + nth i es 0)%Z)
    * retention.
Proof.
  intros Hbs Hps Hes Hbp Hpp Hep Hch Hi. simpl.
  unfold vadd, vmul, vimul, viadd, vrsub, at_.
  assert (Hr : List.length (map (fun x => of_int 1 - x) churn) = N)
    by now rewrite length_map.
  assert (Hb : List.length (vmap2 (fun k x => of_int k * x) bs bp) = N)
    by now apply len_vmap2.
  assert (Hp : List.length (vmap2 (fun k x => of_int k * x) ps pp) = N)
    by now apply len_vmap2.
  assert (He : List.length (vmap2 (fun k x => of_int k * x) es ep) = N)
    by now apply len_vmap2.
  assert (Hs1 : List.length (vmap2 (fun x y => wrap_int64 (x + y)%Z) bs ps) = N)
    by now apply len_vmap2.
  assert (Hs2 : List.length (vmap2 (fun x y => wrap_int64 (x + y)%Z)
                    (vmap2 (fun x y => wrap_int64 (x + y)%Z) bs ps) es) = N)
    by now apply len_vmap2.
  assert (Hbr : List.length (vmap2 fmul (vmap2 (fun k x => of_int k * x) bs bp)
                               (map (fun x => of_int 1 - x) churn)) = N)
    by now apply len_vmap2.
  assert (Hpr : List.length (vmap2 fmul (vmap2 (fun k x => of_int k * x) ps pp)
                               (map (fun x => of_int 1 - x) churn)) = N)
    by now apply len_vmap2.
  assert (Her : List.length (vmap2 fmul (vmap2 (fun k x => of_int k * x) es ep)
                               (map (fun x => of_int 1 - x) churn)) = N)
    by now apply len_vmap2.
  assert (Hbp2 : List.length (vmap2 fadd
                    (vmap2 fmul (vmap2 (fun k x => of_int k * x) bs bp)
                       (map (fun x => of_int 1 - x) churn))
                    (vmap2 fmul (vmap2 (fun k x => of_int k * x) ps pp)
                       (map (fun x => of_int 1 - x) churn))) = N)
    by now apply len_vmap2.
  repeat split.
  - rewrite (nth_vmap2 fmul fnan fnan) by lia.
    rewrite (nth_vmap2 (fun k x => of_int k * x) 0%Z fnan) by lia.
    rewrite (nth_map' (fun x => of_int 1 - x) fnan) by lia. reflexivity.
  - rewrite (nth_vmap2 fmul fnan fnan) by lia.
    rewrite (nth_vmap2 (fun k x => of_int k * x) 0%Z fnan) by lia.
    rewrite (nth_map' (fun x => of_int 1 - x) fnan) by lia. reflexivity.
  - rewrite (nth_vmap2 fmul fnan fnan) by lia.
    rewrite (nth_vmap2 (fun k x => of_int k * x) 0%Z fnan) by lia.
    rewrite (nth_map' (fun x => of_int 1 - x) fnan) by lia. reflexivity.
  - rewrite (nth_vmap2 fadd fnan fnan) by lia.
    rewrite (nth_vmap2 fadd fnan fnan) by lia. reflexivity.
  - rewrite (nth_vmap2 (fun k x => of_int k * x) 0%Z fnan) by lia.
    rewrite (nth_vmap2 (fun x y => wrap_int64 (x + y)%Z) 0%Z 0%Z) by lia.
    rewrite (nth_vmap2 (fun x y => wrap_int64 (x + y)%Z) 0%Z 0%Z) by lia.
    rewrite (nth_map' (fun x => of_int 1 - x) fnan) by lia. reflexivity.
Qed.

(** In every trial the three tier revenues and the subscriber total
    are scaled by one and the same retention factor [1 - churn]: a
    single churn draw per trial, applied unclamped. *)
Theorem subscription_shares_one_churn (w : World) s w' :
  simulate_subscription_revenue w = (inr s, w') ->
  let p := params (self w) in
  let N := Z.to_nat (n_simulations (self w)) in
  exists bs ps es bp pp ep churn,
    integer_sample (basic_subscribers p) N bs /\
    integer_sample (pro_subscribers p) N ps /\
    integer_sample (enterprise_subscribers p) N es /\
    uniform_sample (basic_price p) N bp /\
    uniform_sample (pro_price p) N pp /\
    uniform_sample (enterprise_price p) N ep /\
    uniform_sample (churn_rate p) N churn /\
    forall i, (i < N)%nat ->
      let retention := of_int 1 - at_ churn i in
      at_ (basic s) i = of_int (nth i bs 0%Z) * at_ bp i * retention /\
      at_ (pro s) i = of_int (nth i ps 0%Z) * at_ pp i * retention /\
      at_ (enterprise s) i = of_int (nth i es 0%Z) * at_ ep i * retention /\
      at_ (total_subscription s) i =
        at_ (basic s) i + at_ (pro s) i + at_ (enterprise s) i /\
      at_ (sub_total_subscribers s) i =
        of_int (wrap_int64 (wrap_int64 (nth i bs 0 + nth i ps 0) + nth i es 0)%Z)
        * retention.
Proof.
  intros H p N. apply simulate_subscription_revenue_inr in H as (_ & _ & Hs & _).
  destruct Hs as (bs & ps & es & bp & pp & ep & churn
                  & H1 & H2 & H3 & H4 & H5 & H6 & H7 & ->).
  exists bs, ps, es, bp, pp, ep, churn. repeat (split; [assumption|]).
  intros i Hi.
  apply subscription_streams_at with (N := N); auto;
    first [ eapply integer_sample_length; eassumption
          | eapply uniform_sample_length; eassumption ].
Qed.

End Subscription.

Lemma subscription_shares_one_churn_witness :
  let p := params (self demo_world) in
  let N := Z.to_nat (n_simulations (self demo_world)) in
  let s := demo_subscription in
  exists bs ps es bp pp ep churn,
    integer_sample (basic_subscribers p) N bs /\
    integer_sample (pro_subscribers p) N ps /\
    integer_sample (enterprise_subscribers p) N es /\
    uniform_sample (basic_price p) N bp /\
    uniform_sample (pro_price p) N pp /\
    uniform_sample (enterprise_price p) N ep /\
    uniform_sample (churn_rate p) N churn /\
    forall i, (i < N)%nat ->
      let retention := fsub (of_int 1) (at_ churn i) in
      at_ (basic s) i = fmul (fmul (of_int (nth i bs 0%Z)) (at_ bp i)) retention /\
      at_ (pro s) i = fmul (fmul (of_int (nth i ps 0%Z)) (at_ pp i)) retention /\
      at_ (enterprise s) i = fmul (fmul (of_int (nth i es 0%Z)) (at_ ep i)) retention /\
      at_ (total_subscription s) i =
        fadd (fadd (at_ (basic s) i) (at_ (pro s) i)) (at_ (enterprise s) i) /\
      at_ (sub_total_subscribers s) i =
        fmul (of_int (wrap_int64 (wrap_int64 (nth i bs 0 + nth i ps 0) + nth i es 0)%Z))
             retention.
Proof.
  apply subscription_shares_one_churn
    with (w := demo_world) (w' := snd (simulate_subscription_revenue demo_world)).
  apply method_returns. vm_compute. reflexivity.
Defined.

(** ** The churn bound, in real arithmetic *)

Section ChurnBound.
Context {G : Generator R}.
Local Open Scope R_scope.


End ChurnBound.



(** ** Market adjustment *)

Section Market.
Context {F : Type} {NF : Num F} {G : Generator F}.
Local Open Scope num_scope.

Lemma sports_composite_at (b1 b2 b3 b4 : list F) N i :
  List.length b1 = N -> List.length b2 = N -> List.length b3 = N ->
  List.length b4 = N -> (i < N)%nat ->
  List.length (sports_composite b1 b2 b3 b4) = N /\
  at_ (sports_composite b1 b2 b3 b4) i =
    at_ b1 i * w_baseball + at_ b2 i * w_football + at_ b3 i * w_basketball
    + at_ b4 i * w_track.
Proof.
  intros H1 H2 H3 H4 Hi. unfold sports_composite, vadd, vscale.
  assert (L1 : List.length (map (fun x => x * w_baseball) b1) = N) by now apply len_map.
  assert (L2 : List.length (map (fun x => x * w_football) b2) = N) by now apply len_map.
  assert (L3 : List.length (map (fun x => x * w_basketball) b3) = N) by now apply len_map.
  assert (L4 : List.length (map (fun x => x * w_track) b4) = N) by now apply len_map.
  assert (L12 : List.length (vmap2 fadd (map (fun x => x * w_baseball) b1)
                               (map (fun x => x * w_football) b2)) = N)
    by now apply len_vmap2.
  assert (L123 : List.length (vmap2 fadd
                    (vmap2 fadd (map (fun x => x * w_baseball) b1)
                       (map (fun x => x * w_football) b2))
                    (map (fun x => x * w_basketball) b3)) = N)
    by now apply len_vmap2.
  split; [now apply len_vmap2|].
  rewrite !at_vmap2 by lia. rewrite !at_map by lia. reflexivity.
Qed.

Lemma market_adjust_at (base se gr ef sf : list F) N i :
  List.length base = N -> List.length se = N -> List.length gr = N ->
  List.length ef = N -> List.length sf = N -> (i < N)%nat ->
  at_ (market_adjust base se gr ef sf) i =
    at_ base i * at_ se i * at_ gr i * at_ ef i * at_ sf i.
Proof.
  intros H0 H1 H2 H3 H4 Hi. unfold market_adjust, vmul.
  assert (L1 : List.length (vmap2 fmul base se) = N) by now apply len_vmap2.
  assert (L2 : List.length (vmap2 fmul (vmap2 fmul base se) gr) = N)
    by now apply len_vmap2.
  assert (L3 : List.length (vmap2 fmul (vmap2 fmul (vmap2 fmul base se) gr) ef) = N)
    by now apply len_vmap2.
  rewrite !at_vmap2 by lia. reflexivity.
Qed.

(** In a returned table, gross revenue is the sum of the four stream
    columns, and adjusted revenue is gross revenue times the trial's
    seasonality, growth and efficiency samples and the sport composite
    0.35 baseball + 0.30 football + 0.25 basketball + 0.10 track, all
    drawn for that run from the ranges of the parameter set. *)
Theorem adjusted_revenue_formula (w : World) t w' :
  run_simulation w = (inr t, w') ->
  let p := params (self w) in
  let N := Z.to_nat (n_simulations (self w)) in
  exists se gr ef b1 b2 b3 b4,
    uniform_sample (seasonality_factor p) N se /\
    uniform_sample (market_growth_rate p) N gr /\
    uniform_sample (platform_efficiency p) N ef /\
    uniform_sample (baseball_impact p) N b1 /\
    uniform_sample (football_impact p) N b2 /\
    uniform_sample (basketball_impact p) N b3 /\
    uniform_sample (track_field_impact p) N b4 /\
    forall i, (i < N)%nat ->
      at_ (gross_revenue t) i =
        at_ (subscription_revenue t) i + at_ (api_revenue t) i
        + at_ (project_revenue t) i + at_ (licensing_revenue t) i /\
      at_ (adjusted_revenue t) i =
        at_ (gross_revenue t) i * at_ se i * at_ gr i * at_ ef i
        * (at_ b1 i * w_baseball + at_ b2 i * w_football
           + at_ b3 i * w_basketball + at_ b4 i * w_track).
Proof.
  intros H p N. apply run_simulation_inr in H as (_ & Ht & _).
  fold p N in Ht. pose proof (table_of_rows Ht) as Hr. unfold rows in Hr.
  destruct Ht as (s & a & pr & l & adj & c & _ & _ & _ & _ & Hm & _ & ->).
  destruct Hm as (se & gr & ef & b1 & b2 & b3 & b4
                  & S1 & S2 & S3 & S4 & S5 & S6 & S7 & ->).
  exists se, gr, ef, b1, b2, b3, b4. repeat (split; [assumption|]).
  simpl in Hr. decompose [and] Hr. clear Hr.
  intros i Hi. simpl.
  pose proof (uniform_sample_length S1). pose proof (uniform_sample_length S2).
  pose proof (uniform_sample_length S3). pose proof (uniform_sample_length S4).
  pose proof (uniform_sample_length S5). pose proof (uniform_sample_length S6).
  pose proof (uniform_sample_length S7).
  destruct (@sports_composite_at b1 b2 b3 b4 N i) as [Lc Ec]; auto.
  split.
  - unfold total_revenue_of, vadd.
    assert (La : List.length (vmap2 fadd (total_subscription s) (total_api a)) = N)
      by now apply len_vmap2.
    assert (Lb : List.length (vmap2 fadd
                    (vmap2 fadd (total_subscription s) (total_api a))
                    (total_projects pr)) = N) by now apply len_vmap2.
    rewrite !at_vmap2 by lia. reflexivity.
  - rewrite market_adjust_at with (N := N) by assumption.
    rewrite Ec. reflexivity.
Qed.

End Market.

Lemma adjusted_revenue_formula_witness :
  let p := params (self demo_world) in
  let N := Z.to_nat (n_simulations (self demo_world)) in
  let t := demo_table in
  exists se gr ef b1 b2 b3 b4,
    uniform_sample (seasonality_factor p) N se /\
    uniform_sample (market_growth_rate p) N gr /\
    uniform_sample (platform_efficiency p) N ef /\
    uniform_sample (baseball_impact p) N b1 /\
    uniform_sample (football_impact p) N b2 /\
    uniform_sample (basketball_impact p) N b3 /\
    uniform_sample (track_field_impact p) N b4 /\
    forall i, (i < N)%nat ->
      at_ (gross_revenue t) i =
        fadd (fadd (fadd (at_ (subscription_revenue t) i) (at_ (api_revenue t) i))
                   (at_ (project_revenue t) i)) (at_ (licensing_revenue t) i) /\
      at_ (adjusted_revenue t) i =
        fmul (fmul (fmul (fmul (at_ (gross_revenue t) i) (at_ se i)) (at_ gr i))
                   (at_ ef i))
             (fadd (fadd (fadd (fmul (at_ b1 i) w_baseball) (fmul (at_ b2 i) w_football))
                         (fmul (at_ b3 i) w_basketball))
                   (fmul (at_ b4 i) w_track)).
Proof.
  apply adjusted_revenue_formula
    with (w := demo_world) (w' := set_results (set_rng demo_world 120%nat) demo_table).
  exact demo_run.
Defined.

(** ** The sport composite, in real arithmetic *)

Section Composite.
Local Open Scope R_scope.


End Composite.


(** ** Sorting by a float key *)

Lemma Forall_perm {A} (P : A -> Prop) l l' :
  Permutation l l' -> Forall P l -> Forall P l'.
Proof.
  intros Hp H. rewrite Forall_forall in *. intros x Hx. apply H.
  eapply Permutation_in; [symmetry; exact Hp|exact Hx].
Qed.

Section SortValues.
Context {A : Type} (key : A -> float).

Lemma insert_desc_perm x l : Permutation (insert_desc key x l) (x :: l).
Proof.
  induction l as [|y l IH]; cbn [insert_desc]; [constructor; constructor|].
  destruct (fleb (key y) (key x)); [reflexivity|].
  rewrite IH. apply perm_swap.
Qed.

Lemma sort_desc_perm l : Permutation (fold_right (insert_desc key) [] l) l.
Proof.
  induction l as [|x l IH]; cbn [fold_right]; [constructor|].
  rewrite insert_desc_perm. now constructor.
Qed.

Lemma insert_desc_sorted x l :
  isnan (key x) = false ->
  Forall (fun r => isnan (key r) = false) l ->
  StronglySorted (fun a b => fleb (key b) (key a) = true) l ->
  StronglySorted (fun a b => fleb (key b) (key a) = true) (insert_desc key x l).
Proof.
  intros Hx Hl Hs. induction Hs as [|y l Hs IH Hy]; cbn [insert_desc].
  - constructor; constructor.
  - inversion Hl as [|? ? Hny Hl']; subst.
    destruct (fleb (key y) (key x)) eqn:E.
    + constructor; [constructor; assumption|].
      constructor; [exact E|].
      eapply Forall_impl; [|exact Hy]. intros z Hz. simpl in Hz.
      now apply leb_trans with (y := key y).
    + constructor; [now apply IH|].
      apply Forall_perm with (l := x :: l);
        [symmetry; apply insert_desc_perm|].
      constructor; [|exact Hy].
      now apply leb_total.
Qed.

Lemma sort_desc_sorted l :
  Forall (fun r => isnan (key r) = false) l ->
  StronglySorted (fun a b => fleb (key b) (key a) = true)
    (fold_right (insert_desc key) [] l).
Proof.
  induction 1 as [|x l Hx Hl IH]; cbn [fold_right]; [constructor|].
  apply insert_desc_sorted; auto.
  apply Forall_perm with (l := l); [symmetry; apply sort_desc_perm|exact Hl].
Qed.

Lemma filter_partition_perm (f : A -> bool) l :
  Permutation (filter f l ++ filter (fun x => negb (f x)) l) l.
Proof.
  induction l as [|x l IH]; simpl; [constructor|].
  destruct (f x); simpl.
  - now constructor.
  - rewrite <- Permutation_middle. now constructor.
Qed.

(** [sort_values] keeps every row, orders the rows with a number in
    the key column from the largest key down, and puts the rows whose
    key is NaN after them. *)
Lemma sort_values_desc_spec rows :
  Permutation (sort_values_desc key rows) rows /\
  descending_nan_last key (sort_values_desc key rows).
Proof.
  unfold sort_values_desc. split.
  - rewrite sort_desc_perm.
    rewrite (filter_ext (fun r => isnan (key r)) (fun r => negb (notna (key r)))).
    + apply filter_partition_perm.
    + intros r. unfold notna. now rewrite negb_involutive.
  - exists (fold_right (insert_desc key) [] (filter (fun r => notna (key r)) rows)),
           (filter (fun r => isnan (key r)) rows).
    assert (Hf : Forall (fun r => isnan (key r) = false)
                   (filter (fun r => notna (key r)) rows)).
    { apply Forall_forall. intros r Hr. apply filter_In in Hr as [_ Hr].
      unfold notna in Hr. now apply negb_true_iff in Hr. }
    split; [reflexivity|]. split; [|split].
    + apply Forall_perm with (l := filter (fun r => notna (key r)) rows);
        [symmetry; apply sort_desc_perm|exact Hf].
    + now apply sort_desc_sorted.
    + apply Forall_forall. intros r Hr. now apply filter_In in Hr as [_ Hr].
Qed.

End SortValues.

(** ** Sensitivity ranking *)

Section Sensitivity.
Context {G : Generator float} {BL : Blas float}.
Local Open Scope num_scope.

(** [sensitivity_analysis] on an engine that holds a table returns the
    six factor rows, each with the Pearson correlation of its column
    with [monthly_value], the impact score (std / mean) * |correlation|
    and the label High / Medium / Low by the thresholds 0.3 and 0.1;
    the rows come in descending order of impact score, rows whose
    score is NaN last; the process state is not changed. *)
Theorem sensitivity_rows_ranked (w : World) rows w' :
  sensitivity_analysis w = (inr rows, w') ->
  exists t,
    results (self w) = Some t /\ w' = w /\
    Permutation rows (map (fun f => sensitivity_row t (fst f) (snd f t)) factors) /\
    descending_nan_last Impact_Score rows /\
    forall r, In r rows ->
      exists name col,
        In (name, col) factors /\
        Factor r = display_name name /\
        Correlation r = series_corr (monthly_value t) (col t) /\
        Impact_Score r =
          series_std (col t) / series_mean (col t) * fabs (Correlation r) /\
        Relative_Importance r =
          (if lit 3 10 <? fabs (Correlation r) then "High"%string
           else if lit 1 10 <? fabs (Correlation r) then "Medium"%string
           else "Low"%string).
Proof.
  unfold sensitivity_analysis, bind, get_results.
  destruct (results (self w)) as [t|] eqn:Er; [|discriminate].
  unfold ret. intros H. inversion H; subst. exists t.
  destruct (sort_values_desc_spec Impact_Score
              (map (fun f => sensitivity_row t (fst f) (snd f t)) factors))
    as [Hperm Hsort].
  repeat split; auto.
  intros r Hr. eapply Permutation_in in Hr; [|exact Hperm].
  apply in_map_iff in Hr as ([name col] & <- & Hin).
  exists name, col. repeat split; auto.
Qed.

End Sensitivity.

Lemma sensitivity_rows_ranked_witness :
  exists t,
    results (self ran_world) = Some t /\ ran_world = ran_world /\
    Permutation
      (match fst (sensitivity_analysis ran_world) with inr rows => rows | inl _ => [] end)
      (map (fun f => sensitivity_row t (fst f) (snd f t)) factors) /\
    descending_nan_last Impact_Score
      (match fst (sensitivity_analysis ran_world) with inr rows => rows | inl _ => [] end) /\
    forall r,
      In r (match fst (sensitivity_analysis ran_world) with
            | inr rows => rows | inl _ => [] end) ->
      exists name col,
        In (name, col) factors /\
        Factor r = display_name name /\
        Correlation r = series_corr (monthly_value t) (col t) /\
        Impact_Score r =
          fmul (fdiv (series_std (col t)) (series_mean (col t))) (fabs (Correlation r)) /\
        Relative_Importance r =
          (if fltb (lit 3 10) (fabs (Correlation r)) then "High"%string
           else if fltb (lit 1 10) (fabs (Correlation r)) then "Medium"%string
           else "Low"%string).
Proof.
  apply sensitivity_rows_ranked with (w := ran_world) (w' := ran_world).
  apply method_result; vm_compute; reflexivity.
Defined.

(** ** The report *)

Section Report.
Context {F : Type} {NF : Num F} {G : Generator F} {BL : Blas F}.
Local Open Scope num_scope.

Lemma bind_inl {A B} (m : M A) (k : A -> M B) w e w1 :
  m w = (inl e, w1) -> bind m k w = (inl e, w1).
Proof. unfold bind. now intros ->. Qed.

Lemma generate_statistics_stored (w : World) df :
  results (self w) = Some df -> generate_statistics w = (inr (statistics_of df), w).
Proof.
  intros H. unfold generate_statistics, bind, get_results. rewrite H. reflexivity.
Qed.

Lemma sensitivity_analysis_stored (w : World) df :
  results (self w) = Some df -> sensitivity_analysis w = (inr (ranking_of df), w).
Proof.
  intros H. unfold sensitivity_analysis, bind, get_results. rewrite H. reflexivity.
Qed.

Lemma summaries_stored {A}
  (k : list MetricStats -> list SensitivityRow -> M A) (w : World) df :
  results (self w) = Some df ->
  bind generate_statistics (fun stats =>
    bind sensitivity_analysis (fun sensitivity => k stats sensitivity)) w
  = k (statistics_of df) (ranking_of df) w.
Proof.
  intros H.
  erewrite bind_ok; [|exact (generate_statistics_stored w H)].
  erewrite bind_ok; [|exact (sensitivity_analysis_stored w H)].
  reflexivity.
Qed.

Lemma generate_report_stored {A}
  (write_outputs : list MetricStats -> list SensitivityRow -> M A) (w : World) df :
  results (self w) = Some df ->
  generate_report write_outputs w
  = write_outputs (statistics_of df) (ranking_of df) w.
Proof.
  intros Er. unfold generate_report.
  unfold bind at 1, get_results at 1. rewrite Er. cbv beta iota.
  unfold bind at 1, ret at 1. cbv beta iota.
  now apply summaries_stored.
Qed.

(** [generate_report] runs the simulation only when the engine holds
    no table.  With a stored table it hands the statistics and the
    ranking of that table to the output step, in the state it was
    called in: no variate is drawn.  Without one it runs once and
    reports on the new table; if the run raises, that exception is
    the outcome and nothing is written. *)
Theorem generate_report_runs_only_without_results {A}
  (write_outputs : list MetricStats -> list SensitivityRow -> M A) (w : World) :
  match results (self w) with
  | Some df =>
      generate_report write_outputs w
      = write_outputs (statistics_of df) (ranking_of df) w
  | None =>
      match run_simulation w with
      | (inr t, w1) =>
          results (self w1) = Some t /\
          generate_report write_outputs w
          = write_outputs (statistics_of t) (ranking_of t) w1
      | (inl e, w1) => generate_report write_outputs w = (inl e, w1)
      end
  end.
Proof.
  destruct (results (self w)) as [df|] eqn:Er.
  - now apply generate_report_stored.
  - unfold generate_report.
    destruct (run_simulation w) as [[e|t] w1] eqn:Erun.
    + unfold bind at 1, get_results at 1. rewrite Er. cbv beta iota.
      unfold bind at 1. unfold bind at 1. rewrite Erun. reflexivity.
    + pose proof Erun as Hrun.
      apply run_simulation_inr in Hrun as (_ & _ & Hres & _).
      split; [exact Hres|].
      unfold bind at 1, get_results at 1. rewrite Er. cbv beta iota.
      unfold bind at 1. unfold bind at 1. rewrite Erun. unfold ret at 1.
      cbv beta iota. now apply summaries_stored.
Qed.

Lemma text_report_figures (df : DataFrame) :
  exists fig,
    _generate_text_report df (statistics_of df) = Some fig /\
    expected_monthly_value fig = series_mean (monthly_value df) /\
    median_monthly_value fig = series_median (monthly_value df) /\
    range_low fig = series_quantile (lit 5 100) (monthly_value df) /\
    range_high fig = series_quantile (lit 95 100) (monthly_value df) /\
    top_quartile fig = series_quantile (lit 75 100) (monthly_value df) /\
    expected_roi fig = series_mean (roi_percent df) /\
    median_roi fig = series_median (roi_percent df).
Proof.
  unfold _generate_text_report, statistics_of, key_metrics.
  cbn [map fst snd].
  assert (E1 : lookup_metric "Monthly Value"
                 [metric_stats "monthly_value" (monthly_value df);
                  metric_stats "adjusted_revenue" (adjusted_revenue df);
                  metric_stats "gross_profit" (gross_profit df);
                  metric_stats "roi_percent" (roi_percent df);
                  metric_stats "hours_saved" (hours_saved df);
                  metric_stats "total_subscribers" (total_subscribers df)]
               = Some (metric_stats "monthly_value" (monthly_value df))).
  { reflexivity. }
  assert (E2 : lookup_metric "Roi Percent"
                 [metric_stats "monthly_value" (monthly_value df);
                  metric_stats "adjusted_revenue" (adjusted_revenue df);
                  metric_stats "gross_profit" (gross_profit df);
                  metric_stats "roi_percent" (roi_percent df);
                  metric_stats "hours_saved" (hours_saved df);
                  metric_stats "total_subscribers" (total_subscribers df)]
               = Some (metric_stats "roi_percent" (roi_percent df))).
  { reflexivity. }
  rewrite E1, E2. eexists. split; [reflexivity|].
  repeat split.
Qed.

(** The two rows the text report looks up by name are always there:
    on the statistics of any table [_generate_text_report] returns
    its figures, and the headline figures are the statistics of the
    [monthly_value] and [roi_percent] columns. *)
Theorem text_report_lookups_succeed (df : DataFrame) :
  exists fig,
    _generate_text_report df (statistics_of df) = Some fig /\
    expected_monthly_value fig = series_mean (monthly_value df) /\
    median_monthly_value fig = series_median (monthly_value df) /\
    range_low fig = series_quantile (lit 5 100) (monthly_value df) /\
    range_high fig = series_quantile (lit 95 100) (monthly_value df) /\
    top_quartile fig = series_quantile (lit 75 100) (monthly_value df) /\
    expected_roi fig = series_mean (roi_percent df) /\
    median_roi fig = series_median (roi_percent df).
Proof. apply text_report_figures. Qed.

(** After a run the "monthly value" is the gross profit under another
    name: the two columns are equal, their rows of statistics differ
    in the name only, and the report's expected monthly value is its
    mean gross profit. *)
Theorem monthly_value_is_gross_profit (w : World) t w' :
  run_simulation w = (inr t, w') ->
  monthly_value t = gross_profit t /\
  (forall r1 r2,
     lookup_metric "Monthly Value" (statistics_of t) = Some r1 ->
     lookup_metric "Gross Profit" (statistics_of t) = Some r2 ->
     Mean r1 = Mean r2 /\ Median r1 = Median r2 /\ Std_Dev r1 = Std_Dev r2 /\
     pct5 r1 = pct5 r2 /\ pct25 r1 = pct25 r2 /\ pct75 r1 = pct75 r2 /\
     pct95 r1 = pct95 r2 /\ Min r1 = Min r2 /\ Max r1 = Max r2) /\
  exists fig,
    _generate_text_report t (statistics_of t) = Some fig /\
    expected_monthly_value fig = mean_gross_profit fig.
Proof.
  intros Hrun. apply run_simulation_inr in Hrun as (_ & Ht & _).
  destruct Ht as (s & a & pr & l & adj & c & _ & _ & _ & _ & _ & _ & ->).
  assert (Em : monthly_value (aggregate s a pr l (total_revenue_of s a pr l) adj c)
               = gross_profit (aggregate s a pr l (total_revenue_of s a pr l) adj c))
    by reflexivity.
  split; [exact Em|]. split.
  - intros r1 r2 H1 H2.
    assert (E1 : r1 = metric_stats "monthly_value"
                   (monthly_value (aggregate s a pr l (total_revenue_of s a pr l) adj c))).
    { change (Some (metric_stats "monthly_value"
                (monthly_value (aggregate s a pr l (total_revenue_of s a pr l) adj c)))
              = Some r1) in H1. now inversion H1. }
    assert (E2 : r2 = metric_stats "gross_profit"
                   (gross_profit (aggregate s a pr l (total_revenue_of s a pr l) adj c))).
    { change (Some (metric_stats "gross_profit"
                (gross_profit (aggregate s a pr l (total_revenue_of s a pr l) adj c)))
              = Some r2) in H2. now inversion H2. }
    rewrite E1, E2, Em. unfold metric_stats. cbn. repeat split.
  - destruct (text_report_figures
                (aggregate s a pr l (total_revenue_of s a pr l) adj c))
      as (fig & Hfig & Hmean & _).
    exists fig. split; [exact Hfig|]. rewrite Hmean, Em.
    unfold _generate_text_report in Hfig.
    destruct (lookup_metric "Monthly Value" _); [|discriminate].
    destruct (lookup_metric "Roi Percent" _); [|discriminate].
    inversion Hfig. reflexivity.
Qed.

End Report.

Lemma monthly_value_is_gross_profit_witness :
  monthly_value demo_table = gross_profit demo_table /\
  (forall r1 r2,
     lookup_metric "Monthly Value" (statistics_of demo_table) = Some r1 ->
     lookup_metric "Gross Profit" (statistics_of demo_table) = Some r2 ->
     Mean r1 = Mean r2 /\ Median r1 = Median r2 /\ Std_Dev r1 = Std_Dev r2 /\
     pct5 r1 = pct5 r2 /\ pct25 r1 = pct25 r2 /\ pct75 r1 = pct75 r2 /\
     pct95 r1 = pct95 r2 /\ Min r1 = Min r2 /\ Max r1 = Max r2) /\
  exists fig,
    _generate_text_report demo_table (statistics_of demo_table) = Some fig /\
    expected_monthly_value fig = mean_gross_profit fig.
Proof.
  apply monthly_value_is_gross_profit
    with (w := demo_world) (w' := set_results (set_rng demo_world 120%nat) demo_table).
  exact demo_run.
Defined.

(** ** The cost columns *)

Section Costs.
Context {F : Type} {NF : Num F} {G : Generator F}.
Local Open Scope num_scope.

(** In the table of a run the automation savings of a trial reduce
    three of its four cost lines: the infrastructure cost by half of
    the savings rate, the data cost by 0.3 of it, the personnel cost
    by 0.2 of it; the marketing cost is the drawn value.  The total
    is the sum of the four reduced columns, added in source order. *)
Theorem costs_reduced_by_automation (w : World) t w' :
  run_simulation w = (inr t, w') ->
  let p := params (self w) in
  let N := Z.to_nat (n_simulations (self w)) in
  exists infra data pers,
    uniform_sample (infrastructure_monthly p) N infra /\
    normal_sample (data_acquisition p) (of_int 0) N data /\
    normal_sample (personnel_allocation p) (of_int 0) N pers /\
    uniform_sample (marketing_monthly p) N (marketing_cost t) /\
    uniform_sample (automation_savings p) N (automation_savings_col t) /\
    forall i, (i < N)%nat ->
      let a := at_ (automation_savings_col t) i in
      at_ (infrastructure_cost t) i = at_ infra i * (of_int 1 - a * lit 5 10) /\
      at_ (data_cost t) i = at_ data i * (of_int 1 - a * lit 3 10) /\
      at_ (personnel_cost t) i = at_ pers i * (of_int 1 - a * lit 2 10) /\
      at_ (total_costs t) i =
        at_ (infrastructure_cost t) i + at_ (data_cost t) i
        + at_ (personnel_cost t) i + at_ (marketing_cost t) i.
Proof.
  intros Hrun p N. apply run_simulation_inr in Hrun as (_ & Ht & _).
  fold p N in Ht.
  destruct Ht as (s & a & pr & l & adj & c & _ & _ & _ & _ & _ & Hc & ->).
  destruct Hc as (infra & data & pers & mkt & automation
                  & Ui & Nd & Np & Um & Ua & ->).
  exists infra, data, pers.
  repeat (split; [assumption|]).
  intros i Hi.
  pose proof (uniform_sample_length Ui) as Li.
  pose proof (normal_sample_length Nd) as Ld.
  pose proof (normal_sample_length Np) as Lp.
  pose proof (uniform_sample_length Um) as Lm.
  pose proof (uniform_sample_length Ua) as La.
  destruct (cost_streams_at infra data pers mkt automation Li Ld Lp Lm La Hi)
    as (E1 & E2 & E3 & E4 & E5).
  cbn [infrastructure_cost data_cost personnel_cost marketing_cost total_costs
       automation_savings_col aggregate].
  cbn [cost_automation_savings marketing cost_streams] in *.
  repeat split; assumption.
Qed.

End Costs.

Lemma costs_reduced_by_automation_witness :
  let p := params (self demo_world) in
  exists infra data pers,
    uniform_sample (infrastructure_monthly p) 3 infra /\
    normal_sample (data_acquisition p) (of_int 0) 3 data /\
    normal_sample (personnel_allocation p) (of_int 0) 3 pers /\
    uniform_sample (marketing_monthly p) 3 (marketing_cost demo_table) /\
    uniform_sample (automation_savings p) 3 (automation_savings_col demo_table) /\
    forall i, (i < 3)%nat ->
      let a := at_ (automation_savings_col demo_table) i in
      at_ (infrastructure_cost demo_table) i
        = fmul (at_ infra i) (fsub (of_int 1) (fmul a (lit 5 10))) /\
      at_ (data_cost demo_table) i
        = fmul (at_ data i) (fsub (of_int 1) (fmul a (lit 3 10))) /\
      at_ (personnel_cost demo_table) i
        = fmul (at_ pers i) (fsub (of_int 1) (fmul a (lit 2 10))) /\
      at_ (total_costs demo_table) i =
        fadd (fadd (fadd (at_ (infrastructure_cost demo_table) i)
                         (at_ (data_cost demo_table) i))
                   (at_ (personnel_cost demo_table) i))
             (at_ (marketing_cost demo_table) i).
Proof.
  apply costs_reduced_by_automation
    with (w := demo_world) (w' := set_results (set_rng demo_world 120%nat) demo_table).
  exact demo_run.
Defined.

(** ** The risk figures of the text report *)

Section Risk.
Local Open Scope num_scope.

Lemma exceed_count_le (t1 t2 : float) (col : list float) :
  (t1 <=? t2) = true -> (exceed_count t2 col <= exceed_count t1 col)%nat.
Proof.
  intros H. unfold exceed_count.
  induction col as [|x col IH]; cbn [filter List.length]; [lia|].
  destruct (t2 <? x) eqn:E2.
  - rewrite (leb_ltb_trans H E2). cbn [List.length]. lia.
  - destruct (t1 <? x); cbn [List.length]; lia.
Qed.

Lemma exceed_count_counted (t : float) (col : list float) :
  (exceed_count t col <= series_count col)%nat.
Proof.
  unfold exceed_count, series_count, dropna.
  induction col as [|x col IH]; cbn [filter List.length]; [lia|].
  destruct (t <? x) eqn:E.
  - assert (Hx : notna x = true).
    { unfold notna. destruct (isnan x) eqn:En; [|reflexivity].
      apply isnan_nan in En. subst x. rewrite ltb_nan_r in E. discriminate. }
    rewrite Hx. cbn [List.length]. lia.
  - destruct (notna x); cbn [List.length]; lia.
Qed.

(** The number of trials counted as exceeding a threshold falls as the
    threshold rises, and a trial whose value is NaN is never counted:
    the four probabilities of the risk analysis are based on counts
    that decrease from the 5,000 line to the 20,000 line. *)
Theorem risk_counts_decrease (t1 t2 : float) (col : list float) :
  (t1 <=? t2) = true ->
  (exceed_count t2 col <= exceed_count t1 col)%nat /\
  (exceed_count t1 col <= series_count col)%nat /\
  (series_count col <= List.length col)%nat.
Proof.
  intros H. split; [now apply exceed_count_le|].
  split; [apply exceed_count_counted|].
  unfold series_count, dropna. apply filter_length_le.
Qed.

End Risk.

Lemma risk_counts_decrease_witness :
  (exceed_count (of_int 10000) (monthly_value demo_table)
   <= exceed_count (of_int 5000) (monthly_value demo_table))%nat /\
  (exceed_count (of_int 5000) (monthly_value demo_table)
   <= series_count (monthly_value demo_table))%nat /\
  (series_count (monthly_value demo_table)
   <= List.length (monthly_value demo_table))%nat.
Proof.
  apply (@risk_counts_decrease (of_int 5000) (of_int 10000) (monthly_value demo_table)).
  vm_compute. reflexivity.
Defined.

Section RiskReal.
Local Open Scope R_scope.

Lemma exceed_count_le_real (t1 t2 : R) (col : list R) :
  t1 <= t2 -> (exceed_count t2 col <= exceed_count t1 col)%nat.
Proof.
  intros H. unfold exceed_count.
  induction col as [|x col IH]; cbn [filter List.length]; [lia|].
  destruct (fltb t2 x) eqn:E2, (fltb t1 x) eqn:E1; cbn [List.length]; try lia.
  exfalso. cbn in E1, E2. unfold Rltb in E1, E2.
  destruct (Rlt_dec t2 x), (Rlt_dec t1 x); try discriminate. lra.
Qed.

Lemma exceed_count_length (t : R) (col : list R) :
  (exceed_count t col <= List.length col)%nat.
Proof. unfold exceed_count. apply filter_length_le. Qed.

Lemma probability_above_real (t : R) (col : list R) :
  col <> [] ->
  probability_above t col
  = IZR (Z.of_nat (exceed_count t col)) / IZR (Z.of_nat (List.length col)) * 100.
Proof. destruct col; [congruence|reflexivity]. Qed.

(** In real arithmetic the probability reported for a threshold lies
    between 0 and 100 and does not rise when the threshold does. *)
Theorem probability_above_bounds (t1 t2 : R) (col : list R) :
  col <> [] -> t1 <= t2 ->
  0 <= probability_above t2 col <= probability_above t1 col /\
  probability_above t1 col <= 100.
Proof.
  intros Hc Ht. rewrite !probability_above_real by exact Hc.
  pose proof (exceed_count_le_real col Ht) as H12.
  pose proof (exceed_count_length t1 col) as H1.
  assert (Hn : (0 < List.length col)%nat) by (destruct col; [congruence|simpl; lia]).
  set (c1 := exceed_count t1 col) in *. set (c2 := exceed_count t2 col) in *.
  set (n := List.length col) in *.
  assert (R2 : 0 <= IZR (Z.of_nat c2)) by (apply IZR_le; lia).
  assert (R12 : IZR (Z.of_nat c2) <= IZR (Z.of_nat c1)) by (apply IZR_le; lia).
  assert (R1 : IZR (Z.of_nat c1) <= IZR (Z.of_nat n)) by (apply IZR_le; lia).
  assert (Rn : 0 < IZR (Z.of_nat n)) by (apply IZR_lt; lia).
  pose proof (Rinv_0_lt_compat _ Rn) as Hi.
  assert (Hone : IZR (Z.of_nat n) * / IZR (Z.of_nat n) = 1) by (apply Rinv_r; lra).
  unfold Rdiv. repeat split; nra.
Qed.

End RiskReal.

Lemma probability_above_bounds_witness :
  (0 <= probability_above 10000 [4000; 12000; 25000]
     <= probability_above 5000 [4000; 12000; 25000])%R /\
  (probability_above 5000 [4000; 12000; 25000] <= 100)%R.
Proof.
  apply (@probability_above_bounds 5000 10000 [4000; 12000; 25000])%R.
  - discriminate.
  - lra.
Defined.

(** ** [main] *)

Section MainRun.
Context {G : Generator float} {BL : Blas float}.

Lemma default_parameters_runnable (n : Z) :
  (0 <= n)%Z -> runnable (default_parameters (F := float)) n = true.
Proof.
  intros Hn. apply runnable_any_size; [exact Hn|]. vm_compute. reflexivity.
Qed.

(** [main] simulates once.  Whatever state the generator is in, the
    run on the default parameters returns a table of 10000 trials;
    provided the output step of the report succeeds and leaves the
    engine object alone, [main] returns that table together with its
    statistics, and the engine still holds it: the report and the
    final summaries are computed from the one table, without another
    draw by the engine. *)
Theorem main_reports_its_single_run {A}
  (write_outputs : list MetricStats -> list SensitivityRow -> M A) (w : World) :
  (forall stats sensitivity w0,
     exists a w1, write_outputs stats sensitivity w0 = (inr a, w1) /\
                  self w1 = self w0) ->
  exists t w1 w2,
    run_simulation
      {| np_random := np_random w; self := __init__ default_parameters 10000 |}
      = (inr t, w1) /\
    rows (Z.to_nat 10000) t /\
    generate_report write_outputs w1
      = write_outputs (statistics_of t) (ranking_of t) w1 /\
    main write_outputs w = (inr (t, statistics_of t), w2) /\
    results (self w2) = Some t.
Proof.
  intros Hout.
  set (w0 := {| np_random := np_random w; self := __init__ default_parameters 10000 |}).
  destruct (run_simulation_ok w0) as (t & w1 & Erun).
  { apply default_parameters_runnable. unfold w0. cbn [self n_simulations __init__]. lia. }
  pose proof Erun as Hrun.
  apply run_simulation_inr in Hrun as (_ & Ht & Hres & _).
  pose proof (generate_report_stored write_outputs w1 Hres) as Erep.
  destruct (Hout (statistics_of t) (ranking_of t) w1) as (a & w2 & Ew & Hs).
  exists t, w1, w2.
  split; [exact Erun|]. split; [exact (table_of_rows Ht)|]. split; [exact Erep|].
  assert (Hres2 : results (self w2) = Some t) by now rewrite Hs.
  split; [|exact Hres2].
  unfold main. fold w0.
  erewrite bind_ok; [|exact Erun].
  erewrite bind_ok; [|rewrite Erep; exact Ew].
  erewrite bind_ok; [|exact (generate_statistics_stored w2 Hres2)].
  erewrite bind_ok; [|exact (sensitivity_analysis_stored w2 Hres2)].
  reflexivity.
Qed.

End MainRun.

Lemma main_reports_its_single_run_witness :
  exists t w1 w2,
    run_simulation
      {| np_random := np_random demo_world;
         self := __init__ default_parameters 10000 |}
      = (inr t, w1) /\
    rows (Z.to_nat 10000) t /\
    generate_report (fun _ _ => ret tt) w1 = ret tt w1 /\
    main (fun _ _ => ret tt) demo_world = (inr (t, statistics_of t), w2) /\
    results (self w2) = Some t.
Proof.
  apply (@main_reports_its_single_run counter_generator sequential_blas unit
           (fun _ _ => ret tt) demo_world).
  intros stats sensitivity w0. exists tt, w0. split; reflexivity.
Defined.

(** ** The API, project and licensing streams *)

Section Streams.
Context {F : Type} {NF : Num F} {G : Generator F}.
Local Open Scope num_scope.

(** In the table of a run, for every trial: the API revenue is the
    base fee plus the number of calls times the revenue per call, the
    project revenue is the number of projects times the (bounded
    skewed-normal, skew 0.2) project value, and the licensing revenue
    is the number of annual deals times the deal value, divided by
    12; the call and project counts are the table's own count
    columns, and all factors are drawn for that run from the ranges
    of the parameter set. *)
Theorem stream_revenue_formulas (w : World) t w' :
  run_simulation w = (inr t, w') ->
  let p := params (self w) in
  let N := Z.to_nat (n_simulations (self w)) in
  exists base per_call vals deals dvals,
    uniform_sample (api_monthly_base p) N base /\
    uniform_sample (api_per_call_revenue p) N per_call /\
    integer_sample (monthly_api_calls p) N (api_calls t) /\
    integer_sample (projects_per_month p) N (project_count t) /\
    normal_sample (project_value p) (lit 2 10) N vals /\
    integer_sample (annual_licensing_deals p) N deals /\
    normal_sample (licensing_value p) (of_int 0) N dvals /\
    forall i, (i < N)%nat ->
      at_ (api_revenue t) i
        = at_ base i + of_int (nth i (api_calls t) 0%Z) * at_ per_call i /\
      at_ (project_revenue t) i
        = of_int (nth i (project_count t) 0%Z) * at_ vals i /\
      at_ (licensing_revenue t) i
        = of_int (nth i deals 0%Z) * at_ dvals i / of_int 12.
Proof.
  intros Hrun p N. apply run_simulation_inr in Hrun as (_ & Ht & _).
  fold p N in Ht.
  destruct Ht as (s & a & pr & l & adj & c & _ & Ha & Hp & Hl & _ & _ & ->).
  destruct Ha as (base & per_call & calls & Ub & Uc & Ic & ->).
  destruct Hp as (num & vals & In & Nv & ->).
  destruct Hl as (deals & dvals & Id & Nd & ->).
  exists base, per_call, vals, deals, dvals.
  cbn [api_revenue project_revenue licensing_revenue api_calls project_count
       aggregate total_api api_calls_arr api_streams total_projects
       project_count_arr project_streams monthly_licensing licensing_streams].
  repeat (split; [assumption|]).
  intros i Hi.
  pose proof (uniform_sample_length Ub) as Lb.
  pose proof (uniform_sample_length Uc) as Lc.
  pose proof (integer_sample_length Ic) as Lk.
  pose proof (integer_sample_length In) as Ln.
  pose proof (normal_sample_length Nv) as Lv.
  pose proof (integer_sample_length Id) as Ld.
  pose proof (normal_sample_length Nd) as Ldv.
  unfold vadd, vimul, vdivs, at_.
  assert (Lu : List.length (vmap2 (fun k x => of_int k * x) calls per_call) = N)
    by now apply len_vmap2.
  assert (Lm : List.length (vmap2 (fun k x => of_int k * x) deals dvals) = N)
    by now apply len_vmap2.
  repeat split.
  - rewrite (nth_vmap2 fadd fnan fnan) by lia.
    now rewrite (nth_vmap2 (fun k x => of_int k * x) 0%Z fnan) by lia.
  - now rewrite (nth_vmap2 (fun k x => of_int k * x) 0%Z fnan) by lia.
  - rewrite (nth_map' (fun x => x / of_int 12) fnan) by lia.
    now rewrite (nth_vmap2 (fun k x => of_int k * x) 0%Z fnan) by lia.
Qed.

End Streams.

Lemma stream_revenue_formulas_witness :
  let p := params (self demo_world) in
  exists base per_call vals deals dvals,
    uniform_sample (api_monthly_base p) 3 base /\
    uniform_sample (api_per_call_revenue p) 3 per_call /\
    integer_sample (monthly_api_calls p) 3 (api_calls demo_table) /\
    integer_sample (projects_per_month p) 3 (project_count demo_table) /\
    normal_sample (project_value p) (lit 2 10) 3 vals /\
    integer_sample (annual_licensing_deals p) 3 deals /\
    normal_sample (licensing_value p) (of_int 0) 3 dvals /\
    forall i, (i < 3)%nat ->
      at_ (api_revenue demo_table) i
        = fadd (at_ base i)
               (fmul (of_int (nth i (api_calls demo_table) 0%Z)) (at_ per_call i)) /\
      at_ (project_revenue demo_table) i
        = fmul (of_int (nth i (project_count demo_table) 0%Z)) (at_ vals i) /\
      at_ (licensing_revenue demo_table) i
        = fdiv (fmul (of_int (nth i deals 0%Z)) (at_ dvals i)) (of_int 12).
Proof.
  apply stream_revenue_formulas
    with (w := demo_world) (w' := set_results (set_rng demo_world 120%nat) demo_table).
  exact demo_run.
Defined.
